(** * Whoosh: the client-side scripts of the blog-post page

    A shallow embedding of [app/static/js/frontstage/blogpost.js] and of the
    site-wide script that follows it in the same source file: the table of
    contents builder, the replacement-image and read-count requests, the
    time localizer, the count formatter and the layout sizers.

    The scripts work on the browser's DOM.  The DOM tree is a rose tree of
    element and text nodes; an element reference held by the script (the
    result of [querySelector], an entry of a [NodeList]) is the path of child
    indices that leads to the element from the document node.  A statement
    that mutates an element rebuilds the tree at that path.  Script code runs
    in a state and exception monad over the page: the document, the console,
    and what was handed to the browser for later (requests, timers,
    listeners).  The built-ins of the host ([Date], [Intl], [parseFloat],
    [innerHTML]) are parameters.

    Left out: [onSubmit], which hands the comment form to the browser, and
    the calls into the syntax highlighter. *)

From Stdlib Require Import PrimFloat ZArith Ascii String.
From stdpp Require Import base tactics option list strings pretty.

Set Warnings "-register-all".
Local Open Scope string_scope.
Local Open Scope list_scope.

(** ** Strings *)

(** [String.prototype.toLowerCase] on the ASCII letters, which is all a tag
    name holds. *)
Definition lowerAscii (c : ascii) : ascii :=
  let n := nat_of_ascii c in
  if (65 <=? n)%nat && (n <=? 90)%nat then ascii_of_nat (n + 32) else c.

Fixpoint toLowerCase (s : string) : string :=
  match s with
  | EmptyString => EmptyString
  | String c r => String (lowerAscii c) (toLowerCase r)
  end.

(** ** Numbers *)

(** A JavaScript number is an IEEE 754 binary64 value.  [numberOfPositive]
    and [numberOfLong] convert a DOM [long] (the type of [offsetWidth] and
    [offsetHeight]); the conversion is exact below 2^53. *)
Fixpoint numberOfPositive (p : positive) : float :=
  match p with
  | xH => 1%float
  | xO q => (2 * numberOfPositive q)%float
  | xI q => (2 * numberOfPositive q + 1)%float
  end.

Definition numberOfLong (z : Z) : float :=
  match z with
  | Z0 => 0%float
  | Zpos p => numberOfPositive p
  | Zneg p => (- numberOfPositive p)%float
  end.

(** The global [isNaN] applied to a number. *)
Definition isNaN (x : float) : bool := PrimFloat.is_nan x.

(** ** The DOM tree *)

(** A value of an inline style declaration written by the scripts.
    [Px x] stands for the template [`${x}px`] and [CalcVhMinusPx v t] for
    [`calc(${v}vh - ${t}px)`]; [Keyword s] is a literal such as ["none"]. *)
Inductive cssValue :=
| Px (x : float)
| CalcVhMinusPx (vh : Z) (px : Z)
| Keyword (s : string).

(** What an element carries besides its children.  [attributes] are the
    content attributes other than [class] ([id], [src], [data-post-uid], ...),
    [value] is the value of a form control, [style] the inline declarations
    set from script, [offsetWidth] and [offsetHeight] the layout box as the
    browser measured it last.  Layout is the browser's: a script that sets a
    style does not change the measurements it reads. *)
Record props := {
  tagName : string;
  classList : list string;
  attributes : list (string * string);
  value : string;
  style : list (string * cssValue);
  offsetWidth : Z;
  offsetHeight : Z;
}.

Inductive node :=
| Element (e : props) (childNodes : list node)
| Text (data : string).

(** An element reference: the child indices from the node it is relative to. *)
Definition path := list nat.

Section node_induction.
Variable P : node -> Prop.
Hypothesis P_text : forall s, P (Text s).
Hypothesis P_element : forall e kids, Forall P kids -> P (Element e kids).

Fixpoint node_forall_ind (n : node) : P n :=
  match n with
  | Text s => P_text s
  | Element e kids =>
      P_element e kids
        ((fix all (l : list node) : Forall P l :=
            match l with
            | [] => List.Forall_nil P
            | k :: r => List.Forall_cons P k r (node_forall_ind k) (all r)
            end) kids)
  end.
End node_induction.

(** *** Element properties *)

Definition withClassList (f : list string -> list string) (e : props) : props :=
  {| tagName := tagName e; classList := f (classList e);
     attributes := attributes e; value := value e; style := style e;
     offsetWidth := offsetWidth e; offsetHeight := offsetHeight e |}.

Definition withAttributes (f : list (string * string) -> list (string * string))
    (e : props) : props :=
  {| tagName := tagName e; classList := classList e;
     attributes := f (attributes e); value := value e; style := style e;
     offsetWidth := offsetWidth e; offsetHeight := offsetHeight e |}.

Definition withValue (v : string) (e : props) : props :=
  {| tagName := tagName e; classList := classList e;
     attributes := attributes e; value := v; style := style e;
     offsetWidth := offsetWidth e; offsetHeight := offsetHeight e |}.

Definition withStyle (f : list (string * cssValue) -> list (string * cssValue))
    (e : props) : props :=
  {| tagName := tagName e; classList := classList e;
     attributes := attributes e; value := value e; style := f (style e);
     offsetWidth := offsetWidth e; offsetHeight := offsetHeight e |}.

(** Association lists keyed by strings: attributes and style declarations. *)
Fixpoint assocGet {A} (k : string) (l : list (string * A)) : option A :=
  match l with
  | [] => None
  | (k', v) :: r => if String.eqb k k' then Some v else assocGet k r
  end.

Fixpoint assocSet {A} (k : string) (v : A) (l : list (string * A)) : list (string * A) :=
  match l with
  | [] => [(k, v)]
  | (k', v') :: r => if String.eqb k k' then (k, v) :: r else (k', v') :: assocSet k v r
  end.

(** [classList.add(c)] and [classList.remove(c)]: the class list is an ordered
    set of tokens. *)
Definition classListAdd (c : string) (l : list string) : list string :=
  if bool_decide (c ∈ l) then l else l ++ [c].

Definition classListRemove (c : string) (l : list string) : list string :=
  filter (fun x => x <> c) l.

Definition getAttribute (name : string) (e : props) : option string :=
  assocGet name (attributes e).

Definition setAttribute (name v : string) (e : props) : props :=
  withAttributes (assocSet name v) e.

Definition setStyle (name : string) (v : cssValue) (e : props) : props :=
  withStyle (assocSet name v) e.

(** *** Selectors *)

(** A class selector [.c], a type selector [t] (HTML elements report their
    tag name in upper case and match a type selector without regard to case),
    and the test behind [getElementById]. *)
Definition hasClass (c : string) (n : node) : bool :=
  match n with
  | Element e _ => bool_decide (c ∈ classList e)
  | Text _ => false
  end.

Definition hasTag (t : string) (n : node) : bool :=
  match n with
  | Element e _ => String.eqb (toLowerCase (tagName e)) t
  | Text _ => false
  end.

Definition hasId (i : string) (n : node) : bool :=
  match n with
  | Element e _ => bool_decide (getAttribute "id" e = Some i)
  | Text _ => false
  end.

Definition isElement (n : node) : bool :=
  match n with Element _ _ => true | Text _ => false end.

(** [n.children]: the child nodes that are elements. *)
Definition children (n : node) : list node :=
  match n with
  | Element _ kids => filter (fun k => isElement k = true) kids
  | Text _ => []
  end.

Definition firstChild (n : node) : option node :=
  match n with
  | Element _ kids => head kids
  | Text _ => None
  end.

(** *** Following and rebuilding along a path *)

Fixpoint nodeAt (p : path) (n : node) : option node :=
  match p with
  | [] => Some n
  | i :: p' =>
      match n with
      | Element _ kids => k ← kids !! i; nodeAt p' k
      | Text _ => None
      end
  end.

(** [alterAt f n p]: the tree [n] after the statement [f] mutated the node
    that [p] refers to.  A path that leads nowhere leaves the tree as it is. *)
Definition alterAt (f : node -> node) : node -> path -> node :=
  fix go (n : node) (p : path) {struct n} : node :=
    match p with
    | [] => f n
    | i :: p' =>
        match n with
        | Element e kids => Element e (alter (fun k => go k p') i kids)
        | Text _ => n
        end
    end.

(** The same below an element: [p] is relative to the element whose child
    nodes are [kids], and so is never empty for a descendant. *)
Definition alterBelow (f : node -> node) (kids : list node) (p : path) : list node :=
  match p with
  | [] => kids
  | i :: p' => alter (fun k => alterAt f k p') i kids
  end.

(** A mutation of the element's own properties. *)
Definition onProps (g : props -> props) (n : node) : node :=
  match n with
  | Element e kids => Element (g e) kids
  | Text _ => n
  end.

(** *** querySelectorAll, querySelector, getElementById *)

(** The descendants of [n] that match, in document order (a node before its
    descendants, siblings left to right).  [n] itself is not a candidate. *)
Fixpoint querySelectorAll (sel : node -> bool) (n : node) : list path :=
  match n with
  | Element _ kids =>
      (fix below (l : list node) (i : nat) {struct l} : list path :=
         match l with
         | [] => []
         | k :: r =>
             (if sel k then [[i]] else [])
               ++ map (cons i) (querySelectorAll sel k)
               ++ below r (S i)
         end) kids 0%nat
  | Text _ => []
  end.

Definition querySelector (sel : node -> bool) (n : node) : option path :=
  head (querySelectorAll sel n).

Definition getElementById (i : string) (doc : node) : option path :=
  querySelector (hasId i) doc.

(** *** textContent *)

(** The getter concatenates the text of all descendants in document order;
    the setter replaces the children by one text node, or by none when the
    string is empty. *)
Fixpoint textContent (n : node) : string :=
  match n with
  | Text s => s
  | Element _ kids =>
      (fix cat (l : list node) : string :=
         match l with
         | [] => ""
         | k :: r => textContent k +:+ cat r
         end) kids
  end.

Definition setTextContent (s : string) (n : node) : node :=
  match n with
  | Element e _ => Element e (if String.eqb s "" then [] else [Text s])
  | Text _ => Text s
  end.

(** ** The page and its scripts *)

(** What the scripts hand to the browser for later: event listeners, timers
    and network requests.  A callback is named after the function of the
    source that it is. *)
Inductive callback :=
| PreventFormEnter
| SetCoverHeight
| SetContentMinHeight.

Inductive eventTarget :=
| Window
| ElementAt (p : path).

Record listener := {
  target : eventTarget;
  eventType : string;
  handler : callback;
}.

Inductive task :=
| SendReadCountRequest (postUid : option string)
| FadeNotification
| HideNotification (notification : path).

(** The state a script runs in: the document (its root stands for the
    document node, whose descendants are the elements), the console, the
    URLs requested with [fetch], the pending timers with their delay in
    milliseconds, and the registered listeners. *)
Record page := {
  document : node;
  console : list string;
  requests : list string;
  timers : list (task * Z);
  listeners : list listener;
}.

Definition withDocument (f : node -> node) (pg : page) : page :=
  {| document := f (document pg); console := console pg; requests := requests pg;
     timers := timers pg; listeners := listeners pg |}.

Definition withConsole (f : list string -> list string) (pg : page) : page :=
  {| document := document pg; console := f (console pg); requests := requests pg;
     timers := timers pg; listeners := listeners pg |}.

Definition withRequests (f : list string -> list string) (pg : page) : page :=
  {| document := document pg; console := console pg; requests := f (requests pg);
     timers := timers pg; listeners := listeners pg |}.

Definition withTimers (f : list (task * Z) -> list (task * Z)) (pg : page) : page :=
  {| document := document pg; console := console pg; requests := requests pg;
     timers := f (timers pg); listeners := listeners pg |}.

Definition withListeners (f : list listener -> list listener) (pg : page) : page :=
  {| document := document pg; console := console pg; requests := requests pg;
     timers := timers pg; listeners := f (listeners pg) |}.

(** *** Exceptions and the script monad *)

Inductive exn :=
| TypeError (msg : string).

Definition exnToString (e : exn) : string :=
  match e with TypeError msg => "TypeError: " +:+ msg end.

Inductive result (A : Type) :=
| Return (a : A)
| Raise (e : exn).
Arguments Return {A} a.
Arguments Raise {A} e.

(** A run of script code: it ends normally with a value or abruptly with an
    exception, and in both cases leaves the page as it was mutated so far. *)
Definition script (A : Type) : Type := page -> result A * page.

Definition ret {A} (a : A) : script A := fun pg => (Return a, pg).

Definition throw {A} (e : exn) : script A := fun pg => (Raise e, pg).

Definition andThen {A B} (c : script A) (k : A -> script B) : script B :=
  fun pg =>
    match c pg with
    | (Return a, pg') => k a pg'
    | (Raise e, pg') => (Raise e, pg')
    end.

Notation "'do' x <- c ; k" := (andThen c (fun x => k))
  (at level 10, x name, c at level 100, k at level 200,
   format "'[v' 'do'  x  <-  c ; '/' k ']'").
Notation "c ;; k" := (andThen c (fun _ => k))
  (at level 100, k at level 200, right associativity).

Definition gets {A} (f : page -> A) : script A := fun pg => (Return (f pg), pg).

Definition modify (f : page -> page) : script unit := fun pg => (Return tt, f pg).

(** Using a reference that may be [null]: a property access on [null]
    throws a TypeError. *)
Definition deref {A} (r : option A) : script A :=
  match r with
  | Some a => ret a
  | None => throw (TypeError "Cannot read properties of null")
  end.

Definition mutate (p : path) (f : node -> node) : script unit :=
  modify (withDocument (fun doc => alterAt f doc p)).

Definition consoleError (msg : string) : script unit :=
  modify (withConsole (fun l => l ++ [msg])).

Definition fetch (url : string) : script unit :=
  modify (withRequests (fun l => l ++ [url])).

Definition setTimeout (t : task) (delay : Z) : script unit :=
  modify (withTimers (fun l => l ++ [(t, delay)])).

(** [tg.addEventListener(type, cb)]: a listener that is registered already,
    for the same type with the same function, is not added again. *)
Definition sameTarget (a b : eventTarget) : bool :=
  match a, b with
  | Window, Window => true
  | ElementAt p, ElementAt q => bool_decide (p = q)
  | _, _ => false
  end.

Definition sameCallback (a b : callback) : bool :=
  match a, b with
  | PreventFormEnter, PreventFormEnter => true
  | SetCoverHeight, SetCoverHeight => true
  | SetContentMinHeight, SetContentMinHeight => true
  | _, _ => false
  end.

Definition sameListener (a b : listener) : bool :=
  sameTarget (target a) (target b) && String.eqb (eventType a) (eventType b)
  && sameCallback (handler a) (handler b).

Definition addEventListener (tg : eventTarget) (type : string) (cb : callback) : script unit :=
  let new := {| target := tg; eventType := type; handler := cb |} in
  modify (withListeners (fun l =>
    if existsb (sameListener new) l then l else l ++ [new])).

(** [forEach] over a list of references. *)
Fixpoint forEach {A} (l : list A) (body : A -> script unit) : script unit :=
  match l with
  | [] => ret tt
  | a :: r => body a ;; forEach r body
  end.

(** Did the run end normally? *)
Definition completes {A} (r : result A * page) : bool :=
  match r with (Return _, _) => true | (Raise _, _) => false end.

(** ** Values and built-ins of the host *)

(** A JavaScript value as [response.json()] can yield it, with [undefined]
    for a property that is not there.  An object is the list of its own
    properties, each key once. *)
Inductive jsValue :=
| Undefined
| Null
| Boolean (b : bool)
| Number (x : float)
| Str (s : string)
| Array (items : list jsValue)
| Object (fields : list (string * jsValue)).

(** The options bag of [Intl.DateTimeFormat] and of the [toLocale...String]
    methods of [Date]; [None] is a key that is left out. *)
Record dateTimeOptions := {
  timeZone : option string;
  year : option string;
  month : option string;
  day : option string;
  hour : option string;
  minute : option string;
  second : option string;
  hour12 : option bool;
}.

(** The built-ins the scripts call and the source does not define.  They
    are parameters of the development: nothing is assumed about them beyond
    their types. *)
Record host := {
  (** [Number::toString], as a template literal or [setAttribute] applies it *)
  numberToString : float -> string;
  (** [Intl.DateTimeFormat().resolvedOptions().timeZone] *)
  resolvedTimeZone : string;
  (** the time value of [new Date(s)]; NaN when [s] is not a date *)
  dateTimeValue : string -> float;
  (** [new Intl.DateTimeFormat(locale, options).format] on a finite time value *)
  formatDateTime : string -> dateTimeOptions -> float -> string;
  (** [String.prototype.trim] *)
  trim : string -> string;
  (** the global [parseFloat] *)
  parseFloat : string -> float;
  (** [Number.prototype.toLocaleString()] in the viewer's locale *)
  numberToLocaleString : float -> string;
  (** the [innerHTML] getter: the serialization of the child nodes *)
  serializeHTML : list node -> string;
  (** the [innerHTML] setter: the nodes the fragment parser builds *)
  parseHTML : string -> list node;
  (** [new Date().getFullYear()] *)
  currentYear : float;
}.

(** [ToBoolean]. *)
Definition toBoolean (v : jsValue) : bool :=
  match v with
  | Undefined | Null => false
  | Boolean b => b
  | Number x => negb (PrimFloat.eqb x 0) && negb (PrimFloat.is_nan x)
  | Str s => negb (String.eqb s "")
  | Array _ | Object _ => true
  end.

Definition joinWith (sep : string) (l : list string) : string :=
  match l with
  | [] => ""
  | x :: r => fold_left (fun acc y => acc +:+ sep +:+ y) r x
  end.

(** [ToString], which [setAttribute] applies to its value argument. *)
Fixpoint toString (H : host) (v : jsValue) : string :=
  match v with
  | Undefined => "undefined"
  | Null => "null"
  | Boolean b => if b then "true" else "false"
  | Number x => numberToString H x
  | Str s => s
  | Array items =>
      joinWith ","
        (map (fun x => match x with
                       | Undefined | Null => ""
                       | _ => toString H x
                       end) items)
  | Object _ => "[object Object]"
  end.

(** [data.imageUrl]: reading a property of [null] or [undefined] throws, a
    value that is no object with that key gives [undefined]. *)
Definition getImageUrl (data : jsValue) : script jsValue :=
  match data with
  | Undefined | Null =>
      throw (TypeError "Cannot read properties of null (reading 'imageUrl')")
  | Object fields => ret (default Undefined (assocGet "imageUrl" fields))
  | _ => ret Undefined
  end.

(** [promise.catch(h)]: an exception of the chain goes to [h]. *)
Definition catch (c : script unit) (h : exn -> script unit) : script unit :=
  fun pg =>
    match c pg with
    | (Raise e, pg') => h e pg'
    | r => r
    end.

(** ** blogpost.js *)

(** How the promise of [fetch(originalSrc).then(r => r.json())] settles. *)
Inductive fetchOutcome :=
| NetworkError (error : string)
| BodyNotJson (error : string)
| Body (data : jsValue).

Section blogpost.
Variable H : host.

(** [fetchReplacementImage(imgElement)], the part that runs at once: the
    request for the current [src] ([null] when the attribute is missing). *)
Definition fetchReplacementImage (imgElement : path) : script unit :=
  do img <- gets (fun pg => nodeAt imgElement (document pg));
  let originalSrc :=
    match img with
    | Some (Element e _) => getAttribute "src" e
    | _ => None
    end in
  fetch (default "null" originalSrc).

(** The second [then] callback. *)
Definition onReplacementData (imgElement : path) (data : jsValue) : script unit :=
  do imageUrl <- getImageUrl data;
  if toBoolean imageUrl then
    mutate imgElement (onProps (setAttribute "src" (toString H imageUrl)))
  else
    consoleError "Image URL not found in the response.".

(** The [catch] callback. *)
Definition onReplacementError (error : string) : script unit :=
  consoleError ("Error fetching replacement image: " +:+ error).

(** What runs when the request settles; [imgElement] is the place of the
    image element in the document at that time. *)
Definition fetchReplacementImageSettled (imgElement : path) (o : fetchOutcome)
    : script unit :=
  match o with
  | NetworkError error => onReplacementError error
  | BodyNotJson error => onReplacementError error
  | Body data =>
      catch (onReplacementData imgElement data)
            (fun e => onReplacementError (exnToString e))
  end.

(** [sendReadCountRequest(postUid)] and its [catch] callback. *)
Definition sendReadCountRequest (postUid : option string) : script unit :=
  fetch ("/readcount-increment?content=post&post_uid="
           +:+ default "undefined" postUid).

Definition onReadCountError (error : string) : script unit :=
  consoleError ("Error incrementing read count: " +:+ error).
End blogpost.

(** A keyboard event; [keypress] events are cancelable, so [preventDefault]
    sets the flag. *)
Record event := {
  key : string;
  defaultPrevented : bool;
}.

Definition preventDefault (ev : event) : event :=
  {| key := key ev; defaultPrevented := true |}.

(** [preventFormEnter(event)]. *)
Definition preventFormEnter (ev : event) : event :=
  if String.eqb (key ev) "Enter" then preventDefault ev else ev.

(** *** The table of contents *)

(** [addTocLevelClass(ulElement, level)].  The loop runs over
    [ulElement.children]; a text node is not among them and stays as it is.
    For a list item the class is added to the item and the recursive call
    mutates the first [ul] below the item, when there is one. *)
Fixpoint addTocLevelClass (level : nat) (ulElement : node) {struct ulElement} : node :=
  match ulElement with
  | Text _ => ulElement
  | Element u childNodes =>
      Element u
        (map (fun item =>
           match item with
           | Text _ => item
           | Element e kids =>
               if String.eqb (toLowerCase (tagName e)) "li" then
                 Element (withClassList (classListAdd ("toclevel-" +:+ pretty level)) e)
                   match querySelector (hasTag "ul") item with
                   | Some nestedUl => alterBelow (addTocLevelClass (S level)) kids nestedUl
                   | None => kids
                   end
               else item
           end) childNodes)
  end.

(** [document.createElement("h3")] with its text set. *)
Definition newElement (tag : string) : props :=
  {| tagName := tag; classList := []; attributes := []; value := "";
     style := []; offsetWidth := 0; offsetHeight := 0 |}.

Definition tocHeading : node :=
  setTextContent "Table of Contents" (Element (newElement "H3") []).

(** [parent.insertBefore(new, parent.firstChild)]: the new node becomes the
    first child, also when there was no child. *)
Definition insertFirst (new : node) (parent : node) : node :=
  match parent with
  | Element e kids => Element e (new :: kids)
  | Text _ => parent
  end.

(** A reference below [parent], taken before [insertFirst], after it: the
    child it passes through stands one place further. *)
Definition afterInsertFirst (p : path) : path :=
  match p with
  | [] => []
  | i :: r => S i :: r
  end.

(** [setupTableOfContents()]. *)
Definition setupTableOfContents : script unit :=
  do tocContainer <- gets (fun pg => querySelector (hasClass "toc") (document pg));
  do tocContainer <- deref tocContainer;
  do container <- gets (fun pg => nodeAt tocContainer (document pg));
  let topLevelUl := container ≫= querySelector (hasTag "ul") in
  match topLevelUl with
  | Some topLevelUl =>
      let ul := container ≫= nodeAt topLevelUl in
      if (0 <? length (from_option children [] ul))%nat then
        mutate tocContainer (onProps (withClassList (classListRemove "d-none")));;
        mutate tocContainer (insertFirst tocHeading);;
        mutate (tocContainer ++ afterInsertFirst topLevelUl) (addTocLevelClass 1)
      else ret tt
  | None => ret tt
  end.

(** The statements of the script itself: the container starts hidden.
    (Syntax highlighting, [hljs], is a library of its own and left out.) *)
Definition blogpostScript : script unit :=
  do tocContainer <- gets (fun pg => querySelector (hasClass "toc") (document pg));
  do tocContainer <- deref tocContainer;
  mutate tocContainer (onProps (withClassList (classListAdd "d-none"))).

(** The [DOMContentLoaded] listener of blogpost.js. *)
Definition blogpostDOMContentLoaded : script unit :=
  do pics <- gets (fun pg => querySelectorAll (hasClass "ajax-profile-pic") (document pg));
  forEach pics fetchReplacementImage;;
  do holder <- gets (fun pg => getElementById "post-uid" (document pg));
  do holder <- deref holder;
  do holderNode <- gets (fun pg => nodeAt holder (document pg));
  let postUid :=
    match holderNode with
    | Some (Element e _) => getAttribute "data-post-uid" e
    | _ => None
    end in
  setTimeout (SendReadCountRequest postUid) 30000;;
  do commentTextarea <- gets (fun pg => getElementById "comment" (document pg));
  do commentTextarea <- deref commentTextarea;
  mutate commentTextarea (onProps (withValue ""));;
  do form <- gets (fun pg => getElementById "comment-form" (document pg));
  do form <- deref form;
  addEventListener (ElementAt form) "keypress" PreventFormEnter;;
  setupTableOfContents.

(** Loading the blog-post page: the script, then its listener. *)
Definition blogpostSetup : script unit :=
  blogpostScript;; blogpostDOMContentLoaded.

(** ** The site-wide script *)

(** Is [g] a proper ancestor of [p]? *)
Fixpoint isStrictPrefix (g p : path) : bool :=
  match g, p with
  | [], [] => false
  | [], _ :: _ => true
  | _ :: _, [] => false
  | i :: g', j :: p' => Nat.eqb i j && isStrictPrefix g' p'
  end.

(** [elements.forEach(body)] over the static list [querySelectorAll] returned,
    for a body that reads and writes only the element it is given and says
    whether it replaced the element's children.  The list is in document
    order, so an element below one whose children were replaced earlier in
    the loop is out of the document by the time its turn comes: the body
    then works on a detached element and the page does not change. *)
Fixpoint forEachElement (elements gone : list path) (body : path -> script bool)
    : script unit :=
  match elements with
  | [] => ret tt
  | element :: rest =>
      if existsb (fun g => isStrictPrefix g element) gone then
        forEachElement rest gone body
      else
        do replaced <- body element;
        forEachElement rest (if replaced : bool then element :: gone else gone) body
  end.

Section site.
Variable H : host.

(** Timers fire later; [runTask] is what a timer does then.
    [handleNotification()] only starts the first one. *)
Definition handleNotification : script unit :=
  setTimeout FadeNotification 3000.

(** [updateCurrentYear()]. *)
Definition updateCurrentYear : script unit :=
  let currentYear := currentYear H in
  do yearTag <- gets (fun pg => getElementById "yearTag" (document pg));
  match yearTag with
  | Some yearTag =>
      mutate yearTag (fun n =>
        match n with
        | Element e _ => Element e (parseHTML H (numberToString H currentYear))
        | Text _ => n
        end)
  | None => ret tt
  end;;
  do yearTagMobile <- gets (fun pg => getElementById "yearTagMobile" (document pg));
  match yearTagMobile with
  | Some yearTagMobile =>
      mutate yearTagMobile (fun n =>
        match n with
        | Element e _ => Element e (parseHTML H (numberToString H currentYear))
        | Text _ => n
        end)
  | None => ret tt
  end.

(** *** Dates *)

(** A [Date] is its time value: milliseconds since the epoch, or NaN for
    an invalid date.  The three [toLocale...String] methods answer
    ["Invalid Date"] for NaN and format otherwise, after filling in
    defaults when the options name no field of the kind they require. *)
Definition noOptions : dateTimeOptions :=
  {| timeZone := None; year := None; month := None; day := None;
     hour := None; minute := None; second := None; hour12 := None |}.

Definition namesDate (o : dateTimeOptions) : bool :=
  bool_decide (is_Some (year o)) || bool_decide (is_Some (month o))
  || bool_decide (is_Some (day o)).

Definition namesTime (o : dateTimeOptions) : bool :=
  bool_decide (is_Some (hour o)) || bool_decide (is_Some (minute o))
  || bool_decide (is_Some (second o)).

Definition withDateDefaults (o : dateTimeOptions) : dateTimeOptions :=
  {| timeZone := timeZone o; year := Some "numeric"; month := Some "numeric";
     day := Some "numeric"; hour := hour o; minute := minute o;
     second := second o; hour12 := hour12 o |}.

Definition withTimeDefaults (o : dateTimeOptions) : dateTimeOptions :=
  {| timeZone := timeZone o; year := year o; month := month o; day := day o;
     hour := Some "numeric"; minute := Some "numeric";
     second := Some "numeric"; hour12 := hour12 o |}.

Definition toLocaleDateString (date : float) (locale : string)
    (o : dateTimeOptions) : string :=
  if isNaN date then "Invalid Date"
  else formatDateTime H locale (if namesDate o then o else withDateDefaults o) date.

Definition toLocaleTimeString (date : float) (locale : string)
    (o : dateTimeOptions) : string :=
  if isNaN date then "Invalid Date"
  else formatDateTime H locale (if namesTime o then o else withTimeDefaults o) date.

Definition toLocaleString (date : float) (locale : string)
    (o : dateTimeOptions) : string :=
  if isNaN date then "Invalid Date"
  else formatDateTime H locale
         (if namesDate o || namesTime o then o
          else withTimeDefaults (withDateDefaults o)) date.

(** *** convertUTCToLocal *)

(** [formatSettings[className]]; [Object.keys(formatSettings)] lists the
    three class names in the order they are written. *)
Definition formatSettings (timezone : string) : list (string * dateTimeOptions) :=
  [ ("utc-to-local-long",
     {| timeZone := Some timezone; year := Some "numeric"; month := Some "2-digit";
        day := Some "2-digit"; hour := Some "2-digit"; minute := Some "2-digit";
        second := Some "2-digit"; hour12 := Some false |});
    ("utc-to-local-medium",
     {| timeZone := Some timezone; year := Some "numeric"; month := Some "2-digit";
        day := Some "2-digit"; hour := None; minute := None; second := None;
        hour12 := None |});
    ("utc-to-local-short",
     {| timeZone := Some timezone; year := Some "numeric"; month := Some "long";
        day := Some "numeric"; hour := None; minute := None; second := None;
        hour12 := None |}) ].

Definition optionsDate (timezone : string) : dateTimeOptions :=
  {| timeZone := Some timezone; year := Some "numeric"; month := Some "2-digit";
     day := Some "2-digit"; hour := None; minute := None; second := None;
     hour12 := None |}.

Definition optionsTime (timezone : string) : dateTimeOptions :=
  {| timeZone := Some timezone; year := None; month := None; day := None;
     hour := Some "2-digit"; minute := Some "2-digit"; second := Some "2-digit";
     hour12 := Some false |}.

(** The body of the inner [forEach]: what one element of class
    [className] becomes. *)
Definition localizeElement (timezone className : string) (element : node) : node :=
  let utcDateString := trim H (textContent element) in
  let date := dateTimeValue H utcDateString in
  if String.eqb className "utc-to-local-long" then
    let localDate := toLocaleDateString date "en-CA" (optionsDate timezone) in
    let localTime := toLocaleTimeString date "en-CA" (optionsTime timezone) in
    setTextContent (localDate +:+ " " +:+ localTime) element
  else
    let localDateString :=
      toLocaleString date "en-CA"
        (default noOptions (assocGet className (formatSettings timezone))) in
    setTextContent localDateString element.

(** [convertUTCToLocal()]. *)
Definition convertUTCToLocal : script unit :=
  let timezone := resolvedTimeZone H in
  forEach (map fst (formatSettings timezone)) (fun className =>
    do elements <- gets (fun pg => querySelectorAll (hasClass className) (document pg));
    forEachElement elements [] (fun element =>
      mutate element (localizeElement timezone className);; ret true)).

(** *** formatCounts *)

(** The body of the [forEach]: the element after it, and whether its
    [innerHTML] was assigned. *)
Definition formatCount (element : node) : node * bool :=
  match element with
  | Element e kids =>
      let number := parseFloat H (serializeHTML H kids) in
      if negb (isNaN number) then
        (Element e (parseHTML H (numberToLocaleString H number)), true)
      else (element, false)
  | Text _ => (element, false)
  end.

(** [formatCounts()]. *)
Definition formatCounts : script unit :=
  do elements <- gets (fun pg => querySelectorAll (hasClass "count") (document pg));
  forEachElement elements [] (fun element =>
    do before <- gets (fun pg => nodeAt element (document pg));
    mutate element (fun n => fst (formatCount n));;
    ret (from_option (fun n => snd (formatCount n)) false before)).

(** *** The layout sizers *)

(** [el ? el.offsetHeight : 0] for the first element of class [c]. *)
Definition heightOf (c : string) (doc : node) : Z :=
  match querySelector (hasClass c) doc ≫= (fun p => nodeAt p doc) with
  | Some (Element e _) => offsetHeight e
  | _ => 0
  end.

(** [setContentMinHeight()]. *)
Definition setContentMinHeight : script unit :=
  do navbarHeight <- gets (fun pg => heightOf "navbar" (document pg));
  do coverHeight <- gets (fun pg => heightOf "cover" (document pg));
  do bottomNavHeight <- gets (fun pg => heightOf "bottom-nav" (document pg));
  do footerHeight <- gets (fun pg => heightOf "footer" (document pg));
  let totalHeights := (navbarHeight + coverHeight + bottomNavHeight + footerHeight)%Z in
  do content <- gets (fun pg => querySelector (hasClass "content") (document pg));
  do content <- deref content;
  mutate content (onProps (setStyle "minHeight" (CalcVhMinusPx 102 totalHeights))).

(** [setCoverHeight()]. *)
Definition setCoverHeight : script unit :=
  do cover <- gets (fun pg => querySelector (hasClass "cover") (document pg));
  do cover <- deref cover;
  do coverNode <- gets (fun pg => nodeAt cover (document pg));
  let width :=
    match coverNode with
    | Some (Element e _) => numberOfLong (offsetWidth e)
    | _ => 0%float
    end in
  mutate cover (onProps (setStyle "height" (Px ((9 / 21) * width)%float))).

(** The [DOMContentLoaded] listener of the site-wide script. *)
Definition siteDOMContentLoaded : script unit :=
  handleNotification;;
  updateCurrentYear;;
  convertUTCToLocal;;
  formatCounts;;
  setCoverHeight;;
  setContentMinHeight;;
  addEventListener Window "resize" SetCoverHeight;;
  addEventListener Window "resize" SetContentMinHeight.

(** *** Events and timers *)

(** A listener's callback on an event.  An exception of a listener is
    reported on the console and the dispatch goes on. *)
Definition runCallback (cb : callback) (ev : event) : script event :=
  match cb with
  | PreventFormEnter => ret (preventFormEnter ev)
  | SetCoverHeight => setCoverHeight;; ret ev
  | SetContentMinHeight => setContentMinHeight;; ret ev
  end.

Definition reported (cb : callback) (ev : event) : script event :=
  fun pg =>
    match runCallback cb ev pg with
    | (Raise e, pg') =>
        (Return ev, withConsole (fun l => l ++ ["Uncaught " +:+ exnToString e]) pg')
    | r => r
    end.

Fixpoint runListeners (ls : list listener) (tg : eventTarget) (type : string)
    (ev : event) : script event :=
  match ls with
  | [] => ret ev
  | l :: rest =>
      if sameTarget (target l) tg && String.eqb (eventType l) type then
        do ev' <- reported (handler l) ev;
        runListeners rest tg type ev'
      else runListeners rest tg type ev
  end.

(** [tg.dispatchEvent(ev)] for an event of type [type]: the listeners
    registered on [tg] for that type run in the order they were added. *)
Definition dispatchEvent (tg : eventTarget) (type : string) (ev : event)
    : script event :=
  do ls <- gets listeners;
  runListeners ls tg type ev.

(** A timer fires. *)
Definition runTask (t : task) : script unit :=
  match t with
  | SendReadCountRequest postUid => sendReadCountRequest postUid
  | FadeNotification =>
      do notification <- gets (fun pg => getElementById "notification" (document pg));
      match notification with
      | Some notification =>
          mutate notification (onProps (setStyle "opacity" (Keyword "0")));;
          setTimeout (HideNotification notification) 300
      | None => ret tt
      end
  | HideNotification notification =>
      mutate notification (onProps (setStyle "display" (Keyword "none")))
  end.
End site.

(** * Notions used in the statements *)

(** The matches below a run of siblings of which the first stands at
    index [i]: the inner loop of [querySelectorAll]. *)
Definition selectBelow (sel : node -> bool) : list node -> nat -> list path :=
  fix below (l : list node) (i : nat) {struct l} : list path :=
    match l with
    | [] => []
    | k :: r =>
        (if sel k then [[i]] else [])
          ++ map (cons i) (querySelectorAll sel k)
          ++ below r (S i)
    end.

(** A selector that looks at the element's own properties only, as class,
    type and id selectors do. *)
Definition propsOnly (sel : node -> bool) : Prop :=
  forall e kids kids', sel (Element e kids) = sel (Element e kids').

(** What [querySelectorAll] lists: the non-empty paths to matching nodes. *)
Definition leadsToMatch (sel : node -> bool) (n : node) (q : path) : Prop :=
  q <> [] /\ exists x, nodeAt q n = Some x /\ sel x = true.


(** Two pages that differ in their requests only, and in their document
    only. *)
Definition sameButRequests (pg pg' : page) : Prop :=
  document pg' = document pg /\ console pg' = console pg
  /\ timers pg' = timers pg /\ listeners pg' = listeners pg.

Definition sameButDocument (pg pg' : page) : Prop :=
  console pg' = console pg /\ requests pg' = requests pg
  /\ timers pg' = timers pg /\ listeners pg' = listeners pg.

(** A listener that is [preventFormEnter], registered for events of type
    [type] on [tg]. *)
Definition isPreventFormEnter (cb : callback) : bool :=
  match cb with PreventFormEnter => true | _ => false end.

Definition listensFor (tg : eventTarget) (type : string) (l : listener) : bool :=
  sameTarget (target l) tg && String.eqb (eventType l) type.

(** ** A sample page *)

(** A host with canned answers, for running the scripts on examples. *)
Definition sampleHost : host :=
  {| numberToString := fun _ => "2024";
     resolvedTimeZone := "Asia/Taipei";
     dateTimeValue := fun s =>
       if String.eqb s "2024-01-02T03:04:05Z" then 1704164645000%float
       else PrimFloat.nan;
     formatDateTime := fun _ o _ =>
       match hour o, month o with
       | Some _, None => "11:04:05"
       | _, Some "long" => "January 2, 2024"
       | _, _ => "2024-01-02"
       end;
     trim := fun s =>
       match s with
       | String " " r => r
       | _ => s
       end;
     parseFloat := fun s =>
       if String.eqb s "12345" then 12345%float else PrimFloat.nan;
     numberToLocaleString := fun _ => "12,345";
     serializeHTML := fun kids =>
       match kids with
       | [Text s] => s
       | _ => "<i></i>"
       end;
     parseHTML := fun s => [Text s];
     currentYear := 2024%float |}.

Definition elem (tag : string) (cls : list string) (attrs : list (string * string))
    (kids : list node) : node :=
  Element {| tagName := tag; classList := cls; attributes := attrs; value := "";
             style := []; offsetWidth := 0; offsetHeight := 0 |} kids.

Definition box (w h : Z) (n : node) : node :=
  match n with
  | Element e kids =>
      Element {| tagName := tagName e; classList := classList e;
                 attributes := attributes e; value := value e; style := style e;
                 offsetWidth := w; offsetHeight := h |} kids
  | Text _ => n
  end.

(** A list item with two lists of its own: the first holds one item with a
    list, the second one item. *)
Definition sampleList : node :=
  elem "UL" [] []
    [ elem "LI" [] []
        [ Text "Intro";
          elem "UL" [] []
            [ elem "LI" [] [] [Text "Why"; elem "UL" [] [] [elem "LI" [] [] [Text "How"]]] ];
          elem "UL" [] [] [ elem "LI" [] [] [Text "More"] ] ];
      elem "LI" [] [] [Text "Outro"] ].

Definition sampleBody (toc : list node) : node :=
  elem "BODY" [] []
    [ box 1200 56 (elem "NAV" ["navbar"] [] []);
      box 2100 900 (elem "DIV" ["cover"] [] []);
      elem "DIV" ["content"] []
        [ elem "SPAN" ["utc-to-local-long"] [] [Text " 2024-01-02T03:04:05Z"];
          elem "SPAN" ["utc-to-local-medium"] [] [Text "2024-01-02T03:04:05Z"];
          elem "SPAN" ["utc-to-local-short"] [] [Text "yesterday"];
          elem "SPAN" ["count"] [] [Text "12345"];
          elem "SPAN" ["count"] [] [Text "many"];
          elem "DIV" ["toc"] [] toc;
          elem "IMG" ["ajax-profile-pic"] [("src", "/avatar?u=1")] [];
          elem "P" [] [("id", "post-uid"); ("data-post-uid", "42")] [];
          elem "FORM" [] [("id", "comment-form")]
            [ elem "TEXTAREA" [] [("id", "comment")] [] ] ];
      box 1200 40 (elem "FOOTER" ["footer"] [] []) ].

Definition pageOf (doc : node) : page :=
  {| document := doc; console := []; requests := []; timers := []; listeners := [] |}.

Definition samplePage : page :=
  pageOf (elem "#document" [] [] [elem "HTML" [] [] [sampleBody [sampleList]]]).

(** The same page without the element of class [toc]. *)
Definition pageWithoutToc : page :=
  pageOf (elem "#document" [] [] [elem "HTML" [] [] [elem "BODY" [] [] []]]).

(** The properties of the element at a path. *)
Definition propsAt (p : path) (n : node) : option props :=
  nodeAt p n ≫= fun x =>
    match x with
    | Element e _ => Some e
    | Text _ => None
    end.

(** A page without the elements the scripts look up by id, and one with a
    [toc] container that holds no list. *)
Definition pageWithoutHolder : page :=
  pageOf (elem "#document" [] [] [elem "DIV" ["toc"] [] []]).

Definition pageWithoutTextarea : page :=
  pageOf (elem "#document" [] []
            [elem "DIV" ["toc"] [] []; elem "P" [] [("id", "post-uid")] []]).

Definition pageWithoutChrome : page :=
  pageOf (elem "#document" [] []
            [elem "DIV" ["toc"] [] [Text "no headings"]; elem "DIV" ["content"] [] []]).

(** A node without what the browser and the user put on it after parsing:
    form values and inline styles.  Tags, classes, attributes and the tree
    itself stay. *)
Definition skeletonProps (e : props) : props :=
  {| tagName := tagName e; classList := classList e; attributes := attributes e;
     value := ""; style := []; offsetWidth := offsetWidth e;
     offsetHeight := offsetHeight e |}.

Fixpoint skeleton (n : node) : node :=
  match n with
  | Text s => Text s
  | Element e kids => Element (skeletonProps e) (map skeleton kids)
  end.

(** The container's top-level list: the first [ul] below it. *)
Definition topLevelList (container : node) : option node :=
  querySelector (hasTag "ul") container ≫= fun q => nodeAt q container.

(** Is the container hidden? *)
Definition hidden (container : node) : bool := hasClass "d-none" container.

(** What [setupTableOfContents] makes of the container, its three
    mutations taken together. *)
Definition builtToc (container : node) : node :=
  match container with
  | Element e kids =>
      match querySelector (hasTag "ul") container with
      | Some topLevelUl =>
          if (0 <? length (from_option children [] (nodeAt topLevelUl container)))%nat
          then Element (withClassList (classListRemove "d-none") e)
                 (tocHeading :: alterBelow (addTocLevelClass 1) kids topLevelUl)
          else container
      | None => container
      end
  | Text _ => container
  end.

(** ** Nesting depth of list items *)

(** The body of the loop of [addTocLevelClass]: what an item becomes. *)
Definition tagItem (level : nat) (item : node) : node :=
  match item with
  | Text _ => item
  | Element e kids =>
      if String.eqb (toLowerCase (tagName e)) "li" then
        Element (withClassList (classListAdd ("toclevel-" +:+ pretty level)) e)
          match querySelector (hasTag "ul") item with
          | Some nestedUl => alterBelow (addTocLevelClass (S level)) kids nestedUl
          | None => kids
          end
      else item
  end.

(** The structural nesting depth of the list item at [p] below [n]: the
    number of [ul] elements on the way from [n] to the item, [n] included.
    It is defined when [p] leads to an [li] whose parent is a [ul]; an item
    of the list [n] itself has depth 1. *)
Fixpoint itemDepth (n : node) (p : path) : option nat :=
  match p, n with
  | [i], Element _ kids =>
      item ← kids !! i;
      if hasTag "ul" n && hasTag "li" item then Some 1%nat else None
  | i :: r, Element _ kids =>
      k ← kids !! i;
      d ← itemDepth k r;
      Some (if hasTag "ul" n then S d else d)
  | _, _ => None
  end.

Fixpoint stripPrefix (q p : path) : option path :=
  match q, p with
  | [], _ => Some p
  | i :: q', j :: p' => if Nat.eqb i j then stripPrefix q' p' else None
  | _ :: _, [] => None
  end.

(** The list items in the first lists: the items of the list [ul] and, for
    each of them, the items in the first lists of the first [ul] (in
    document order) below it.  [fuel] bounds the number of lists passed; the
    length of the path is enough. *)
Fixpoint inFirstListsWithin (fuel : nat) (ul : node) (p : path) : bool :=
  match fuel, p, ul with
  | S fuel', i :: rest, Element _ items =>
      match items !! i with
      | Some item =>
          hasTag "li" item &&
          match rest with
          | [] => true
          | _ :: _ =>
              match querySelector (hasTag "ul") item with
              | Some nestedUl =>
                  match stripPrefix nestedUl rest, nodeAt nestedUl item with
                  | Some p', Some nested => inFirstListsWithin fuel' nested p'
                  | _, _ => false
                  end
              | None => false
              end
          end
      | None => false
      end
  | _, _, _ => false
  end.

Definition inFirstLists (ul : node) (p : path) : bool :=
  inFirstListsWithin (length p) ul p.

(** Does the element at [p] carry the class [c]? *)
Definition classAt (c : string) (p : path) (n : node) : bool :=
  from_option (hasClass c) false (nodeAt p n).

(** ** Elements that hold a date or a count *)

Definition timeClassNames : list string :=
  ["utc-to-local-long"; "utc-to-local-medium"; "utc-to-local-short"].

(** The time classes an element carries, and whether it carries one. *)
Definition timeClassesOf (e : props) : list string :=
  filter (fun c => c ∈ classList e) timeClassNames.

Definition isTimeElement (n : node) : bool :=
  existsb (fun c => hasClass c n) timeClassNames.

(** No element of the list lies inside another one. *)
Definition noneNested (l : list path) : bool :=
  forallb (fun g => forallb (fun p => negb (isStrictPrefix g p)) l) l.

(** The document after the body [f] ran on each element of the list. *)
Definition afterEach (f : node -> node) (l : list path) (doc : node) : node :=
  foldl (fun d element => alterAt f d element) doc l.

(** One round of the outer loop of [convertUTCToLocal]: the elements of
    class [className]. *)
Definition timePass (H : host) (className : string) : script unit :=
  do elements <- gets (fun pg => querySelectorAll (hasClass className) (document pg));
  forEachElement elements [] (fun element =>
    mutate element (localizeElement H (resolvedTimeZone H) className);; ret true).

(** ** The cover's aspect ratio *)

(** The page has a cover and its [height] is [(9 / 21) * offsetWidth]
    pixels. *)
Definition coverRatio (pg : page) : Prop :=
  exists cover e,
    querySelector (hasClass "cover") (document pg) = Some cover
    /\ propsAt cover (document pg) = Some e
    /\ assocGet "height" (style e)
       = Some (Px ((9 / 21) * numberOfLong (offsetWidth e))%float).

(** Is [l] the cover sizer, listening for [resize] on the window? *)
Definition isCoverSizer (l : listener) : bool :=
  listensFor Window "resize" l
  && match handler l with SetCoverHeight => true | _ => false end.

(** A run that registers no listener. *)
Definition keepsListeners {A} (s : script A) : Prop :=
  forall pg, listeners (snd (s pg)) = listeners pg.

(** ** Markup of a generated table of contents *)

(** A node with no [ul] at or below it. *)
Fixpoint listFree (n : node) : bool :=
  match n with
  | Text _ => true
  | Element e kids =>
      negb (String.eqb (toLowerCase (tagName e)) "ul") && forallb listFree kids
  end.

(** A list as a table-of-contents generator writes it: its children are
    list items (and text), and an item holds at most one list, as a child,
    which is such a list again. *)
Fixpoint tocShaped (ul : node) : bool :=
  match ul with
  | Text _ => false
  | Element _ items =>
      forallb (fun item =>
        match item with
        | Text _ => true
        | Element e kids =>
            String.eqb (toLowerCase (tagName e)) "li"
            && (fix oneList (l : list node) : bool :=
                  match l with
                  | [] => true
                  | k :: r =>
                      if hasTag "ul" k then tocShaped k && forallb listFree r
                      else listFree k && oneList r
                  end) kids
        end) items
  end.

(** The children of an item of such a list. *)
Definition oneList : list node -> bool :=
  fix oneList (l : list node) : bool :=
    match l with
    | [] => true
    | k :: r =>
        if hasTag "ul" k then tocShaped k && forallb listFree r
        else listFree k && oneList r
    end.

(** * Further notions *)

(** A node with every class list emptied: what is left is the tree, the
    tags, the attributes, the values, the styles and the texts. *)
Fixpoint withoutClasses (n : node) : node :=
  match n with
  | Text s => Text s
  | Element e kids =>
      Element (withClassList (fun _ => []) e) (map withoutClasses kids)
  end.

(** The URL [fetchReplacementImage] asks for: the [src] of the element at
    [p], or ["null"] without one. *)
Definition srcAt (doc : node) (p : path) : string :=
  default "null" (propsAt p doc ≫= getAttribute "src").

(** Child nodes among which there is no element. *)
Definition textOnly (kids : list node) : Prop :=
  Forall (fun k => isElement k = false) kids.

(** A body of a loop that keeps the element's properties and either keeps
    its children or replaces them by nodes that are no elements. *)
Definition rewritesText (f : node -> node) : Prop :=
  forall x,
    match x with
    | Element e kids =>
        exists kids', f x = Element e kids' /\ (kids' = kids \/ textOnly kids')
    | Text _ => isElement (f x) = false
    end.

(** A host whose number strings parse as text: no markup comes out of the
    [innerHTML] setter when it is given a number's string. *)
Definition printsText (H : host) : Prop :=
  forall x, textOnly (parseHTML H (numberToString H x))
            /\ textOnly (parseHTML H (numberToLocaleString H x)).

(** What the rounds of [convertUTCToLocal] make of an element, one after
    the other: a round rewrites it when it carries the round's class. *)
Definition localizedInTurn (H : host) (x : node) : node :=
  foldl (fun y className =>
           if hasClass className y
           then localizeElement H (resolvedTimeZone H) className y else y)
    x timeClassNames.

(** Has the container a top-level list with a child element? *)
Definition hasItems (container : node) : bool :=
  (0 <? length (from_option children [] (topLevelList container)))%nat.

(** The page after the first steps of the listener of blogpost.js: the
    requests for the profile pictures; then the timer for the read count;
    then the cleared textarea. *)
Definition afterPictures (pg : page) : page :=
  withRequests
    (fun l => l ++ map (srcAt (document pg))
                     (querySelectorAll (hasClass "ajax-profile-pic") (document pg)))
    pg.

Definition readCountTimer (pg : page) (holder : path) : task * Z :=
  (SendReadCountRequest (propsAt holder (document pg) ≫= getAttribute "data-post-uid"),
   30000%Z).

Definition afterTimer (pg : page) (holder : path) : page :=
  withTimers (fun l => l ++ [readCountTimer pg holder]) (afterPictures pg).

Definition afterTextarea (pg : page) (holder area : path) : page :=
  withDocument (fun d => alterAt (onProps (withValue "")) d area) (afterTimer pg holder).

(** The [innerHTML] setter, once the string is parsed: the element with
    new child nodes. *)
Definition withChildren (kids : list node) (n : node) : node :=
  match n with
  | Element e _ => Element e kids
  | Text _ => n
  end.

(** The nodes [updateCurrentYear] puts into the year tags. *)
Definition yearNodes (H : host) : list node :=
  parseHTML H (numberToString H (currentYear H)).

(** ** The content's minimum height *)

(** The heights the content sizer subtracts: an element that is not there
    counts 0. *)
Definition chromeHeight (doc : node) : Z :=
  (heightOf "navbar" doc + heightOf "cover" doc
   + heightOf "bottom-nav" doc + heightOf "footer" doc)%Z.

(** The page has a content container and its [minHeight] is
    [calc(102vh - chromeHeight px)]. *)
Definition contentRule (pg : page) : Prop :=
  exists content e,
    querySelector (hasClass "content") (document pg) = Some content
    /\ propsAt content (document pg) = Some e
    /\ assocGet "minHeight" (style e)
       = Some (CalcVhMinusPx 102 (chromeHeight (document pg))).

(** Is [l] the content sizer, listening for [resize] on the window? *)
Definition isContentSizer (l : listener) : bool :=
  listensFor Window "resize" l
  && match handler l with SetContentMinHeight => true | _ => false end.

(** ** Steps that rewrite text *)

(** A step that completes on every page, changes the document only, and
    makes no new match of the selector. *)
Definition rewriting (sel : node -> bool) (s : script unit) : Prop :=
  forall pg,
    fst (s pg) = Return tt
    /\ sameButDocument pg (snd (s pg))
    /\ forall r, r ∈ querySelectorAll sel (document (snd (s pg))) ->
                 r ∈ querySelectorAll sel (document pg).

(** The elements whose content the listener of the site-wide script
    rewrites: the year tags, the time elements and the count elements. *)
Definition rewrittenElements (doc : node) : list path :=
  querySelectorAll (hasId "yearTag") doc
  ++ querySelectorAll (hasId "yearTagMobile") doc
  ++ querySelectorAll isTimeElement doc
  ++ querySelectorAll (hasClass "count") doc.

(** ** A generated table of contents *)

(** A list as a generator writes it, three levels deep, and the sample
    page with it in the container. *)
Definition generatedList : node :=
  elem "UL" [] []
    [ elem "LI" [] []
        [ elem "A" [] [("href", "#intro")] [Text "Intro"];
          elem "UL" [] []
            [ elem "LI" [] []
                [ elem "A" [] [("href", "#why")] [Text "Why"];
                  elem "UL" [] [] [ elem "LI" [] [] [Text "How"] ] ];
              elem "LI" [] [] [Text "More"] ] ];
      elem "LI" [] [] [Text "Outro"] ].

Definition generatedPage : page :=
  pageOf (elem "#document" [] [] [elem "HTML" [] [] [sampleBody [generatedList]]]).
(** * Properties *)

(** ** Paths: following and rebuilding *)

Lemma alterAt_nil f n : alterAt f n [] = f n.
Proof. by destruct n. Qed.

Lemma alterAt_cons f e kids i p :
  alterAt f (Element e kids) (i :: p) = Element e (alter (fun k => alterAt f k p) i kids).
Proof. reflexivity. Qed.

Lemma alterAt_text f s p : p <> [] -> alterAt f (Text s) p = Text s.
Proof. by destruct p. Qed.

Lemma nodeAt_app p q n : nodeAt (p ++ q) n = nodeAt p n ≫= nodeAt q.
Proof.
  revert n; induction p as [|i p IH]; intros n; [done|].
  destruct n as [e kids|s]; simpl; [|done].
  destruct (kids !! i) as [k|]; simpl; [apply IH|done].
Qed.

(** The node a mutation was aimed at holds the mutated node afterwards. *)
Lemma nodeAt_alterAt f p n : nodeAt p (alterAt f n p) = f <$> nodeAt p n.
Proof.
  revert n; induction p as [|i p IH]; intros n; [by rewrite alterAt_nil|].
  destruct n as [e kids|s]; [|done].
  rewrite alterAt_cons; simpl.
  rewrite list_lookup_alter_eq.
  destruct (kids !! i) as [k|]; simpl; [apply IH|done].
Qed.

(** A mutation elsewhere is not seen: neither path leads through the other. *)
Lemma nodeAt_alterAt_apart f p q n :
  ¬ p `prefix_of` q -> ¬ q `prefix_of` p -> nodeAt q (alterAt f n p) = nodeAt q n.
Proof.
  revert q n; induction p as [|i p IH]; intros q n Hpq Hqp.
  { destruct Hpq. apply prefix_nil. }
  destruct q as [|j q]; [destruct Hqp; apply prefix_nil|].
  destruct n as [e kids|s]; [|done].
  rewrite alterAt_cons; simpl.
  destruct (decide (i = j)) as [->|Hij].
  - rewrite list_lookup_alter_eq.
    destruct (kids !! j) as [k|]; simpl; [|done].
    apply IH; intros Hpre.
    + apply Hpq. by apply prefix_cons.
    + apply Hqp. by apply prefix_cons.
  - by rewrite list_lookup_alter_ne.
Qed.

Lemma alterAt_app f p q n :
  alterAt f n (p ++ q) = alterAt (fun x => alterAt f x q) n p.
Proof.
  revert n; induction p as [|i p IH]; intros n.
  { by rewrite alterAt_nil. }
  destruct n as [e kids|s]; [|done].
  simpl app. rewrite !alterAt_cons. f_equal.
  apply list_alter_ext; [|done]. intros k _. apply IH.
Qed.

Lemma alterAt_compose f g p n :
  alterAt g (alterAt f n p) p = alterAt (fun x => g (f x)) n p.
Proof.
  revert n; induction p as [|i p IH]; intros n; [by rewrite !alterAt_nil|].
  destruct n as [e kids|s]; [|done].
  rewrite !alterAt_cons. f_equal.
  rewrite list_alter_alter_eq.
  apply list_alter_ext; [|done]. intros k _. apply IH.
Qed.

Lemma alterAt_ext f g p n :
  (forall x, f x = g x) -> alterAt f n p = alterAt g n p.
Proof.
  intros Hfg. revert n; induction p as [|i p IH]; intros n;
    [rewrite !alterAt_nil; apply Hfg|].
  destruct n as [e kids|s]; [|done].
  rewrite !alterAt_cons. f_equal.
  apply list_alter_ext; [|done]. intros k _. apply IH.
Qed.

(** ** Association lists *)

Lemma assocGet_assocSet {A} k (v : A) l : assocGet k (assocSet k v l) = Some v.
Proof.
  induction l as [|[k' v'] l IH]; simpl.
  - by rewrite String.eqb_refl.
  - destruct (String.eqb k k') eqn:E; simpl.
    + by rewrite String.eqb_refl.
    + by rewrite E.
Qed.

Lemma assocGet_assocSet_ne {A} k k' (v : A) l :
  k' <> k -> assocGet k' (assocSet k v l) = assocGet k' l.
Proof.
  intros Hne. induction l as [|[k0 v0] l IH]; simpl.
  - destruct (String.eqb k' k) eqn:E; [|done].
    by apply String.eqb_eq in E.
  - destruct (String.eqb k k0) eqn:E; simpl.
    + apply String.eqb_eq in E as <-.
      destruct (String.eqb k' k) eqn:E'; [|done].
      by apply String.eqb_eq in E'.
    + by rewrite IH.
Qed.

(** ** Selecting *)

Lemma querySelectorAll_element sel e kids :
  querySelectorAll sel (Element e kids) = selectBelow sel kids 0.
Proof. reflexivity. Qed.

Lemma selectBelow_cons sel k r i :
  selectBelow sel (k :: r) i =
    (if sel k then [[i]] else [])
      ++ map (cons i) (querySelectorAll sel k) ++ selectBelow sel r (S i).
Proof. reflexivity. Qed.

Lemma hasClass_propsOnly c : propsOnly (hasClass c).
Proof. by intros e kids kids'. Qed.

Lemma hasTag_propsOnly t : propsOnly (hasTag t).
Proof. by intros e kids kids'. Qed.

Lemma hasId_propsOnly i : propsOnly (hasId i).
Proof. by intros e kids kids'. Qed.

Lemma selectBelow_alter sel h kids i b :
  (forall k, kids !! i = Some k ->
     sel (h k) = sel k /\ querySelectorAll sel (h k) = querySelectorAll sel k) ->
  selectBelow sel (alter h i kids) b = selectBelow sel kids b.
Proof.
  revert i b; induction kids as [|k r IH]; intros i b Hk; [done|].
  destruct i as [|i].
  - change (alter h 0%nat (k :: r)) with (h k :: r).
    rewrite !selectBelow_cons.
    destruct (Hk k eq_refl) as [-> ->]. done.
  - change (alter h (S i) (k :: r)) with (k :: alter h i r).
    rewrite !selectBelow_cons, IH; [done|]. intros k' Hk'. by apply Hk.
Qed.

(** A mutation that keeps what the selector sees, at the node and below it,
    keeps the selection. *)
Lemma querySelectorAll_alterAt sel f p n :
  propsOnly sel ->
  (forall x, nodeAt p n = Some x ->
     sel (f x) = sel x /\ querySelectorAll sel (f x) = querySelectorAll sel x) ->
  sel (alterAt f n p) = sel n
  /\ querySelectorAll sel (alterAt f n p) = querySelectorAll sel n.
Proof.
  intros Hsel. revert n; induction p as [|i p IH]; intros n Hx.
  { rewrite alterAt_nil. by apply Hx. }
  destruct n as [e kids|s]; [|done].
  rewrite alterAt_cons. split; [apply Hsel|].
  rewrite !querySelectorAll_element.
  apply selectBelow_alter. intros k Hk. apply IH.
  intros x Hxk. apply Hx. simpl. by rewrite Hk.
Qed.

Lemma querySelectorAll_onProps sel g p n :
  propsOnly sel ->
  (forall e kids, sel (Element (g e) kids) = sel (Element e kids)) ->
  querySelectorAll sel (alterAt (onProps g) n p) = querySelectorAll sel n.
Proof.
  intros Hsel Hg. apply querySelectorAll_alterAt; [done|].
  intros [e kids|s] _; [|done]. split; [apply Hg|done].
Qed.

Lemma elem_of_selectBelow_with sel l b q :
  Forall (fun k => forall q', q' ∈ querySelectorAll sel k <-> leadsToMatch sel k q') l ->
  q ∈ selectBelow sel l b <->
  exists j r k x, q = (b + j)%nat :: r /\ l !! j = Some k
                  /\ nodeAt r k = Some x /\ sel x = true.
Proof.
  intros Hall. revert b. induction Hall as [|k rest Hk _ IH]; intros b.
  { split; [by intros ?%elem_of_nil|by intros (j&r&k&x&_&?&_)]. }
  rewrite selectBelow_cons, !elem_of_app, IH, list_elem_of_fmap. split.
  - intros [Hq|[(q'&->&Hq')|(j&r&k'&x&->&Hj&Hx&Hs)]].
    + destruct (sel k) eqn:Es; [|by apply elem_of_nil in Hq].
      apply list_elem_of_singleton in Hq as ->.
      exists 0%nat, [], k, k. by rewrite Nat.add_0_r.
    + apply Hk in Hq' as [_ (x&Hx&Hs)].
      exists 0%nat, q', k, x. by rewrite Nat.add_0_r.
    + exists (S j), r, k', x. split_and!; [f_equal; lia|done..].
  - intros (j&r&k'&x&->&Hj&Hx&Hs). destruct j as [|j].
    + simplify_eq/=. rewrite Nat.add_0_r. destruct r as [|i r].
      * left. simplify_eq/=. rewrite Hs. by apply list_elem_of_singleton.
      * right; left. exists (i :: r). split; [done|]. apply Hk. split; [done|eauto].
    + right; right. exists j, r, k', x. split_and!; [f_equal; lia|done..].
Qed.

Lemma elem_of_querySelectorAll sel n q :
  q ∈ querySelectorAll sel n <-> leadsToMatch sel n q.
Proof.
  revert q. induction n as [s|e kids IH] using node_forall_ind; intros q.
  { split; [by intros ?%elem_of_nil|]. intros [Hne (x&Hx&_)]. by destruct q. }
  rewrite querySelectorAll_element, (elem_of_selectBelow_with _ _ _ _ IH). split.
  - intros (j&r&k&x&->&Hj&Hx&Hs). split; [done|]. exists x. simpl. by rewrite Hj.
  - intros [Hne (x&Hx&Hs)]. destruct q as [|j r]; [done|]. simpl in Hx.
    destruct (kids !! j) as [k|] eqn:Hj; [|done]. by exists j, r, k, x.
Qed.

Lemma elem_of_selectBelow sel l b q :
  q ∈ selectBelow sel l b <->
  exists j r k x, q = (b + j)%nat :: r /\ l !! j = Some k
                  /\ nodeAt r k = Some x /\ sel x = true.
Proof.
  apply elem_of_selectBelow_with, Forall_forall.
  intros k _ q'. apply elem_of_querySelectorAll.
Qed.

(** What [querySelector] found is a matching descendant. *)
Lemma querySelector_Some sel n q :
  querySelector sel n = Some q -> leadsToMatch sel n q.
Proof.
  unfold querySelector. intros Hq. apply elem_of_querySelectorAll.
  destruct (querySelectorAll sel n); simplify_eq/=. apply list_elem_of_here.
Qed.

(** And it finds one whenever there is one. *)
Lemma querySelector_None sel n q :
  querySelector sel n = None -> ¬ leadsToMatch sel n q.
Proof.
  unfold querySelector. intros Hq Hm. apply elem_of_querySelectorAll in Hm.
  destruct (querySelectorAll sel n); [by apply elem_of_nil in Hm|done].
Qed.

(** ** The Enter key on the comment form *)

Lemma forEach_fetchReplacementImage pics pg :
  exists pg', forEach pics fetchReplacementImage pg = (Return tt, pg')
              /\ sameButRequests pg pg'.
Proof.
  revert pg. induction pics as [|p pics IH]; intros pg.
  { by exists pg. }
  simpl. unfold andThen at 1. unfold fetchReplacementImage at 1.
  unfold andThen, gets, fetch, modify.
  match goal with |- context [forEach pics _ ?pg1] =>
    destruct (IH pg1) as (pg'&->&Hd&Hc&Ht&Hl) end.
  by exists pg'.
Qed.

Lemma reported_event cb ev pg :
  exists pg', reported cb ev pg
    = (Return (if isPreventFormEnter cb then preventFormEnter ev else ev), pg').
Proof.
  unfold reported. destruct cb; simpl.
  - by eexists.
  - unfold andThen. destruct (setCoverHeight pg) as [[[]|e] pg']; by eexists.
  - unfold andThen. destruct (setContentMinHeight pg) as [[[]|e] pg']; by eexists.
Qed.

(** No listener but [preventFormEnter] touches the event, and it does so for
    the Enter key only. *)
Lemma runListeners_event ls tg type ev pg :
  exists ev' pg', runListeners ls tg type ev pg = (Return ev', pg')
    /\ key ev' = key ev
    /\ defaultPrevented ev' =
         defaultPrevented ev
         || (String.eqb (key ev) "Enter"
             && existsb (fun l => listensFor tg type l && isPreventFormEnter (handler l)) ls).
Proof.
  revert ev pg. induction ls as [|l ls IH]; intros ev pg.
  { exists ev, pg. simpl. by rewrite andb_false_r, orb_false_r. }
  simpl. fold (listensFor tg type l). destruct (listensFor tg type l); simpl.
  - unfold andThen. destruct (reported_event (handler l) ev pg) as [pg1 ->].
    destruct (IH (if isPreventFormEnter (handler l) then preventFormEnter ev else ev) pg1)
      as (ev'&pg'&->&Hkey&Hdp).
    exists ev', pg'. split; [done|]. rewrite Hkey, Hdp.
    destruct (isPreventFormEnter (handler l)); simpl; [|done].
    unfold preventFormEnter. destruct (String.eqb (key ev) "Enter") eqn:E; simpl.
    + by rewrite !orb_true_r.
    + by rewrite E.
  - apply IH.
Qed.

Lemma setupTableOfContents_sameButDocument pg :
  sameButDocument pg (snd (setupTableOfContents pg)).
Proof.
  unfold setupTableOfContents, andThen, gets, deref, mutate, modify, ret, throw.
  destruct (querySelector (hasClass "toc") (document pg)) as [toc|]; [|done].
  simpl.
  destruct (nodeAt toc (document pg) ≫= querySelector (hasTag "ul")) as [q|]; [|done].
  destruct (0 <? _)%nat; done.
Qed.

Lemma sameListener_refl l : sameListener l l = true.
Proof.
  unfold sameListener. destruct l as [[|p] type []]; simpl;
    rewrite ?String.eqb_refl, ?bool_decide_eq_true_2; done.
Qed.

(** After [addEventListener] the listener is registered, once. *)
Lemma addEventListener_registered tg type cb pg :
  existsb (sameListener {| target := tg; eventType := type; handler := cb |})
    (listeners (snd (addEventListener tg type cb pg))) = true.
Proof.
  unfold addEventListener, modify, withListeners. simpl.
  destruct (existsb _ (listeners pg)) eqn:E; [done|].
  rewrite existsb_app. simpl. by rewrite sameListener_refl, orb_true_r.
Qed.

Lemma sameListener_preventFormEnter tg type l :
  sameListener {| target := tg; eventType := type; handler := PreventFormEnter |} l = true ->
  listensFor tg type l && isPreventFormEnter (handler l) = true.
Proof.
  unfold sameListener, listensFor. simpl.
  intros [[Ht Hty]%andb_true_iff Hcb]%andb_true_iff.
  apply String.eqb_eq in Hty as <-. rewrite String.eqb_refl.
  assert (sameTarget (target l) tg = true) as ->.
  { destruct tg, (target l); simpl in *; try done.
    apply bool_decide_eq_true in Ht as ->. by apply bool_decide_eq_true. }
  by destruct (handler l).
Qed.

(** C9. Once the listener of blogpost.js ran, a [keypress] event
    dispatched on the comment form has its default action (the submission of
    the form) prevented exactly when its key is ["Enter"]: the event comes
    back with [defaultPrevented] set for Enter and clear for any other key. *)
Theorem preventFormEnter_on_keypress pg pg' form k :
  getElementById "comment-form" (document pg) = Some form ->
  blogpostDOMContentLoaded pg = (Return tt, pg') ->
  exists ev' pg'',
    dispatchEvent (ElementAt form) "keypress" {| key := k; defaultPrevented := false |} pg'
      = (Return ev', pg'')
    /\ key ev' = k /\ defaultPrevented ev' = String.eqb k "Enter".
Proof.
  intros Hform Hrun.
  assert (Hls : existsb (fun l => listensFor (ElementAt form) "keypress" l
                                 && isPreventFormEnter (handler l))
                        (listeners pg') = true).
  { revert Hrun. unfold blogpostDOMContentLoaded.
    unfold andThen at 1. unfold gets at 1.
    unfold andThen at 1.
    destruct (forEach_fetchReplacementImage
                (querySelectorAll (hasClass "ajax-profile-pic") (document pg)) pg)
      as (pg1&->&Hd&_&_&Hl).
    unfold andThen at 1. unfold gets at 1. rewrite Hd.
    destruct (getElementById "post-uid" (document pg)) as [holder|]; [|done].
    unfold andThen at 1, deref at 1, ret at 1.
    unfold andThen at 1, gets at 1.
    unfold andThen at 1, setTimeout at 1, modify at 1.
    unfold andThen at 1, gets at 1. simpl document at 1. rewrite Hd.
    destruct (getElementById "comment" (document pg)) as [area|]; [|done].
    unfold andThen at 1, deref at 1, ret at 1.
    unfold andThen at 1, mutate at 1, modify at 1.
    unfold andThen at 1, gets at 1.
    unfold getElementById, querySelector in Hform |- *. simpl document at 1.
    rewrite querySelectorAll_onProps; [|apply hasId_propsOnly|done].
    simpl document at 1. rewrite Hd, Hform.
    unfold andThen at 1, deref at 1, ret at 1.
    unfold andThen at 1.
    match goal with |- context [addEventListener ?tg ?ty ?cb ?pgs] =>
      pose proof (addEventListener_registered tg ty cb pgs) as Hreg;
      destruct (addEventListener tg ty cb pgs) as [[[]|e] pg2] eqn:Hadd end; [|done].
    pose proof (setupTableOfContents_sameButDocument pg2) as (_&_&_&Hl').
    destruct (setupTableOfContents pg2) as [[[]|e] pg3]; [|done].
    intros [= <-]. simpl in Hl', Hreg. rewrite Hl'.
    apply existsb_exists in Hreg as (l&Hin&Hsame).
    apply existsb_exists. exists l. split; [done|].
    by apply sameListener_preventFormEnter. }
  unfold dispatchEvent, andThen, gets.
  destruct (runListeners_event (listeners pg') (ElementAt form) "keypress"
              {| key := k; defaultPrevented := false |} pg')
    as (ev'&pg''&->&Hkey&Hdp).
  exists ev', pg''. split; [done|]. split; [done|].
  rewrite Hdp, Hls. simpl. by rewrite andb_true_r.
Qed.

Lemma preventFormEnter_on_keypress_witness :
  exists form pg',
    getElementById "comment-form" (document samplePage) = Some form
    /\ blogpostDOMContentLoaded samplePage = (Return tt, pg')
    /\ exists ev' pg'',
         dispatchEvent (ElementAt form) "keypress"
           {| key := "Enter"; defaultPrevented := false |} pg' = (Return ev', pg'')
         /\ key ev' = "Enter" /\ defaultPrevented ev' = true.
Proof.
  eexists _, _. split; [vm_compute; reflexivity|].
  split; [vm_compute; reflexivity|].
  eapply (preventFormEnter_on_keypress samplePage _ _ "Enter");
    vm_compute; reflexivity.
Defined.

(** ** The replacement image *)


(** C8. When the request for the replacement image fails, by a network
    error or by a body that is not JSON, the settled promise completes, leaves
    the document as it is, so the image keeps its [src], and its only effect
    is one message on the console. *)
Theorem fetchReplacementImage_failure H imgElement error pg :
  let logged r :=
    fst r = Return tt
    /\ document (snd r) = document pg
    /\ console (snd r) = console pg ++ ["Error fetching replacement image: " +:+ error]
    /\ requests (snd r) = requests pg /\ timers (snd r) = timers pg
    /\ listeners (snd r) = listeners pg in
  logged (fetchReplacementImageSettled H imgElement (NetworkError error) pg)
  /\ logged (fetchReplacementImageSettled H imgElement (BodyNotJson error) pg).
Proof. done. Qed.



(** ** The layout sizers *)

Lemma propsAt_alterAt_onProps g p n :
  propsAt p (alterAt (onProps g) n p) = g <$> propsAt p n.
Proof.
  unfold propsAt. rewrite nodeAt_alterAt.
  by destruct (nodeAt p n) as [[e kids|s]|].
Qed.

Lemma querySelector_element sel n p :
  (forall s, sel (Text s) = false) ->
  querySelector sel n = Some p -> exists e, propsAt p n = Some e.
Proof.
  intros Htext [_ (x&Hx&Hs)]%querySelector_Some. unfold propsAt. rewrite Hx.
  destruct x as [e kids|s]; [by exists e|]. by rewrite Htext in Hs.
Qed.

(** What a call of the cover sizer does when there is a cover. *)
Lemma setCoverHeight_at pg cover :
  querySelector (hasClass "cover") (document pg) = Some cover ->
  exists e e',
    propsAt cover (document pg) = Some e
    /\ fst (setCoverHeight pg) = Return tt
    /\ propsAt cover (document (snd (setCoverHeight pg))) = Some e'
    /\ offsetWidth e' = offsetWidth e
    /\ assocGet "height" (style e')
       = Some (Px ((9 / 21) * numberOfLong (offsetWidth e'))%float).
Proof.
  intros Hq. destruct (querySelector_element _ _ _ (fun _ => eq_refl) Hq) as [e He].
  exists e.
  exists (setStyle "height" (Px ((9 / 21) * numberOfLong (offsetWidth e))%float) e).
  split; [done|].
  unfold setCoverHeight, andThen, gets, deref, mutate, modify. rewrite Hq. simpl.
  split; [done|]. rewrite propsAt_alterAt_onProps, He.
  unfold propsAt in He. destruct (nodeAt cover (document pg)) as [[e0 kids|s]|];
    simplify_eq/=.
  split; [done|]. split; [done|]. apply assocGet_assocSet.
Qed.

(** The content sizer reads the chrome elements through [heightOf], which
    answers 0 for one that is not there, and uses the content container as
    it is. *)
Lemma setContentMinHeight_run pg :
  setContentMinHeight pg =
    match querySelector (hasClass "content") (document pg) with
    | Some content =>
        (Return tt,
         withDocument (fun doc =>
           alterAt (onProps (setStyle "minHeight"
             (CalcVhMinusPx 102
                (heightOf "navbar" (document pg) + heightOf "cover" (document pg)
                 + heightOf "bottom-nav" (document pg)
                 + heightOf "footer" (document pg))))) doc content) pg)
    | None => (Raise (TypeError "Cannot read properties of null"), pg)
    end.
Proof.
  unfold setContentMinHeight, andThen, gets, deref, mutate, modify, ret, throw.
  by destruct (querySelector (hasClass "content") (document pg)).
Qed.

(** A mutation of the properties of one element leaves the properties of
    every other element alone. *)
Lemma propsAt_alterAt_onProps_ne g p q n :
  p <> q -> propsAt q (alterAt (onProps g) n p) = propsAt q n.
Proof.
  unfold propsAt. revert q n. induction p as [|i p IH]; intros q n Hne.
  { rewrite alterAt_nil. destruct q as [|j q]; [done|]. by destruct n. }
  destruct n as [e kids|s]; [|done]. rewrite alterAt_cons.
  destruct q as [|j q]; [done|]. simpl.
  destruct (decide (i = j)) as [->|Hij].
  - rewrite list_lookup_alter_eq. destruct (kids !! j) as [k|]; [|done]. simpl.
    apply IH. congruence.
  - by rewrite list_lookup_alter_ne.
Qed.

Lemma setCoverHeight_coverRatio pg :
  querySelector (hasClass "cover") (document pg) <> None ->
  fst (setCoverHeight pg) = Return tt /\ coverRatio (snd (setCoverHeight pg)).
Proof.
  intros Hcover.
  destruct (querySelector (hasClass "cover") (document pg)) as [cover|] eqn:Hq; [|done].
  destruct (setCoverHeight_at pg cover Hq) as (e&e'&He&Hr&He'&Hw&Hh).
  split; [done|]. exists cover, e'. split; [|done].
  unfold setCoverHeight, andThen, gets, deref, mutate, modify, ret. rewrite Hq.
  cbn [snd document withDocument].
  unfold querySelector in Hq |- *.
  match goal with |- head (querySelectorAll _ (alterAt (onProps ?g) _ _)) = _ =>
    rewrite (querySelectorAll_onProps (hasClass "cover") g cover (document pg)) end; done.
Qed.

Lemma setContentMinHeight_coverRatio pg :
  coverRatio pg -> coverRatio (snd (setContentMinHeight pg)).
Proof.
  intros (cover&e&Hq&He&Hh). rewrite setContentMinHeight_run.
  destruct (querySelector (hasClass "content") (document pg)) as [content|];
    [|by exists cover, e].
  set (v := CalcVhMinusPx _ _). unfold coverRatio, withDocument. cbn [snd document].
  exists cover. destruct (decide (content = cover)) as [->|Hne].
  - exists (setStyle "minHeight" v e). split_and!.
    + unfold querySelector in Hq |- *. by rewrite querySelectorAll_onProps.
    + by rewrite propsAt_alterAt_onProps, He.
    + cbn [style setStyle withStyle]. by rewrite assocGet_assocSet_ne.
  - exists e. split_and!; [|by rewrite propsAt_alterAt_onProps_ne|done].
    unfold querySelector in Hq |- *. by rewrite querySelectorAll_onProps.
Qed.

Lemma withConsole_coverRatio g pg : coverRatio pg -> coverRatio (withConsole g pg).
Proof. done. Qed.

Lemma reported_coverRatio cb ev pg :
  coverRatio pg -> coverRatio (snd (reported cb ev pg)).
Proof.
  intros Hr. unfold reported, runCallback. destruct cb; [done| |].
  - unfold andThen, ret.
    destruct Hr as (cover&e&Hq&_).
    destruct (setCoverHeight_coverRatio pg) as [Hok Hr']; [by rewrite Hq|].
    destruct (setCoverHeight pg) as [[[]|err] pg']; [done|done].
  - unfold andThen, ret. pose proof (setContentMinHeight_coverRatio pg Hr) as Hr'.
    destruct (setContentMinHeight pg) as [[[]|err] pg']; [done|].
    by apply withConsole_coverRatio.
Qed.

Lemma runListeners_coverRatio ls tg type ev pg :
  coverRatio pg -> coverRatio (snd (runListeners ls tg type ev pg)).
Proof.
  revert ev pg. induction ls as [|l ls IH]; intros ev pg Hr; [done|].
  simpl. destruct (_ && _); [|by apply IH].
  unfold andThen. pose proof (reported_coverRatio (handler l) ev pg Hr) as Hr'.
  destruct (reported_event (handler l) ev pg) as [pg1 Heq]. rewrite Heq in Hr' |- *.
  by apply IH.
Qed.

Lemma reported_keeps_cover cb ev pg :
  querySelector (hasClass "cover") (document (snd (reported cb ev pg)))
  = querySelector (hasClass "cover") (document pg).
Proof.
  unfold reported, runCallback. destruct cb; [done| |]; unfold andThen, ret.
  - unfold setCoverHeight, andThen, gets, deref, mutate, modify, ret, throw.
    destruct (querySelector (hasClass "cover") (document pg)) as [cover|] eqn:Hq;
      [|exact Hq].
    unfold withDocument. cbn [snd document].
    unfold querySelector in Hq |- *. by rewrite querySelectorAll_onProps.
  - rewrite setContentMinHeight_run.
    destruct (querySelector (hasClass "content") (document pg)) as [content|]; [|done].
    unfold withDocument. cbn [snd document].
    unfold querySelector. by rewrite querySelectorAll_onProps.
Qed.

(** Across a resize: whatever the new layout, once a [resize] event went
    through listeners among which the cover sizer is, the cover has its
    ratio. *)
Lemma runListeners_resize_coverRatio ls ev pg :
  querySelector (hasClass "cover") (document pg) <> None ->
  existsb isCoverSizer ls = true ->
  coverRatio (snd (runListeners ls Window "resize" ev pg)).
Proof.
  revert ev pg. induction ls as [|l ls IH]; intros ev pg Hcover Hls; [done|].
  simpl in Hls. simpl runListeners. fold (listensFor Window "resize" l).
  destruct (isCoverSizer l) eqn:Hl.
  - apply andb_true_iff in Hl as [Hfor Hcb]. rewrite Hfor.
    destruct (handler l) eqn:Hh; try done.
    unfold andThen.
    destruct (reported_event SetCoverHeight ev pg) as [pg1 Heq]. rewrite Heq.
    apply runListeners_coverRatio.
    assert (pg1 = snd (reported SetCoverHeight ev pg)) as -> by (by rewrite Heq).
    unfold reported, runCallback, andThen, ret.
    destruct (setCoverHeight_coverRatio pg Hcover) as [Hok Hr].
    by destruct (setCoverHeight pg) as [[[]|err] pg'].
  - simpl in Hls. destruct (listensFor Window "resize" l); [|by apply IH].
    unfold andThen.
    pose proof (reported_keeps_cover (handler l) ev pg) as Hkeep.
    destruct (reported_event (handler l) ev pg) as [pg1 Heq]. rewrite Heq in Hkeep |- *.
    apply IH; [|done]. simpl in Hkeep. by rewrite Hkeep.
Qed.


(** C7. Whatever the page looks like when the cover sizer is invoked: if
    there is a cover, the call completes, leaves the measured width as it
    is, and afterwards the cover's [height] is [(9 / 21) * offsetWidth]
    pixels.  The sizer runs on load and listens for [resize]: after a
    [resize] event went through listeners among which the sizer is, the ratio
    holds again, whatever the other listeners did. *)
Theorem setCoverHeight_ratio pg cover e :
  querySelector (hasClass "cover") (document pg) = Some cover ->
  propsAt cover (document pg) = Some e ->
  fst (setCoverHeight pg) = Return tt
  /\ coverRatio (snd (setCoverHeight pg))
  /\ (exists e', propsAt cover (document (snd (setCoverHeight pg))) = Some e'
                 /\ offsetWidth e' = offsetWidth e)
  /\ (forall ev, existsb isCoverSizer (listeners pg) = true ->
                 coverRatio (snd (dispatchEvent Window "resize" ev pg))).
Proof.
  intros Hq He.
  assert (Hcover : querySelector (hasClass "cover") (document pg) <> None)
    by (by rewrite Hq).
  destruct (setCoverHeight_coverRatio pg Hcover) as [Hok Hratio].
  destruct (setCoverHeight_at pg cover Hq) as (e0&e'&He0&_&He'&Hw&_).
  rewrite He in He0. injection He0 as <-.
  split_and!; [done|done|by exists e'|].
  intros ev Hls. unfold dispatchEvent, andThen, gets.
  by apply runListeners_resize_coverRatio.
Qed.

Lemma setCoverHeight_ratio_witness :
  exists e',
    propsAt [0; 0; 1]%nat (document (snd (setCoverHeight samplePage))) = Some e'
    /\ offsetWidth e' = 2100%Z
    /\ coverRatio (snd (setCoverHeight samplePage)).
Proof.
  destruct (setCoverHeight_ratio samplePage [0; 0; 1]%nat
              {| tagName := "DIV"; classList := ["cover"]; attributes := [];
                 value := ""; style := []; offsetWidth := 2100; offsetHeight := 900 |})
    as (_&Hratio&(e'&He'&Hw)&_); [by vm_compute..|].
  by exists e'.
Defined.

(** *** The listeners the site-wide script registers *)

Lemma keepsListeners_andThen {A B} (c : script A) (k : A -> script B) :
  keepsListeners c -> (forall a, keepsListeners (k a)) -> keepsListeners (andThen c k).
Proof.
  intros Hc Hk pg. unfold andThen. specialize (Hc pg).
  destruct (c pg) as [[a|e] pg1]; [|done]. simpl in Hc. by rewrite Hk.
Qed.

Lemma keepsListeners_gets {A} (g : page -> A) : keepsListeners (gets g).
Proof. done. Qed.

Lemma keepsListeners_ret {A} (a : A) : keepsListeners (ret a).
Proof. done. Qed.

Lemma keepsListeners_deref {A} (r : option A) : keepsListeners (deref r).
Proof. by destruct r. Qed.

Lemma keepsListeners_mutate p g : keepsListeners (mutate p g).
Proof. done. Qed.

Lemma keepsListeners_setTimeout t d : keepsListeners (setTimeout t d).
Proof. done. Qed.

Lemma keepsListeners_forEach {A} (l : list A) body :
  (forall a, keepsListeners (body a)) -> keepsListeners (forEach l body).
Proof.
  intros Hb. induction l as [|a l IH]; [done|].
  simpl. apply keepsListeners_andThen; [apply Hb|done].
Qed.

Lemma keepsListeners_forEachElement l gone body :
  (forall element, keepsListeners (body element)) ->
  keepsListeners (forEachElement l gone body).
Proof.
  intros Hb. revert gone. induction l as [|element l IH]; intros gone; [done|].
  simpl. destruct (existsb _ gone); [apply IH|].
  apply keepsListeners_andThen; [apply Hb|]. intros b. apply IH.
Qed.

Create HintDb listeners.
#[local] Hint Resolve keepsListeners_gets keepsListeners_ret keepsListeners_deref
  keepsListeners_mutate keepsListeners_setTimeout : listeners.
#[local] Hint Extern 2 (keepsListeners (andThen _ _)) =>
  apply keepsListeners_andThen; [|intros ?] : listeners.
#[local] Hint Extern 2 (keepsListeners (forEach _ _)) =>
  apply keepsListeners_forEach; intros ? : listeners.
#[local] Hint Extern 2 (keepsListeners (forEachElement _ _ _)) =>
  apply keepsListeners_forEachElement; intros ? : listeners.
#[local] Hint Extern 3 (keepsListeners (match ?x with _ => _ end)) =>
  destruct x : listeners.

Lemma updateCurrentYear_keepsListeners H : keepsListeners (updateCurrentYear H).
Proof. unfold updateCurrentYear. auto 10 with listeners. Qed.

Lemma convertUTCToLocal_keepsListeners H : keepsListeners (convertUTCToLocal H).
Proof. unfold convertUTCToLocal. auto 10 with listeners. Qed.

Lemma formatCounts_keepsListeners H : keepsListeners (formatCounts H).
Proof. unfold formatCounts. auto 10 with listeners. Qed.

Lemma setCoverHeight_keepsListeners : keepsListeners setCoverHeight.
Proof. unfold setCoverHeight. auto 10 with listeners. Qed.

Lemma setContentMinHeight_keepsListeners : keepsListeners setContentMinHeight.
Proof. unfold setContentMinHeight. auto 10 with listeners. Qed.

Lemma sameListener_coverSizer l :
  sameListener {| target := Window; eventType := "resize"; handler := SetCoverHeight |} l
  = true ->
  isCoverSizer l = true.
Proof.
  unfold sameListener, isCoverSizer, listensFor. cbn [target eventType handler].
  intros [[Ht Hty]%andb_true_iff Hcb]%andb_true_iff.
  apply String.eqb_eq in Hty as <-. rewrite String.eqb_refl.
  destruct (target l); [|done]. by destruct (handler l).
Qed.

Lemma addEventListener_keeps tg type cb pg (P : listener -> bool) :
  existsb P (listeners pg) = true ->
  existsb P (listeners (snd (addEventListener tg type cb pg))) = true.
Proof.
  unfold addEventListener, modify, withListeners. cbn [snd listeners]. intros HP.
  match goal with |- context [if ?b then _ else _] => destruct b end; [done|].
  by rewrite existsb_app, HP.
Qed.

(** When the listener of the site-wide script completes, the cover sizer
    listens for [resize] on the window. *)
Lemma siteDOMContentLoaded_listeners H pg pg' :
  siteDOMContentLoaded H pg = (Return tt, pg') ->
  existsb isCoverSizer (listeners pg') = true.
Proof.
  unfold siteDOMContentLoaded, handleNotification.
  unfold andThen at 1, setTimeout at 1, modify at 1.
  set (pg0 := withTimers _ pg). clearbody pg0.
  unfold andThen at 1.
  destruct (updateCurrentYear H pg0) as [[[]|e1] pg1]; [|done].
  unfold andThen at 1.
  destruct (convertUTCToLocal H pg1) as [[[]|e2] pg2]; [|done].
  unfold andThen at 1.
  destruct (formatCounts H pg2) as [[[]|e3] pg3]; [|done].
  unfold andThen at 1.
  destruct (setCoverHeight pg3) as [[[]|e4] pg4]; [|done].
  unfold andThen at 1.
  destruct (setContentMinHeight pg4) as [[[]|e5] pg5]; [|done].
  unfold andThen at 1.
  pose proof (addEventListener_registered Window "resize" SetCoverHeight pg5) as Hreg.
  destruct (addEventListener Window "resize" SetCoverHeight pg5) as [[[]|e6] pg6];
    [|done].
  simpl in Hreg. intros Hadd.
  assert (pg' = snd (addEventListener Window "resize" SetContentMinHeight pg6)) as ->
    by (by rewrite Hadd).
  apply addEventListener_keeps.
  apply existsb_exists in Hreg as (l&Hin&Hsame).
  apply existsb_exists. exists l. split; [done|]. by apply sameListener_coverSizer.
Qed.

(** So after the page is loaded, a resize of any later page with a cover
    and these listeners leaves the cover with its ratio. *)
Lemma resize_after_load H pg pg' later ev :
  siteDOMContentLoaded H pg = (Return tt, pg') ->
  listeners later = listeners pg' ->
  querySelector (hasClass "cover") (document later) <> None ->
  coverRatio (snd (dispatchEvent Window "resize" ev later)).
Proof.
  intros Hload Hls Hcover. apply siteDOMContentLoaded_listeners in Hload.
  unfold dispatchEvent, andThen, gets. apply runListeners_resize_coverRatio; [done|].
  by rewrite Hls.
Qed.

(** ** Missing elements *)

Lemma updateCurrentYear_completes H pg : completes (updateCurrentYear H pg) = true.
Proof.
  unfold updateCurrentYear, andThen, gets, mutate, modify, ret.
  destruct (getElementById "yearTag" (document pg)); simpl;
    match goal with |- context [getElementById "yearTagMobile" ?d] =>
      by destruct (getElementById "yearTagMobile" d) end.
Qed.

Lemma fadeNotification_completes pg : completes (runTask FadeNotification pg) = true.
Proof.
  unfold runTask, andThen, gets, mutate, modify, ret, setTimeout.
  by destruct (getElementById "notification" (document pg)).
Qed.

(** C3, as the code has it.  The elements that are checked before use: a
    [toc] container without a list leaves the page as it is; the content
    sizer completes whichever of navbar, cover, bottom nav and footer are
    missing; the year tags and the notification may be missing.  The elements
    that are used unchecked: without the [toc] container, the content
    container, the post-uid holder or the comment textarea the operation
    throws a TypeError. *)
Theorem missing_elements H pg :
  (forall toc,
     querySelector (hasClass "toc") (document pg) = Some toc ->
     nodeAt toc (document pg) ≫= querySelector (hasTag "ul") = None ->
     setupTableOfContents pg = (Return tt, pg))
  /\ (querySelector (hasClass "content") (document pg) <> None ->
      completes (setContentMinHeight pg) = true)
  /\ completes (updateCurrentYear H pg) = true
  /\ completes (runTask FadeNotification pg) = true
  /\ (querySelector (hasClass "toc") (document pg) = None ->
      exists msg, setupTableOfContents pg = (Raise (TypeError msg), pg)
                  /\ blogpostScript pg = (Raise (TypeError msg), pg))
  /\ (querySelector (hasClass "content") (document pg) = None ->
      exists msg, setContentMinHeight pg = (Raise (TypeError msg), pg))
  /\ (getElementById "post-uid" (document pg) = None ->
      exists msg, fst (blogpostDOMContentLoaded pg) = Raise (TypeError msg))
  /\ (getElementById "post-uid" (document pg) <> None ->
      getElementById "comment" (document pg) = None ->
      exists msg, fst (blogpostDOMContentLoaded pg) = Raise (TypeError msg)).
Proof.
  split_and!.
  - intros toc Htoc Hul.
    unfold setupTableOfContents, andThen, gets, deref, ret. rewrite Htoc. simpl.
    by rewrite Hul.
  - intros Hc. rewrite setContentMinHeight_run.
    by destruct (querySelector (hasClass "content") (document pg)).
  - apply updateCurrentYear_completes.
  - apply fadeNotification_completes.
  - intros Htoc. eexists. unfold setupTableOfContents, blogpostScript, andThen, gets, deref.
    by rewrite Htoc.
  - intros Hc. eexists. by rewrite setContentMinHeight_run, Hc.
  - intros Hh. unfold blogpostDOMContentLoaded.
    unfold andThen at 1. unfold gets at 1. unfold andThen at 1.
    destruct (forEach_fetchReplacementImage
                (querySelectorAll (hasClass "ajax-profile-pic") (document pg)) pg)
      as (pg1&->&Hd&_).
    unfold andThen, gets, deref, throw. rewrite Hd, Hh. by eexists.
  - intros Hh Hc. unfold blogpostDOMContentLoaded.
    unfold andThen at 1. unfold gets at 1. unfold andThen at 1.
    destruct (forEach_fetchReplacementImage
                (querySelectorAll (hasClass "ajax-profile-pic") (document pg)) pg)
      as (pg1&->&Hd&_).
    unfold andThen, gets, deref, throw, ret, setTimeout, modify. rewrite Hd.
    destruct (getElementById "post-uid" (document pg)); [|done].
    simpl. rewrite Hd, Hc. by eexists.
Qed.

Lemma missing_elements_witness :
  setupTableOfContents pageWithoutChrome = (Return tt, pageWithoutChrome)
  /\ completes (setContentMinHeight pageWithoutChrome) = true
  /\ (exists msg, setupTableOfContents pageWithoutToc
                  = (Raise (TypeError msg), pageWithoutToc))
  /\ (exists msg, setContentMinHeight pageWithoutToc
                  = (Raise (TypeError msg), pageWithoutToc))
  /\ (exists msg, fst (blogpostDOMContentLoaded pageWithoutHolder) = Raise (TypeError msg))
  /\ (exists msg, fst (blogpostDOMContentLoaded pageWithoutTextarea)
                  = Raise (TypeError msg)).
Proof.
  split_and!.
  - destruct (missing_elements sampleHost pageWithoutChrome) as (Hlist&_).
    apply (Hlist [0]%nat); vm_compute; reflexivity.
  - destruct (missing_elements sampleHost pageWithoutChrome) as (_&Hcontent&_).
    apply Hcontent. vm_compute. discriminate.
  - destruct (missing_elements sampleHost pageWithoutToc) as (_&_&_&_&Htoc&_).
    destruct Htoc as (msg&Hmsg&_); [vm_compute; reflexivity|]. by exists msg.
  - destruct (missing_elements sampleHost pageWithoutToc) as (_&_&_&_&_&Hcontent&_).
    apply Hcontent. vm_compute. reflexivity.
  - destruct (missing_elements sampleHost pageWithoutHolder) as (_&_&_&_&_&_&Hholder&_).
    apply Hholder. vm_compute. reflexivity.
  - destruct (missing_elements sampleHost pageWithoutTextarea) as (_&_&_&_&_&_&_&Harea).
    apply Harea; vm_compute; [discriminate|reflexivity].
Defined.

(** C3 as the specification words it fails: on a page without the [toc]
    container, the content container and the post-uid holder, the
    table-of-contents setup, the script's own statements, the content sizer
    and the listener of blogpost.js all end in a TypeError instead of
    completing; so does the listener on a page without the comment
    textarea. *)
Lemma missing_elements_do_throw :
  completes (setupTableOfContents pageWithoutToc) = false
  /\ completes (blogpostScript pageWithoutToc) = false
  /\ completes (setContentMinHeight pageWithoutToc) = false
  /\ completes (blogpostDOMContentLoaded pageWithoutToc) = false
  /\ completes (blogpostDOMContentLoaded pageWithoutTextarea) = false.
Proof. by vm_compute. Qed.

(** ** Setting up the table of contents *)

(** *** The skeleton of a document *)

Lemma nodeAt_skeleton p n : nodeAt p (skeleton n) = skeleton <$> nodeAt p n.
Proof.
  revert n; induction p as [|i p IH]; intros n; [done|].
  destruct n as [e kids|s]; [|done]. simpl.
  rewrite list_lookup_fmap. destruct (kids !! i) as [k|]; simpl; [apply IH|done].
Qed.

Lemma selectBelow_skeleton sel kids b :
  (forall x, sel (skeleton x) = sel x) ->
  Forall (fun k => querySelectorAll sel (skeleton k) = querySelectorAll sel k) kids ->
  selectBelow sel (map skeleton kids) b = selectBelow sel kids b.
Proof.
  intros Hsel Hall. revert b. induction Hall as [|k rest Hk _ IH]; intros b; [done|].
  simpl map. rewrite !selectBelow_cons. by rewrite Hsel, Hk, IH.
Qed.

Lemma querySelectorAll_skeleton sel n :
  (forall x, sel (skeleton x) = sel x) ->
  querySelectorAll sel (skeleton n) = querySelectorAll sel n.
Proof.
  intros Hsel. induction n as [s|e kids IH] using node_forall_ind; [done|].
  simpl skeleton. rewrite !querySelectorAll_element. by apply selectBelow_skeleton.
Qed.

Lemma skeleton_alterAt_onProps g p n :
  (forall e, skeletonProps (g e) = skeletonProps e) ->
  skeleton (alterAt (onProps g) n p) = skeleton n.
Proof.
  intros Hg. revert n; induction p as [|i p IH]; intros n.
  { rewrite alterAt_nil. destruct n as [e kids|s]; [|done]. simpl. by rewrite Hg. }
  destruct n as [e kids|s]; [|done].
  rewrite alterAt_cons. simpl. f_equal.
  apply list_eq. intros j. rewrite !list_lookup_fmap.
  destruct (decide (i = j)) as [->|Hij].
  - rewrite list_lookup_alter_eq. destruct (kids !! j) as [k|]; simpl; [|done].
    by rewrite IH.
  - by rewrite list_lookup_alter_ne.
Qed.

Lemma children_skeleton n : length (children (skeleton n)) = length (children n).
Proof.
  destruct n as [e kids|s]; [|done]. simpl.
  induction kids as [|k kids IH]; [done|]. simpl map.
  rewrite !filter_cons.
  assert (isElement (skeleton k) = isElement k) as -> by (by destruct k).
  destruct (decide (isElement k = true)); simpl; by rewrite IH.
Qed.

Lemma hasClass_skeleton c x : hasClass c (skeleton x) = hasClass c x.
Proof. by destruct x. Qed.

Lemma hasTag_skeleton t x : hasTag t (skeleton x) = hasTag t x.
Proof. by destruct x. Qed.

(** Two nodes with one skeleton have the same top-level list, up to
    skeleton. *)
Lemma topLevelList_skeleton n :
  topLevelList (skeleton n) = skeleton <$> topLevelList n.
Proof.
  unfold topLevelList, querySelector.
  rewrite querySelectorAll_skeleton by apply hasTag_skeleton.
  destruct (head _) as [q|]; simpl; [apply nodeAt_skeleton|done].
Qed.

Lemma alterAt_ext_at f g p n :
  (forall x, nodeAt p n = Some x -> f x = g x) -> alterAt f n p = alterAt g n p.
Proof.
  revert n; induction p as [|i p IH]; intros n Hfg.
  { rewrite !alterAt_nil. by apply Hfg. }
  destruct n as [e kids|s]; [|done].
  rewrite !alterAt_cons. f_equal.
  apply list_alter_ext; [|done]. intros k Hk. apply IH.
  intros x Hx. apply Hfg. simpl. by rewrite Hk.
Qed.

Lemma setupTableOfContents_run pg toc :
  querySelector (hasClass "toc") (document pg) = Some toc ->
  setupTableOfContents pg
  = (Return tt, withDocument (fun doc => alterAt builtToc doc toc) pg).
Proof.
  intros Htoc.
  assert (Hid : forall (f : node -> node),
            (forall x, nodeAt toc (document pg) = Some x -> f x = x) ->
            withDocument (fun doc => alterAt f doc toc) pg = pg).
  { intros f Hf. destruct pg as [doc c r t l]. unfold withDocument. simpl in *.
    f_equal. rewrite (alterAt_ext_at f id _ _ Hf).
    clear. revert doc. induction toc as [|i p IH]; intros doc.
    - by rewrite alterAt_nil.
    - destruct doc as [e kids|s]; [|done]. rewrite alterAt_cons. f_equal.
      apply list_eq. intros j. destruct (decide (i = j)) as [->|].
      + rewrite list_lookup_alter_eq. destruct (kids !! j); simpl; [by rewrite IH|done].
      + by rewrite list_lookup_alter_ne. }
  unfold setupTableOfContents, andThen, gets, deref, ret, mutate, modify.
  rewrite Htoc. simpl.
  destruct (querySelector_Some _ _ _ Htoc) as [_ (container&Hc&Hsel)].
  rewrite Hc. simpl.
  destruct container as [e kids|s]; [|done].
  destruct (querySelector (hasTag "ul") (Element e kids)) as [q|] eqn:Hq.
  2:{ rewrite Hid; [done|]. intros x Hx. rewrite Hc in Hx. simplify_eq.
      unfold builtToc. by rewrite Hq. }
  destruct (0 <? _)%nat eqn:Hlisted.
  2:{ rewrite Hid; [done|]. intros x Hx. rewrite Hc in Hx. simplify_eq.
      unfold builtToc. by rewrite Hq, Hlisted. }
  destruct pg as [doc c r t l]. unfold withDocument. simpl in *. do 2 f_equal.
  rewrite alterAt_compose, alterAt_app, alterAt_compose.
  apply alterAt_ext_at. intros x Hx. rewrite Hc in Hx. simplify_eq.
  unfold builtToc. rewrite Hq, Hlisted.
  destruct (querySelector_Some _ _ _ Hq) as [Hne _].
  destruct q as [|i q]; [done|]. reflexivity.
Qed.

Lemma hidden_classListAdd e kids :
  hidden (Element (withClassList (classListAdd "d-none") e) kids) = true.
Proof.
  unfold hidden, hasClass, classListAdd. simpl.
  destruct (bool_decide ("d-none" ∈ classList e)) eqn:E.
  - done.
  - apply bool_decide_eq_true. apply elem_of_app. right. apply list_elem_of_here.
Qed.

Lemma hidden_classListRemove e kids :
  hidden (Element (withClassList (classListRemove "d-none") e) kids) = false.
Proof.
  unfold hidden, hasClass, classListRemove. simpl.
  apply bool_decide_eq_false. intros Hin. apply list_elem_of_filter in Hin. by destruct Hin.
Qed.

Lemma hasClass_classListAdd c c' e kids :
  hasClass c (Element (withClassList (classListAdd c') e) kids) = hasClass c (Element e kids) || bool_decide (c = c').
Proof.
  unfold hasClass, classListAdd. simpl.
  destruct (bool_decide (c' ∈ classList e)) eqn:E.
  - destruct (bool_decide (c = c')) eqn:E'; [|by rewrite orb_false_r].
    apply bool_decide_eq_true in E' as ->. by rewrite E.
  - apply eq_true_iff_eq. rewrite orb_true_iff, !bool_decide_eq_true, elem_of_app, list_elem_of_singleton. done.
Qed.

Lemma childCount_skeleton q n :
  length (from_option children [] (nodeAt q (skeleton n)))
  = length (from_option children [] (nodeAt q n)).
Proof.
  rewrite nodeAt_skeleton. destruct (nodeAt q n) as [x|]; simpl; [|done].
  apply children_skeleton.
Qed.

Lemma childCount_root q e e' kids :
  from_option children [] (nodeAt q (Element e kids))
  = from_option children [] (nodeAt q (Element e' kids)).
Proof. by destruct q. Qed.

(** C2. After the page is set up (the script's own statements, then its
    [DOMContentLoaded] listener), the [toc] container is hidden, that is
    carries the class ["d-none"], exactly when its top-level list is absent
    or has no child element; and when the list has a child, the container is
    not hidden and its first child is an [h3] heading with the text
    ["Table of Contents"]. *)
Theorem toc_hidden_iff pg pg' toc container :
  querySelector (hasClass "toc") (document pg) = Some toc ->
  nodeAt toc (document pg) = Some container ->
  blogpostSetup pg = (Return tt, pg') ->
  exists container',
    nodeAt toc (document pg') = Some container'
    /\ (hidden container' = true <->
        topLevelList container = None
        \/ exists ul, topLevelList container = Some ul /\ children ul = [])
    /\ (forall ul, topLevelList container = Some ul -> children ul <> [] ->
          hidden container' = false
          /\ firstChild container'
             = Some (Element (newElement "H3") [Text "Table of Contents"])).
Proof.
  intros Htoc Hc Hrun.
  destruct (querySelector_element _ _ _ (fun _ => eq_refl) Htoc) as [e He].
  assert (exists kids, container = Element e kids) as [kids ->].
  { unfold propsAt in He. rewrite Hc in He. destruct container; simplify_eq/=. eauto. }
  clear He.
  (* the script *)
  revert Hrun. unfold blogpostSetup, blogpostScript.
  unfold andThen at 1. unfold andThen at 1. unfold gets at 1. unfold andThen at 1.
  rewrite Htoc. unfold deref at 1, ret at 1, mutate at 1, modify at 1.
  set (pg1 := withDocument _ pg).
  assert (Htoc1 : forall sel g p d, propsOnly sel ->
            (forall e kids, sel (Element (g e) kids) = sel (Element e kids)) ->
            querySelector sel (alterAt (onProps g) d p) = querySelector sel d).
  { intros sel g p d Hs Hg. unfold querySelector. by rewrite querySelectorAll_onProps. }
  (* the listener, up to the table of contents *)
  unfold blogpostDOMContentLoaded.
  unfold andThen at 1. unfold gets at 1. unfold andThen at 1.
  destruct (forEach_fetchReplacementImage
              (querySelectorAll (hasClass "ajax-profile-pic") (document pg1)) pg1)
    as (pg1'&->&Hd&_).
  unfold andThen at 1. unfold gets at 1. rewrite Hd.
  destruct (getElementById "post-uid" (document pg1)) as [holder|]; [|done].
  unfold andThen at 1, deref at 1, ret at 1.
  unfold andThen at 1, gets at 1.
  unfold andThen at 1, setTimeout at 1, modify at 1.
  unfold andThen at 1, gets at 1. simpl document at 1. rewrite Hd.
  destruct (getElementById "comment" (document pg1)) as [area|]; [|done].
  unfold andThen at 1, deref at 1, ret at 1.
  unfold andThen at 1, mutate at 1, modify at 1.
  unfold andThen at 1, gets at 1.
  match goal with |- context [getElementById "comment-form" ?d] =>
    destruct (getElementById "comment-form" d) as [form|] end; [|done].
  unfold andThen at 1, deref at 1, ret at 1.
  unfold andThen at 1, addEventListener at 1, modify at 1.
  match goal with |- setupTableOfContents ?pgs = _ -> _ =>
    set (pg2 := pgs) end.
  assert (Hdoc2 : document pg2
                  = alterAt (onProps (withValue "")) (document pg1) area).
  { subst pg2. simpl. by rewrite Hd. }
  clearbody pg2.
  assert (Hdoc1 : document pg1
                  = alterAt (onProps (withClassList (classListAdd "d-none")))
                      (document pg) toc) by done.
  assert (Htoc2 : querySelector (hasClass "toc") (document pg2) = Some toc).
  { rewrite Hdoc2, Htoc1, Hdoc1, Htoc1; [done|apply hasClass_propsOnly| |apply hasClass_propsOnly|done].
    intros e0 kids0. by rewrite hasClass_classListAdd, orb_false_r. }
  rewrite (setupTableOfContents_run _ _ Htoc2). intros [= <-]. simpl.
  rewrite nodeAt_alterAt.
  (* the container when the listener reaches it *)
  assert (Hc1 : nodeAt toc (document pg1)
                = Some (Element (withClassList (classListAdd "d-none") e) kids)).
  { rewrite Hdoc1, nodeAt_alterAt, Hc. done. }
  assert (exists c2, nodeAt toc (document pg2) = Some c2
                     /\ skeleton c2
                        = skeleton (Element (withClassList (classListAdd "d-none") e) kids))
    as (c2&Hc2&Hsk).
  { pose proof (nodeAt_skeleton toc (document pg2)) as Hs.
    rewrite Hdoc2, skeleton_alterAt_onProps, nodeAt_skeleton, Hc1 in Hs by done.
    rewrite <- Hdoc2 in Hs.
    destruct (nodeAt toc (document pg2)) as [c2|]; simplify_eq/=. by exists c2. }
  rewrite Hc2. simpl. exists (builtToc c2). split; [done|].
  (* what the listener sees of the container is what the page had *)
  assert (Hq : querySelector (hasTag "ul") c2
               = querySelector (hasTag "ul") (Element e kids)).
  { unfold querySelector.
    rewrite <- (querySelectorAll_skeleton _ c2) by apply hasTag_skeleton.
    rewrite Hsk, querySelectorAll_skeleton by apply hasTag_skeleton. done. }
  assert (Hlen : forall q, length (from_option children [] (nodeAt q c2))
                 = length (from_option children [] (nodeAt q (Element e kids)))).
  { intros q.
    rewrite <- (childCount_skeleton q c2), Hsk, childCount_skeleton.
    by rewrite (childCount_root q _ e). }
  assert (Hhid : hidden c2 = true).
  { unfold hidden. rewrite <- hasClass_skeleton, Hsk, hasClass_skeleton.
    apply hidden_classListAdd. }
  destruct c2 as [e2 kids2|s]; [|done].
  unfold builtToc. rewrite Hq. unfold topLevelList.
  destruct (querySelector (hasTag "ul") (Element e kids)) as [q|] eqn:Hul.
  2:{ split; [by split; [left|]|]. by intros ul [=]. }
  rewrite Hlen.
  destruct (querySelector_Some _ _ _ Hul) as [_ (ul0&Hul0&_)].
  cbn [option_bind mbind]. rewrite !Hul0. cbn [from_option].
  destruct (children ul0) as [|c cs] eqn:Hkids; cbn [length Nat.ltb Nat.leb].
  - split; [split; [|done]; right; by exists ul0|].
    intros ul Heq Hne. by simplify_eq.
  - split.
    + rewrite hidden_classListRemove. split; [done|].
      intros [?|(ul&Heq&Hno)]; [done|]. simplify_eq. congruence.
    + intros ul _ _. split; [apply hidden_classListRemove|done].
Qed.

Lemma toc_hidden_iff_witness :
  exists container',
    nodeAt [0; 0; 2; 5]%nat (document (snd (blogpostSetup samplePage))) = Some container'
    /\ hidden container' = false
    /\ firstChild container' = Some (Element (newElement "H3") [Text "Table of Contents"]).
Proof.
  destruct (toc_hidden_iff samplePage (snd (blogpostSetup samplePage)) [0; 0; 2; 5]%nat
              (elem "DIV" ["toc"] [] [sampleList]))
    as (container'&Hc&_&Hlisted); [by vm_compute..|].
  exists container'. split; [done|].
  apply (Hlisted sampleList); by vm_compute.
Defined.

(** ** Depth classes of the table of contents *)

Lemma addTocLevelClass_element level u items :
  addTocLevelClass level (Element u items) = Element u (map (tagItem level) items).
Proof. reflexivity. Qed.

Lemma stripPrefix_Some q p r : stripPrefix q p = Some r -> p = q ++ r.
Proof.
  revert p; induction q as [|i q IH]; intros [|j p] Hs; simplify_eq/=; [done..|].
  destruct (Nat.eqb_spec i j) as [->|]; [|done]. f_equal. by apply IH.
Qed.

(** The first match in document order below a run of siblings. *)
Lemma head_selectBelow sel l b q :
  head (selectBelow sel l b) = Some q ->
  exists j k r, q = (b + j)%nat :: r /\ l !! j = Some k
    /\ (sel k = true /\ r = [] \/ sel k = false /\ querySelector sel k = Some r).
Proof.
  revert b. induction l as [|k0 rest IH]; intros b; [done|].
  rewrite selectBelow_cons. destruct (sel k0) eqn:Hs.
  - intros [= <-]. exists 0%nat, k0, []. rewrite Nat.add_0_r. eauto.
  - simpl. unfold querySelector. destruct (querySelectorAll sel k0) as [|q0 qs] eqn:Hq.
    + simpl. intros (j&k&r&->&Hj&Hk)%IH.
      exists (S j), k, r. split_and!; [f_equal; lia|done..].
    + intros [= <-]. exists 0%nat, k0, q0. rewrite Nat.add_0_r.
      split_and!; [done..|]. right. by rewrite Hq.
Qed.

(** The first match has no match among the nodes it lies below. *)
Lemma querySelector_first sel q n q1 q2 x :
  querySelector sel n = Some q ->
  q = q1 ++ q2 -> q1 <> [] -> q2 <> [] ->
  nodeAt q1 n = Some x -> sel x = false.
Proof.
  revert n q1. induction q as [|i q IH]; intros n q1 Hq Heq Hq1 Hq2 Hx.
  { by destruct q1. }
  destruct n as [e kids|s]; [|done].
  unfold querySelector in Hq. rewrite querySelectorAll_element in Hq.
  apply head_selectBelow in Hq as (j&k&r&[= -> ->]&Hj&Hk).
  destruct q1 as [|i1 q1]; [done|]. simpl in Heq. injection Heq as <- ->.
  simpl in Hx. rewrite Hj in Hx. simpl in Hx.
  destruct Hk as [[_ Hr]|[Hk Hr]].
  { by destruct q1, q2. }
  destruct q1 as [|i2 q1].
  - by simplify_eq/=.
  - by eapply (IH k (i2 :: q1)).
Qed.

Lemma hasTag_li_not_ul n : hasTag "li" n = true -> hasTag "ul" n = false.
Proof.
  destruct n as [e kids|s]; [|done]. simpl.
  intros ->%String.eqb_eq. done.
Qed.

(** Below a node that is no list, on a way that passes no list, the depth
    is the depth below where the way ends. *)
Lemma itemDepth_through q n nested p :
  p <> [] ->
  nodeAt q n = Some nested ->
  (forall q1 q2 x, q = q1 ++ q2 -> q2 <> [] -> nodeAt q1 n = Some x ->
                   hasTag "ul" x = false) ->
  itemDepth n (q ++ p) = itemDepth nested p.
Proof.
  intros Hp. revert n. induction q as [|i q IH]; intros n Hn Hno.
  { by simplify_eq/=. }
  destruct n as [e kids|s]; [|done]. simpl in Hn.
  destruct (kids !! i) as [k|] eqn:Hk; [|done]. simpl in Hn.
  assert (Hroot : hasTag "ul" (Element e kids) = false).
  { by apply (Hno [] (i :: q)). }
  assert (itemDepth (Element e kids) ((i :: q) ++ p)
          = (k ← kids !! i; d ← itemDepth k (q ++ p);
             Some (if hasTag "ul" (Element e kids) then S d else d))) as ->.
  { simpl. destruct (q ++ p) eqn:Hqp; [|done]. by destruct q, p. }
  rewrite Hk, Hroot. simpl. rewrite IH; [by destruct (itemDepth nested p)|done|].
  intros q1 q2 x -> Hq2 Hx. apply (Hno (i :: q1) q2); [done..|]. simpl. by rewrite Hk.
Qed.

Lemma elem_of_classListAdd c l : c ∈ classListAdd c l.
Proof.
  unfold classListAdd. destruct (bool_decide (c ∈ l)) eqn:E.
  - by apply bool_decide_eq_true in E.
  - apply elem_of_app. right. apply list_elem_of_here.
Qed.

Lemma inFirstListsWithin_nonempty fuel ul p :
  inFirstListsWithin fuel ul p = true -> p <> [].
Proof. by destruct fuel, p. Qed.

(** The fuel of [inFirstLists] is enough: more fuel finds nothing more. *)
Lemma inFirstListsWithin_more fuel fuel' ul p :
  (fuel <= fuel')%nat ->
  inFirstListsWithin fuel ul p = true -> inFirstListsWithin fuel' ul p = true.
Proof.
  revert fuel' ul p. induction fuel as [|fuel IH]; intros fuel' ul p Hle Hin; [done|].
  destruct fuel' as [|fuel']; [lia|].
  destruct p as [|i rest]; [done|]. destruct ul as [u items|s]; [|done].
  simpl in *. destruct (items !! i) as [item|]; [|done].
  destruct (hasTag "li" item); [|done]. simpl in *.
  destruct rest as [|j rest']; [done|].
  destruct (querySelector (hasTag "ul") item) as [q|]; [|done].
  destruct (stripPrefix q (j :: rest')) as [p'|]; [|done].
  destruct (nodeAt q item) as [nested|]; [|done].
  apply (IH fuel'); [lia|done].
Qed.

Lemma inFirstLists_enough fuel ul p :
  inFirstListsWithin fuel ul p = true -> inFirstLists ul p = true.
Proof.
  unfold inFirstLists.
  revert ul p. induction fuel as [|fuel IH]; intros ul p Hin; [done|].
  destruct p as [|i rest]; [done|]. destruct ul as [u items|s]; [|done].
  simpl in *. destruct (items !! i) as [item|]; [|done].
  destruct (hasTag "li" item); [|done]. simpl in *.
  destruct rest as [|j rest']; [done|].
  destruct (querySelector (hasTag "ul") item) as [q|]; [|done].
  destruct (stripPrefix q (j :: rest')) as [p'|] eqn:Hp'; [|done].
  destruct (nodeAt q item) as [nested|]; [|done].
  apply stripPrefix_Some in Hp'.
  apply (inFirstListsWithin_more (length p')); [|by apply IH].
  change (length (j :: rest')) with (S (length rest')).
  assert (length (j :: rest') = length (q ++ p')) as Hlen by (by rewrite Hp').
  rewrite length_app in Hlen. simpl in Hlen. lia.
Qed.

Lemma addTocLevelClass_within fuel level ul p :
  hasTag "ul" ul = true ->
  inFirstListsWithin fuel ul p = true ->
  exists d e kids,
    itemDepth ul p = Some (S d)
    /\ nodeAt p (addTocLevelClass level ul) = Some (Element e kids)
    /\ ("toclevel-" +:+ pretty (level + d)%nat) ∈ classList e.
Proof.
  revert level ul p. induction fuel as [|fuel IH]; intros level ul p Hul Hin; [done|].
  destruct p as [|i rest]; [done|]. destruct ul as [u items|s]; [|done].
  simpl in Hin. destruct (items !! i) as [item|] eqn:Hi; [|done].
  apply andb_true_iff in Hin as [Hli Hrest].
  destruct item as [e kids|s]; [|done].
  assert (Hli' : String.eqb (toLowerCase (tagName e)) "li" = true) by done.
  rewrite addTocLevelClass_element.
  assert (Hnode : forall r, nodeAt (i :: r) (Element u (map (tagItem level) items))
                  = nodeAt r (tagItem level (Element e kids))).
  { intros r. simpl. by rewrite list_lookup_fmap, Hi. }
  rewrite Hnode. unfold tagItem. rewrite Hli'.
  destruct rest as [|j rest'].
  { exists 0%nat. eexists _, _. split_and!; [|done|].
    - assert (itemDepth (Element u items) [i]
              = (item ← items !! i;
                 if hasTag "ul" (Element u items) && hasTag "li" item
                 then Some 1%nat else None)) as -> by done.
      rewrite Hi. cbn [mbind option_bind]. by rewrite Hul, Hli.
    - simpl. rewrite Nat.add_0_r. apply elem_of_classListAdd. }
  destruct (querySelector (hasTag "ul") (Element e kids)) as [q|] eqn:Hq; [|done].
  destruct (stripPrefix q (j :: rest')) as [p'|] eqn:Hp'; [|done].
  destruct (nodeAt q (Element e kids)) as [nested|] eqn:Hnested; [|done].
  apply stripPrefix_Some in Hp'.
  destruct (querySelector_Some _ _ _ Hq) as [Hqne (x&Hx&Hxul)].
  rewrite Hnested in Hx. injection Hx as <-.
  destruct (IH (S level) nested p' Hxul Hrest) as (d&e'&kids'&Hd&Hn&Hc).
  exists (S d), e', kids'. split_and!.
  - assert (itemDepth (Element u items) (i :: j :: rest')
            = (k ← items !! i; d ← itemDepth k (j :: rest');
               Some (if hasTag "ul" (Element u items) then S d else d))) as -> by done.
    rewrite Hi, Hul. cbn [mbind option_bind]. rewrite Hp'.
    rewrite (itemDepth_through q (Element e kids) nested p'); [by rewrite Hd|..|done|].
    + by eapply inFirstListsWithin_nonempty.
    + intros q1 q2 y -> Hq2 Hy. destruct q1 as [|i1 q1].
      * injection Hy as <-. by apply hasTag_li_not_ul.
      * by eapply (querySelector_first _ _ _ (i1 :: q1) q2).
  - rewrite Hp'. destruct q as [|i1 q1]; [done|].
    change (Element (withClassList (classListAdd ("toclevel-" +:+ pretty level)) e)
              (alterBelow (addTocLevelClass (S level)) kids (i1 :: q1)))
      with (alterAt (addTocLevelClass (S level))
              (Element (withClassList (classListAdd ("toclevel-" +:+ pretty level)) e) kids)
              (i1 :: q1)).
    rewrite nodeAt_app, nodeAt_alterAt.
    change (nodeAt (i1 :: q1) (Element (withClassList (classListAdd ("toclevel-" +:+ pretty level)) e) kids))
      with (nodeAt (i1 :: q1) (Element e kids)).
    rewrite Hnested. simpl. done.
  - by replace (level + S d)%nat with (S level + d)%nat by lia.
Qed.

(** The walk tags every item in the first lists with its depth. *)
Lemma addTocLevelClass_first_lists ul p :
  hasTag "ul" ul = true ->
  inFirstLists ul p = true ->
  exists d, itemDepth ul p = Some d
            /\ classAt ("toclevel-" +:+ pretty d) p (addTocLevelClass 1 ul) = true.
Proof.
  intros Hul Hin.
  destruct (addTocLevelClass_within (length p) 1 ul p Hul Hin) as (d&e&kids&Hd&Hn&Hc).
  exists (S d). split; [done|]. unfold classAt. rewrite Hn. simpl.
  by apply bool_decide_eq_true.
Qed.

(** *** Generated markup *)

Lemma tocShaped_element u items :
  tocShaped (Element u items)
  = forallb (fun item =>
      match item with
      | Text _ => true
      | Element e kids =>
          String.eqb (toLowerCase (tagName e)) "li" && oneList kids
      end) items.
Proof. reflexivity. Qed.

Lemma oneList_cons k r :
  oneList (k :: r)
  = if hasTag "ul" k then tocShaped k && forallb listFree r
    else listFree k && oneList r.
Proof. reflexivity. Qed.

Lemma listFree_element e kids :
  listFree (Element e kids) = negb (hasTag "ul" (Element e kids)) && forallb listFree kids.
Proof. reflexivity. Qed.

Lemma forallb_lookup {A} (P : A -> bool) l i x :
  forallb P l = true -> l !! i = Some x -> P x = true.
Proof.
  intros Hall Hi. rewrite forallb_forall in Hall. apply Hall.
  apply list_elem_of_In. by eapply list_elem_of_lookup_2.
Qed.

Lemma listFree_no_ul k :
  listFree k = true ->
  hasTag "ul" k = false /\ querySelectorAll (hasTag "ul") k = [].
Proof.
  induction k as [s|e kids IH] using node_forall_ind; [done|].
  rewrite listFree_element. intros [Hul Hkids]%andb_true_iff.
  apply negb_true_iff in Hul. split; [done|].
  rewrite querySelectorAll_element. generalize 0%nat.
  induction IH as [|k rest Hk _ IHrest]; intros b; [done|].
  simpl in Hkids. apply andb_true_iff in Hkids as [Hk' Hrest].
  destruct (Hk Hk') as [Hno Hnone].
  rewrite selectBelow_cons, Hno, Hnone. simpl. by apply IHrest.
Qed.

Lemma itemDepth_single e kids i :
  itemDepth (Element e kids) [i]
  = (item ← kids !! i;
     if hasTag "ul" (Element e kids) && hasTag "li" item then Some 1%nat else None).
Proof. reflexivity. Qed.

Lemma itemDepth_step e kids i j r :
  itemDepth (Element e kids) (i :: j :: r)
  = (k ← kids !! i; d ← itemDepth k (j :: r);
     Some (if hasTag "ul" (Element e kids) then S d else d)).
Proof. reflexivity. Qed.

Lemma itemDepth_text s p : itemDepth (Text s) p = None.
Proof. by destruct p as [|i [|j r]]. Qed.

Lemma itemDepth_nil n : itemDepth n [] = None.
Proof. by destruct n. Qed.

Lemma listFree_itemDepth k r : listFree k = true -> itemDepth k r = None.
Proof.
  revert k. induction r as [|i r IH]; intros k Hk; [apply itemDepth_nil|].
  destruct k as [e kids|s]; [|apply itemDepth_text].
  rewrite listFree_element in Hk. apply andb_true_iff in Hk as [Hul Hkids].
  apply negb_true_iff in Hul.
  destruct r as [|j r].
  - rewrite itemDepth_single. destruct (kids !! i); [|done].
    cbn [mbind option_bind]. by rewrite Hul.
  - rewrite itemDepth_step. destruct (kids !! i) as [k|] eqn:Hi; [|done].
    cbn [mbind option_bind]. by rewrite IH by (by eapply forallb_lookup).
Qed.

(** In the children of such an item, a child that is a list is the first
    [ul] below the item, and the other children hold no list. *)
Lemma oneList_lookup kids j k b :
  oneList kids = true -> kids !! j = Some k ->
  if hasTag "ul" k
  then tocShaped k = true
       /\ head (selectBelow (hasTag "ul") kids b) = Some [(b + j)%nat]
  else listFree k = true.
Proof.
  revert j b. induction kids as [|k0 rest IH]; intros j b Hone Hj; [done|].
  rewrite oneList_cons in Hone. rewrite selectBelow_cons.
  destruct j as [|j]; simpl in Hj.
  - injection Hj as ->. destruct (hasTag "ul" k) eqn:Hul.
    + apply andb_true_iff in Hone as [Hk _]. by rewrite Nat.add_0_r.
    + by apply andb_true_iff in Hone as [Hk _].
  - destruct (hasTag "ul" k0) eqn:Hul0.
    + apply andb_true_iff in Hone as [_ Hfree].
      pose proof (forallb_lookup _ _ _ _ Hfree Hj) as Hk.
      destruct (listFree_no_ul k Hk) as [-> _]. done.
    + apply andb_true_iff in Hone as [Hfree0 Hone].
      destruct (listFree_no_ul k0 Hfree0) as [_ ->]. simpl.
      specialize (IH j (S b) Hone Hj).
      destruct (hasTag "ul" k); [|done].
      destruct IH as [Hk ->]. split; [done|]. do 2 f_equal. lia.
Qed.

(** In such a list every list item lies in the first lists. *)
Lemma tocShaped_inFirstLists fuel ul p :
  (length p <= fuel)%nat ->
  tocShaped ul = true ->
  itemDepth ul p <> None ->
  inFirstListsWithin fuel ul p = true.
Proof.
  revert ul p. induction fuel as [|fuel IH]; intros ul p Hlen Hshape Hdepth.
  { destruct p; [by rewrite itemDepth_nil in Hdepth|simpl in Hlen; lia]. }
  destruct p as [|i rest]; [by rewrite itemDepth_nil in Hdepth|].
  destruct ul as [u items|s]; [|done].
  rewrite tocShaped_element in Hshape.
  assert (exists item, items !! i = Some item
                       /\ (rest <> [] -> itemDepth item rest <> None))
    as (item&Hi&Hinner).
  { destruct rest as [|j rest].
    - rewrite itemDepth_single in Hdepth.
      destruct (items !! i) as [item|]; [|done]. by exists item.
    - rewrite itemDepth_step in Hdepth.
      destruct (items !! i) as [item|]; [|done]. exists item. split; [done|].
      intros _ Hnone. apply Hdepth. cbn [mbind option_bind]. by rewrite Hnone. }
  pose proof (forallb_lookup _ _ _ _ Hshape Hi) as Hitem.
  destruct item as [e kids|s].
  2:{ destruct rest as [|j rest].
      - rewrite itemDepth_single, Hi in Hdepth. cbn [mbind option_bind] in Hdepth.
        by rewrite andb_false_r in Hdepth.
      - destruct Hinner; [done|apply itemDepth_text]. }
  apply andb_true_iff in Hitem as [Hli Hone].
  change (hasTag "li" (Element e kids) = true) in Hli.
  pose proof (hasTag_li_not_ul _ Hli) as Hnotul.
  cbn [inFirstListsWithin]. rewrite Hi, Hli. cbn [andb].
  destruct rest as [|j rest]; [done|].
  specialize (Hinner ltac:(done)).
  assert (exists k, kids !! j = Some k /\ rest <> [] /\ itemDepth k rest <> None)
    as (k&Hj&Hrest&Hk).
  { destruct rest as [|j' rest].
    - rewrite itemDepth_single in Hinner.
      destruct (kids !! j) as [k|]; [|done]. cbn [mbind option_bind] in Hinner.
      by rewrite Hnotul in Hinner.
    - rewrite itemDepth_step in Hinner.
      destruct (kids !! j) as [k|]; [|done]. exists k. split_and!; [done..|].
      intros Hnone. apply Hinner. cbn [mbind option_bind]. by rewrite Hnone. }
  pose proof (oneList_lookup kids j k 0 Hone Hj) as Hshapek.
  destruct (hasTag "ul" k) eqn:Hul.
  2:{ destruct Hk. by apply listFree_itemDepth. }
  destruct Hshapek as [Hshaped Hfirst].
  unfold querySelector. rewrite querySelectorAll_element, Hfirst.
  cbn [stripPrefix Nat.add]. rewrite Nat.eqb_refl.
  cbn [stripPrefix nodeAt]. rewrite Hj. cbn [mbind option_bind].
  apply IH; [simpl in Hlen; lia|done..].
Qed.

(** For a list as a generator writes it the walk misses nothing: every
    list item, at any depth, gets the class of its depth. *)
Lemma addTocLevelClass_generated ul p d :
  hasTag "ul" ul = true ->
  tocShaped ul = true ->
  itemDepth ul p = Some d ->
  classAt ("toclevel-" +:+ pretty d) p (addTocLevelClass 1 ul) = true.
Proof.
  intros Hul Hshape Hd.
  assert (Hin : inFirstLists ul p = true).
  { apply (tocShaped_inFirstLists (length p)); [done|done|by rewrite Hd]. }
  destruct (addTocLevelClass_first_lists ul p Hul Hin) as (d'&Hd'&Hclass).
  by assert (d' = d) as -> by congruence.
Qed.

(** C1, as the code has it.  When the table of contents is set up, every
    list item in the first lists of the container's top-level list (the items
    of that list and, below each such item, the items in the first lists of
    the first [ul] below it) carries the class ["toclevel-d"] for its
    nesting depth [d], the number of [ul] lists around it from the top-level
    list inwards, however deep.  When the top-level list is as a generator
    writes it (the child elements of a list are list items, and an item
    holds at most one [ul], as a child, which is such a list again, with no
    other [ul] anywhere below the item) these are all the list items: every
    list item, at any depth [d], carries ["toclevel-d"].  The heading was
    put before the list, so the list stands one place further in the
    container. *)
Theorem toc_levels pg toc container topLevelUl ul :
  querySelector (hasClass "toc") (document pg) = Some toc ->
  nodeAt toc (document pg) = Some container ->
  querySelector (hasTag "ul") container = Some topLevelUl ->
  nodeAt topLevelUl container = Some ul ->
  children ul <> [] ->
  (forall p,
     inFirstLists ul p = true ->
     exists d,
       itemDepth ul p = Some d
       /\ classAt ("toclevel-" +:+ pretty d) (toc ++ afterInsertFirst topLevelUl ++ p)
            (document (snd (setupTableOfContents pg))) = true)
  /\ (tocShaped ul = true ->
      forall p d,
        itemDepth ul p = Some d ->
        classAt ("toclevel-" +:+ pretty d) (toc ++ afterInsertFirst topLevelUl ++ p)
          (document (snd (setupTableOfContents pg))) = true).
Proof.
  intros Htoc Hc Hq Hul Hkids.
  destruct (querySelector_Some _ _ _ Hq) as [Hne (x&Hx&Hxul)].
  rewrite Hul in Hx. injection Hx as <-.
  assert (Hfirst : forall p,
            inFirstLists ul p = true ->
            exists d,
              itemDepth ul p = Some d
              /\ classAt ("toclevel-" +:+ pretty d)
                   (toc ++ afterInsertFirst topLevelUl ++ p)
                   (document (snd (setupTableOfContents pg))) = true).
  { intros p Hin.
    destruct (addTocLevelClass_first_lists ul p Hxul Hin) as (d&Hd&Hclass).
    exists d. split; [done|].
    rewrite (setupTableOfContents_run _ _ Htoc). simpl.
    unfold classAt in *. rewrite nodeAt_app, nodeAt_alterAt, Hc. simpl.
    destruct container as [e kids|s]; [|done].
    unfold builtToc. rewrite Hq, Hul. simpl.
    destruct (children ul) as [|k ks]; [done|]. simpl.
    destruct topLevelUl as [|i q]; [done|].
    change (afterInsertFirst (i :: q) ++ p) with (S i :: (q ++ p)).
    simpl. simpl in Hul.
    rewrite list_lookup_alter_eq.
    destruct (kids !! i) as [k0|]; [|done]. simpl in *.
    by rewrite nodeAt_app, nodeAt_alterAt, Hul. }
  split; [exact Hfirst|].
  intros Hshape p d Hd.
  assert (Hin : inFirstLists ul p = true).
  { apply (tocShaped_inFirstLists (length p)); [done|done|by rewrite Hd]. }
  destruct (Hfirst p Hin) as (d'&Hd'&Hclass).
  by assert (d' = d) as -> by congruence.
Qed.

Lemma toc_levels_witness :
  (itemDepth sampleList [0; 1; 0; 1; 0]%nat = Some 3%nat
   /\ classAt "toclevel-3" ([0; 0; 2; 5] ++ [1] ++ [0; 1; 0; 1; 0])%nat
        (document (snd (setupTableOfContents samplePage))) = true)
  /\ (tocShaped generatedList = true
      /\ itemDepth generatedList [0; 1; 1]%nat = Some 2%nat
      /\ classAt "toclevel-2" ([0; 0; 2; 5] ++ [1] ++ [0; 1; 1])%nat
           (document (snd (setupTableOfContents generatedPage))) = true).
Proof.
  split.
  - destruct (toc_levels samplePage [0; 0; 2; 5]%nat
                (elem "DIV" ["toc"] [] [sampleList]) [0]%nat sampleList)
      as [Hfirst _]; [by vm_compute..|].
    destruct (Hfirst [0; 1; 0; 1; 0]%nat) as (d&Hd&Hc); [by vm_compute|].
    assert (d = 3%nat) as -> by (vm_compute in Hd; congruence).
    split; [by vm_compute|exact Hc].
  - destruct (toc_levels generatedPage [0; 0; 2; 5]%nat
                (elem "DIV" ["toc"] [] [generatedList]) [0]%nat generatedList)
      as [_ Hall]; [by vm_compute..|].
    split; [by vm_compute|]. split; [by vm_compute|].
    exact (Hall eq_refl [0; 1; 1]%nat 2%nat eq_refl).
Defined.

(** C1 as the specification words it fails: the item "More" of the sample
    list lies in the second list of the item "Intro", at depth 2, and the
    setup leaves it without any class. *)
Lemma second_list_not_tagged :
  hasTag "ul" sampleList = true
  /\ itemDepth sampleList [0; 2; 0]%nat = Some 2%nat
  /\ classAt "toclevel-2" [0; 2; 0]%nat (addTocLevelClass 1 sampleList) = false
  /\ nodeAt ([0; 0; 2; 5] ++ [1] ++ [0; 2; 0])%nat
       (document (snd (setupTableOfContents samplePage)))
     = Some (elem "LI" [] [] [Text "More"]).
Proof. by vm_compute. Qed.

(** An item holds at most one list in the list below as well, but the list
    of the [div] is no child of an item: the walk does not reach its item,
    and the list is not as a generator writes it. *)
Example list_beside_items_not_tagged :
  let ul := elem "UL" [] []
              [ elem "LI" [] [] [Text "A"];
                elem "DIV" [] [] [ elem "UL" [] [] [ elem "LI" [] [] [Text "X"] ] ] ] in
  itemDepth ul [1; 0; 0]%nat = Some 2%nat
  /\ inFirstLists ul [1; 0; 0]%nat = false
  /\ tocShaped ul = false
  /\ classAt "toclevel-2" [1; 0; 0]%nat (addTocLevelClass 1 ul) = false.
Proof. by vm_compute. Qed.

(** ** Loops over the selected elements *)

Lemma isStrictPrefix_spec g p :
  isStrictPrefix g p = true <-> g `prefix_of` p /\ g <> p.
Proof.
  revert p; induction g as [|i g IH]; intros [|j p]; simpl.
  - split; [done|]. by intros [_ ?].
  - split; [|done]. intros _. split; [apply prefix_nil|done].
  - split; [done|]. intros [?%prefix_nil_inv _]. done.
  - rewrite andb_true_iff, IH, Nat.eqb_eq. split.
    + intros [-> [Hp Hne]]. split; [by apply prefix_cons|congruence].
    + intros [Hp Hne]. pose proof (prefix_cons_inv_1 _ _ _ _ Hp) as ->.
      split; [done|]. split; [by eapply prefix_cons_inv_2|congruence].
Qed.

Lemma noneNested_spec l :
  noneNested l = true <->
  forall g p, g ∈ l -> p ∈ l -> isStrictPrefix g p = false.
Proof.
  unfold noneNested. rewrite forallb_forall. split.
  - intros Hall g p Hg Hp. apply list_elem_of_In in Hg.
    specialize (Hall g Hg). rewrite forallb_forall in Hall.
    apply list_elem_of_In in Hp. specialize (Hall p Hp). by apply negb_true_iff.
  - intros Hall g Hg. apply forallb_forall. intros p Hp.
    apply negb_true_iff, Hall; by apply list_elem_of_In.
Qed.

(** Two different elements of which neither lies inside the other. *)
Lemma apart_of_not_nested g p :
  g <> p -> isStrictPrefix g p = false -> isStrictPrefix p g = false ->
  ¬ g `prefix_of` p /\ ¬ p `prefix_of` g.
Proof.
  intros Hne Hgp Hpg. split; intros Hpre.
  - assert (isStrictPrefix g p = true) by (by apply isStrictPrefix_spec). congruence.
  - assert (isStrictPrefix p g = true) by (by apply isStrictPrefix_spec). congruence.
Qed.

(** With no element inside another, the loop runs its body on every
    element, in order. *)
Lemma forEachElement_run f body l gone pg :
  (forall element pg, exists b,
      body element pg = (Return b, withDocument (fun d => alterAt f d element) pg)) ->
  (forall g p, g ∈ gone ++ l -> p ∈ l -> isStrictPrefix g p = false) ->
  forEachElement l gone body pg
  = (Return tt, withDocument (afterEach f l) pg).
Proof.
  intros Hbody. revert gone pg. induction l as [|element rest IH]; intros gone pg Hno.
  { by destruct pg. }
  simpl.
  assert (existsb (fun g => isStrictPrefix g element) gone = false) as ->.
  { apply not_true_iff_false. intros (g&Hg&Hpre)%existsb_exists.
    rewrite Hno in Hpre; [done| |apply list_elem_of_here].
    apply elem_of_app. left. by apply list_elem_of_In. }
  unfold andThen. destruct (Hbody element pg) as [b ->].
  rewrite IH.
  - by destruct pg.
  - intros g p Hg Hp. apply Hno; [|by apply list_elem_of_further].
    rewrite elem_of_app, elem_of_cons.
    destruct b; apply elem_of_app in Hg; [rewrite elem_of_cons in Hg|]; tauto.
Qed.

Lemma afterEach_apart f l p doc :
  (forall q, q ∈ l -> ¬ q `prefix_of` p /\ ¬ p `prefix_of` q) ->
  nodeAt p (afterEach f l doc) = nodeAt p doc.
Proof.
  revert doc. induction l as [|q rest IH]; intros doc Hap; [done|].
  unfold afterEach. simpl. fold (afterEach f rest (alterAt f doc q)).
  rewrite IH by (intros q' Hq'; apply Hap; by apply list_elem_of_further).
  destruct (Hap q (list_elem_of_here _ _)) as [H1 H2].
  by apply nodeAt_alterAt_apart.
Qed.

Lemma afterEach_at f l p doc :
  NoDup l ->
  (forall g q, g ∈ l -> q ∈ l -> isStrictPrefix g q = false) ->
  p ∈ l ->
  nodeAt p (afterEach f l doc) = f <$> nodeAt p doc.
Proof.
  intros Hnd Hno. revert doc. induction Hnd as [|q rest Hq Hnd IH]; intros doc Hp.
  { by apply elem_of_nil in Hp. }
  assert (Hap : forall q', q' ∈ rest -> ¬ q' `prefix_of` q /\ ¬ q `prefix_of` q').
  { intros q' Hq'. apply apart_of_not_nested.
    - intros ->. done.
    - apply Hno; [by apply list_elem_of_further|apply list_elem_of_here].
    - apply Hno; [apply list_elem_of_here|by apply list_elem_of_further]. }
  unfold afterEach. simpl. fold (afterEach f rest (alterAt f doc q)).
  apply elem_of_cons in Hp as [->|Hp].
  - rewrite afterEach_apart by done. apply nodeAt_alterAt.
  - rewrite IH; [|intros; apply Hno; by apply list_elem_of_further|done].
    destruct (Hap p Hp) as [H1 H2]. by rewrite nodeAt_alterAt_apart.
Qed.

(** *** The selection lists every element once *)

Lemma NoDup_selectBelow sel l b :
  Forall (fun k => NoDup (querySelectorAll sel k)) l ->
  NoDup (selectBelow sel l b).
Proof.
  intros Hall. revert b. induction Hall as [|k rest Hk _ IH]; intros b.
  { apply NoDup_nil_2. }
  rewrite selectBelow_cons.
  assert (Hhead : forall q, q ∈ selectBelow sel rest (S b) ->
                            forall r, q <> b :: r).
  { intros q (j&r'&_&_&->&_)%elem_of_selectBelow r [= ? _]. lia. }
  apply NoDup_app. split_and!.
  - destruct (sel k); [apply NoDup_singleton|apply NoDup_nil_2].
  - intros q Hq Hq'. destruct (sel k); [|by apply elem_of_nil in Hq].
    apply list_elem_of_singleton in Hq as ->.
    apply elem_of_app in Hq' as [(r&[= <-]&Hr)%list_elem_of_fmap|Hq'].
    + apply elem_of_querySelectorAll in Hr as [Hne _]. done.
    + by eapply Hhead.
  - apply NoDup_app. split_and!.
    + apply NoDup_fmap_2; [|done]. by intros ?? [=].
    + intros q (r&->&Hr)%list_elem_of_fmap Hq'. by eapply Hhead.
    + apply IH.
Qed.

Lemma NoDup_querySelectorAll sel n : NoDup (querySelectorAll sel n).
Proof.
  induction n as [s|e kids IH] using node_forall_ind; [apply NoDup_nil_2|].
  rewrite querySelectorAll_element. by apply NoDup_selectBelow.
Qed.

(** ** The time localizer *)

Lemma hasClass_isTimeElement c x :
  c ∈ timeClassNames -> hasClass c x = true -> isTimeElement x = true.
Proof.
  intros Hc Hx. unfold isTimeElement. apply existsb_exists.
  exists c. split; [by apply list_elem_of_In|done].
Qed.

Lemma localizeElement_props H tz c e kids :
  exists kids', localizeElement H tz c (Element e kids) = Element e kids'
                /\ Forall (fun k => isElement k = false) kids'.
Proof.
  unfold localizeElement, setTextContent.
  destruct (String.eqb c "utc-to-local-long");
    match goal with |- context [String.eqb ?s ""] => destruct (String.eqb s "") end;
    eexists; split; try reflexivity; repeat constructor.
Qed.

Lemma querySelectorAll_no_elements sel e kids :
  (forall s, sel (Text s) = false) ->
  Forall (fun k => isElement k = false) kids ->
  querySelectorAll sel (Element e kids) = [].
Proof.
  intros Htext Hall. rewrite querySelectorAll_element. generalize 0%nat.
  induction Hall as [|k rest Hk _ IH]; intros b; [done|].
  rewrite selectBelow_cons, IH. destruct k as [|s]; [done|]. by rewrite Htext.
Qed.

Lemma isTimeElement_text s : isTimeElement (Text s) = false.
Proof. reflexivity. Qed.

Lemma isTimeElement_propsOnly : propsOnly isTimeElement.
Proof. by intros e kids kids'. Qed.

Section time_pass.
Variable H : host.
Variable c : string.
Hypothesis c_time : c ∈ timeClassNames.

Local Abbreviation tz := (resolvedTimeZone H).
Local Abbreviation f := (localizeElement H tz c).

(** Rewriting time elements that are not nested keeps the time elements
    where they are. *)
Lemma afterEach_time_elements l doc :
  noneNested (querySelectorAll isTimeElement doc) = true ->
  (forall q, q ∈ l -> q ∈ querySelectorAll isTimeElement doc) ->
  querySelectorAll isTimeElement (afterEach f l doc)
  = querySelectorAll isTimeElement doc.
Proof.
  revert doc. induction l as [|q rest IH]; intros doc Hno Hl; [done|].
  unfold afterEach. simpl. fold (afterEach f rest (alterAt f doc q)).
  assert (Hstep : querySelectorAll isTimeElement (alterAt f doc q)
                  = querySelectorAll isTimeElement doc).
  { apply querySelectorAll_alterAt; [apply isTimeElement_propsOnly|].
    intros x Hx.
    assert (Hq : q ∈ querySelectorAll isTimeElement doc)
      by apply Hl, list_elem_of_here.
    destruct x as [e kids|s].
    2:{ apply elem_of_querySelectorAll in Hq as [_ (y&Hy&Hs)].
        rewrite Hx in Hy. by injection Hy as <-. }
    destruct (localizeElement_props H tz c e kids) as (kids'&Hf&Hk).
    rewrite Hf. split; [done|].
    rewrite (querySelectorAll_no_elements _ _ _ isTimeElement_text Hk).
    destruct (querySelectorAll isTimeElement (Element e kids)) as [|r rs] eqn:Hr; [done|].
    assert (Hin : r ∈ querySelectorAll isTimeElement (Element e kids))
      by (rewrite Hr; apply list_elem_of_here).
    apply elem_of_querySelectorAll in Hin as [Hne (y&Hy&Hs)].
    assert (Hqr : q ++ r ∈ querySelectorAll isTimeElement doc).
    { apply elem_of_querySelectorAll. split; [by destruct q, r|].
      exists y. by rewrite nodeAt_app, Hx. }
    pose proof (proj1 (noneNested_spec _) Hno q (q ++ r) Hq Hqr) as Hnot.
    assert (isStrictPrefix q (q ++ r) = true); [|congruence].
    apply isStrictPrefix_spec. split; [by exists r|].
    intros Heq. apply Hne. apply (inj (app q)). by rewrite app_nil_r. }
  rewrite IH; [done|by rewrite Hstep|].
  intros q' Hq'. rewrite Hstep. by apply Hl, list_elem_of_further.
Qed.

Lemma class_elements_time doc q :
  q ∈ querySelectorAll (hasClass c) doc -> q ∈ querySelectorAll isTimeElement doc.
Proof.
  rewrite !elem_of_querySelectorAll. intros [Hne (x&Hx&Hs)].
  split; [done|]. exists x. split; [done|]. by eapply hasClass_isTimeElement.
Qed.

Lemma timePass_run pg :
  noneNested (querySelectorAll isTimeElement (document pg)) = true ->
  timePass H c pg
  = (Return tt,
     withDocument (afterEach f (querySelectorAll (hasClass c) (document pg))) pg).
Proof.
  intros Hno. unfold timePass, andThen at 1, gets.
  apply forEachElement_run.
  - intros element pg'. by exists true.
  - intros g p Hg Hp. simpl in Hg.
    apply (proj1 (noneNested_spec _) Hno); by apply class_elements_time.
Qed.

(** What a round does to a time element: it rewrites the elements of
    class [c] and leaves the others as they are. *)
Lemma timePass_at pg p x :
  noneNested (querySelectorAll isTimeElement (document pg)) = true ->
  p <> [] -> nodeAt p (document pg) = Some x -> isTimeElement x = true ->
  nodeAt p (document (snd (timePass H c pg)))
  = Some (if hasClass c x then f x else x).
Proof.
  intros Hno Hne Hx Ht. rewrite (timePass_run pg Hno). simpl.
  assert (Hp : p ∈ querySelectorAll isTimeElement (document pg)).
  { apply elem_of_querySelectorAll. split; [done|]. by exists x. }
  pose proof (proj1 (noneNested_spec _) Hno) as Hno'.
  destruct (hasClass c x) eqn:Hc.
  - rewrite afterEach_at, Hx; [done|apply NoDup_querySelectorAll| |].
    + intros g q Hg Hq. apply Hno'; by apply class_elements_time.
    + apply elem_of_querySelectorAll. split; [done|]. by exists x.
  - rewrite afterEach_apart; [done|]. intros q Hq.
    apply apart_of_not_nested.
    + intros ->. apply elem_of_querySelectorAll in Hq as [_ (y&Hy&Hs)]. congruence.
    + apply Hno'; [by apply class_elements_time|done].
    + apply Hno'; [done|by apply class_elements_time].
Qed.

Lemma timePass_time_elements pg :
  noneNested (querySelectorAll isTimeElement (document pg)) = true ->
  querySelectorAll isTimeElement (document (snd (timePass H c pg)))
  = querySelectorAll isTimeElement (document pg).
Proof.
  intros Hno. rewrite (timePass_run pg Hno). simpl.
  apply afterEach_time_elements; [done|]. apply class_elements_time.
Qed.
End time_pass.

Lemma convertUTCToLocal_passes H pg :
  convertUTCToLocal H pg
  = (timePass H "utc-to-local-long";; timePass H "utc-to-local-medium";;
     timePass H "utc-to-local-short";; ret tt) pg.
Proof. reflexivity. Qed.

Lemma timePass_completes H c pg :
  c ∈ timeClassNames ->
  noneNested (querySelectorAll isTimeElement (document pg)) = true ->
  fst (timePass H c pg) = Return tt.
Proof. intros Hc Hno. by rewrite timePass_run. Qed.

(** With no time element inside another, an element that carries exactly
    one time class ends up as the body of the loop for that class makes
    it. *)
Lemma convertUTCToLocal_at H pg p e kids c :
  noneNested (querySelectorAll isTimeElement (document pg)) = true ->
  p <> [] ->
  nodeAt p (document pg) = Some (Element e kids) ->
  timeClassesOf e = [c] ->
  fst (convertUTCToLocal H pg) = Return tt
  /\ nodeAt p (document (snd (convertUTCToLocal H pg)))
     = Some (localizeElement H (resolvedTimeZone H) c (Element e kids)).
Proof.
  intros Hno Hne Hx Hc.
  assert (Hlong : "utc-to-local-long" ∈ timeClassNames) by (by vm_compute; left).
  assert (Hmedium : "utc-to-local-medium" ∈ timeClassNames)
    by (apply list_elem_of_further, list_elem_of_here).
  assert (Hshort : "utc-to-local-short" ∈ timeClassNames)
    by (do 2 apply list_elem_of_further; apply list_elem_of_here).
  assert (Htime : forall kids', isTimeElement (Element e kids') = true).
  { intros kids'. unfold isTimeElement, timeClassNames, timeClassesOf in *. simpl.
    unfold timeClassNames in Hc. rewrite !filter_cons, filter_nil in Hc.
    repeat (destruct (decide _) in Hc); repeat case_bool_decide; done. }
  assert (Hhas : forall c' kids', c' ∈ timeClassNames ->
            hasClass c' (Element e kids') = bool_decide (c' = c)).
  { intros c' kids' Hc'. unfold timeClassesOf, timeClassNames in *. simpl.
    rewrite !filter_cons, filter_nil in Hc.
    repeat (apply elem_of_cons in Hc' as [->|Hc']); [| | |by apply elem_of_nil in Hc'];
      repeat (destruct (decide _) in Hc); simplify_eq;
      repeat case_bool_decide; done. }
  set (tz := resolvedTimeZone H).
  (* the three rounds *)
  rewrite convertUTCToLocal_passes. unfold andThen.
  pose proof (timePass_completes H _ pg Hlong Hno) as Hr1.
  pose proof (timePass_at H _ Hlong pg p _ Hno Hne Hx (Htime kids)) as Hx1.
  pose proof (timePass_time_elements H _ Hlong pg Hno) as Ht1.
  destruct (timePass H "utc-to-local-long" pg) as [r1 pg1]. cbn [fst snd] in Hr1, Hx1, Ht1.
  subst r1. rewrite <- Ht1 in Hno.
  destruct (localizeElement_props H tz "utc-to-local-long" e kids) as (k1&Hk1&_).
  assert (exists kids1, nodeAt p (document pg1) = Some (Element e kids1)
            /\ Element e kids1
               = if bool_decide ("utc-to-local-long" = c)
                 then localizeElement H tz "utc-to-local-long" (Element e kids)
                 else Element e kids) as (kids1&Hx1'&Hv1).
  { rewrite Hhas in Hx1 by done. fold tz in Hx1.
    destruct (bool_decide ("utc-to-local-long" = c)); [|by exists kids].
    exists k1. by rewrite <- Hk1. }
  clear Hx1.
  pose proof (timePass_completes H _ pg1 Hmedium Hno) as Hr2.
  pose proof (timePass_at H _ Hmedium pg1 p _ Hno Hne Hx1' (Htime kids1)) as Hx2.
  pose proof (timePass_time_elements H _ Hmedium pg1 Hno) as Ht2.
  destruct (timePass H "utc-to-local-medium" pg1) as [r2 pg2]. cbn [fst snd] in Hr2, Hx2, Ht2.
  subst r2. rewrite <- Ht2 in Hno.
  destruct (localizeElement_props H tz "utc-to-local-medium" e kids1) as (k2&Hk2&_).
  assert (exists kids2, nodeAt p (document pg2) = Some (Element e kids2)
            /\ Element e kids2
               = if bool_decide ("utc-to-local-medium" = c)
                 then localizeElement H tz "utc-to-local-medium" (Element e kids1)
                 else Element e kids1) as (kids2&Hx2'&Hv2).
  { rewrite Hhas in Hx2 by done. fold tz in Hx2.
    destruct (bool_decide ("utc-to-local-medium" = c)); [|by exists kids1].
    exists k2. by rewrite <- Hk2. }
  clear Hx2.
  pose proof (timePass_completes H _ pg2 Hshort Hno) as Hr3.
  pose proof (timePass_at H _ Hshort pg2 p _ Hno Hne Hx2' (Htime kids2)) as Hx3.
  destruct (timePass H "utc-to-local-short" pg2) as [r3 pg3]. cbn [fst snd] in Hr3, Hx3.
  subst r3. cbn [fst snd ret]. split; [done|].
  rewrite Hx3, Hhas by done. fold tz. f_equal.
  assert (c ∈ timeClassNames) as Hcin.
  { assert (c ∈ timeClassesOf e) as Hin by (rewrite Hc; apply list_elem_of_here).
    unfold timeClassesOf in Hin. by apply list_elem_of_filter in Hin as [_ ?]. }
  unfold timeClassNames in Hcin.
  repeat (apply elem_of_cons in Hcin as [->|Hcin]); [| | |by apply elem_of_nil in Hcin].
  - rewrite bool_decide_eq_true_2 in Hv1 by done.
    rewrite bool_decide_eq_false_2 in Hv2 by done.
    rewrite bool_decide_eq_false_2 by done. congruence.
  - rewrite bool_decide_eq_false_2 in Hv1 by done.
    rewrite bool_decide_eq_true_2 in Hv2 by done.
    rewrite bool_decide_eq_false_2 by done. congruence.
  - rewrite bool_decide_eq_false_2 in Hv1 by done.
    rewrite bool_decide_eq_false_2 in Hv2 by done.
    rewrite bool_decide_eq_true_2 by done. congruence.
Qed.

(** C4. With no time element inside another, an element that carries
    exactly one of the three time classes and whose trimmed text parses as a
    date ends up with that date formatted for the locale ["en-CA"] in the
    viewer's time zone: for ["utc-to-local-long"] the numeric date (2-digit
    month and day), a space, and the time with 2-digit hour, minute and
    second and [hour12] false; for ["utc-to-local-medium"] the numeric date
    only; for ["utc-to-local-short"] the date with a long month and a numeric
    day. *)
Theorem convertUTCToLocal_formats H pg p e kids c :
  noneNested (querySelectorAll isTimeElement (document pg)) = true ->
  p <> [] ->
  nodeAt p (document pg) = Some (Element e kids) ->
  timeClassesOf e = [c] ->
  let date := dateTimeValue H (trim H (textContent (Element e kids))) in
  isNaN date = false ->
  let tz := Some (resolvedTimeZone H) in
  let numericDate :=
    {| timeZone := tz; year := Some "numeric"; month := Some "2-digit";
       day := Some "2-digit"; hour := None; minute := None; second := None;
       hour12 := None |} in
  let time24 :=
    {| timeZone := tz; year := None; month := None; day := None;
       hour := Some "2-digit"; minute := Some "2-digit"; second := Some "2-digit";
       hour12 := Some false |} in
  let longMonth :=
    {| timeZone := tz; year := Some "numeric"; month := Some "long";
       day := Some "numeric"; hour := None; minute := None; second := None;
       hour12 := None |} in
  let text :=
    if String.eqb c "utc-to-local-long" then
      formatDateTime H "en-CA" numericDate date +:+ " "
        +:+ formatDateTime H "en-CA" time24 date
    else if String.eqb c "utc-to-local-medium" then
      formatDateTime H "en-CA" numericDate date
    else formatDateTime H "en-CA" longMonth date in
  fst (convertUTCToLocal H pg) = Return tt
  /\ nodeAt p (document (snd (convertUTCToLocal H pg)))
     = Some (setTextContent text (Element e kids)).
Proof.
  intros Hno Hne Hx Hc date Hvalid tz numericDate time24 longMonth text.
  destruct (convertUTCToLocal_at H pg p e kids c Hno Hne Hx Hc) as [Hr ->].
  split; [done|]. f_equal.
  assert (c ∈ timeClassNames) as Hcin.
  { assert (c ∈ timeClassesOf e) as Hin by (rewrite Hc; apply list_elem_of_here).
    unfold timeClassesOf in Hin. by apply list_elem_of_filter in Hin as [_ ?]. }
  unfold timeClassNames in Hcin. subst text.
  unfold localizeElement, toLocaleDateString, toLocaleTimeString, toLocaleString.
  fold date. rewrite Hvalid.
  repeat (apply elem_of_cons in Hcin as [->|Hcin]); [done..|by apply elem_of_nil in Hcin].
Qed.

Lemma convertUTCToLocal_formats_witness :
  nodeAt [0; 0; 2; 0]%nat (document (snd (convertUTCToLocal sampleHost samplePage)))
  = Some (elem "SPAN" ["utc-to-local-long"] [] [Text "2024-01-02 11:04:05"]).
Proof.
  destruct (convertUTCToLocal_formats sampleHost samplePage [0; 0; 2; 0]%nat
              {| tagName := "SPAN"; classList := ["utc-to-local-long"]; attributes := [];
                 value := ""; style := []; offsetWidth := 0; offsetHeight := 0 |}
              [Text " 2024-01-02T03:04:05Z"] "utc-to-local-long")
    as [_ ->]; by vm_compute.
Defined.

(** C5. With no time element inside another, an element that carries
    exactly one of the three time classes and whose trimmed text does not
    parse as a date is rewritten all the same, without an exception: its
    text becomes ["Invalid Date Invalid Date"] for ["utc-to-local-long"]
    (date and time are formatted apart) and ["Invalid Date"] for the other
    two classes. *)
Theorem convertUTCToLocal_invalid H pg p e kids c :
  noneNested (querySelectorAll isTimeElement (document pg)) = true ->
  p <> [] ->
  nodeAt p (document pg) = Some (Element e kids) ->
  timeClassesOf e = [c] ->
  isNaN (dateTimeValue H (trim H (textContent (Element e kids)))) = true ->
  fst (convertUTCToLocal H pg) = Return tt
  /\ nodeAt p (document (snd (convertUTCToLocal H pg)))
     = Some (Element e
               [Text (if String.eqb c "utc-to-local-long"
                      then "Invalid Date Invalid Date" else "Invalid Date")]).
Proof.
  intros Hno Hne Hx Hc Hinvalid.
  destruct (convertUTCToLocal_at H pg p e kids c Hno Hne Hx Hc) as [Hr ->].
  split; [done|]. f_equal.
  unfold localizeElement, toLocaleDateString, toLocaleTimeString, toLocaleString.
  rewrite Hinvalid. by destruct (String.eqb c "utc-to-local-long").
Qed.

Lemma convertUTCToLocal_invalid_witness :
  nodeAt [0; 0; 2; 2]%nat (document (snd (convertUTCToLocal sampleHost samplePage)))
  = Some (elem "SPAN" ["utc-to-local-short"] [] [Text "Invalid Date"]).
Proof.
  destruct (convertUTCToLocal_invalid sampleHost samplePage [0; 0; 2; 2]%nat
              {| tagName := "SPAN"; classList := ["utc-to-local-short"]; attributes := [];
                 value := ""; style := []; offsetWidth := 0; offsetHeight := 0 |}
              [Text "yesterday"] "utc-to-local-short")
    as [_ ->]; by vm_compute.
Defined.

(** ** The count formatter *)

(** C6. With no element of class ["count"] inside another, each such
    element has its [innerHTML] parsed as a float.  When the number is not
    NaN the content becomes the number's locale string (the host puts in the
    grouping separators); when it is NaN the element is left exactly as it
    was. *)
Theorem formatCounts_rewrites H pg p e kids :
  noneNested (querySelectorAll (hasClass "count") (document pg)) = true ->
  p <> [] ->
  nodeAt p (document pg) = Some (Element e kids) ->
  "count" ∈ classList e ->
  let number := parseFloat H (serializeHTML H kids) in
  fst (formatCounts H pg) = Return tt
  /\ nodeAt p (document (snd (formatCounts H pg)))
     = Some (if isNaN number then Element e kids
             else Element e (parseHTML H (numberToLocaleString H number))).
Proof.
  intros Hno Hne Hx Hc number.
  assert (Hrun : formatCounts H pg
                 = (Return tt,
                    withDocument
                      (afterEach (fun n => fst (formatCount H n))
                         (querySelectorAll (hasClass "count") (document pg))) pg)).
  { unfold formatCounts, andThen at 1, gets.
    apply forEachElement_run.
    - intros element pg'. by eexists.
    - intros g q Hg Hq. by apply (proj1 (noneNested_spec _) Hno). }
  rewrite Hrun. split; [done|]. simpl.
  rewrite afterEach_at, Hx.
  - simpl. fold number. by destruct (isNaN number).
  - apply NoDup_querySelectorAll.
  - apply (proj1 (noneNested_spec _) Hno).
  - apply elem_of_querySelectorAll. split; [done|]. exists (Element e kids).
    split; [done|]. by apply bool_decide_eq_true.
Qed.

Lemma formatCounts_rewrites_witness :
  nodeAt [0; 0; 2; 3]%nat (document (snd (formatCounts sampleHost samplePage)))
  = Some (elem "SPAN" ["count"] [] [Text "12,345"])
  /\ nodeAt [0; 0; 2; 4]%nat (document (snd (formatCounts sampleHost samplePage)))
     = Some (elem "SPAN" ["count"] [] [Text "many"]).
Proof.
  split.
  - destruct (formatCounts_rewrites sampleHost samplePage [0; 0; 2; 3]%nat
                {| tagName := "SPAN"; classList := ["count"]; attributes := [];
                   value := ""; style := []; offsetWidth := 0; offsetHeight := 0 |}
                [Text "12345"]) as [_ ->];
      [by vm_compute|done|by vm_compute|apply list_elem_of_here|by vm_compute].
  - destruct (formatCounts_rewrites sampleHost samplePage [0; 0; 2; 4]%nat
                {| tagName := "SPAN"; classList := ["count"]; attributes := [];
                   value := ""; style := []; offsetWidth := 0; offsetHeight := 0 |}
                [Text "many"]) as [_ ->];
      [by vm_compute|done|by vm_compute|apply list_elem_of_here|by vm_compute].
Defined.

(** ** The sample page, run *)

(** The listener of blogpost.js asks for the replacement image, arms the
    read-count timer with the post's uid and listens on the form. *)
Example sample_blogpost_effects :
  let after := snd (blogpostSetup samplePage) in
  requests after = ["/avatar?u=1"]
  /\ timers after = [(SendReadCountRequest (Some "42"), 30000%Z)]
  /\ listeners after
     = [{| target := ElementAt [0; 0; 2; 8]%nat; eventType := "keypress";
           handler := PreventFormEnter |}]
  /\ requests (snd (runTask (SendReadCountRequest (Some "42")) after))
     = ["/avatar?u=1"; "/readcount-increment?content=post&post_uid=42"].
Proof. by vm_compute. Qed.

(** The classes of the five list items of the sample list after the setup,
    in document order: the item of the second list has none. *)
Example sample_toc_classes :
  let doc := document (snd (blogpostSetup samplePage)) in
  let classesAt p := propsAt ([0; 0; 2; 5; 1] ++ p)%nat doc ≫= fun e => Some (classList e) in
  map classesAt [[0]; [0; 1; 0]; [0; 1; 0; 1; 0]; [0; 2; 0]; [1]]%nat
  = [Some ["toclevel-1"]; Some ["toclevel-2"]; Some ["toclevel-3"]; Some [];
     Some ["toclevel-1"]].
Proof. by vm_compute. Qed.

(** The content sizer on the sample page: navbar 56, cover 900, no bottom
    nav, footer 40. *)
Example sample_content_min_height :
  (propsAt [0; 0; 2]%nat (document (snd (setContentMinHeight samplePage)))
     ≫= fun e => assocGet "minHeight" (style e))
  = Some (CalcVhMinusPx 102 996).
Proof. by vm_compute. Qed.

(** The three time elements and the two counts after the site-wide
    listener. *)
Example sample_site_texts :
  let doc := document (snd (siteDOMContentLoaded sampleHost samplePage)) in
  map (fun i => textContent <$> nodeAt [0; 0; 2; i]%nat doc) [0; 1; 2; 3; 4]%nat
  = [Some "2024-01-02 11:04:05"; Some "2024-01-02"; Some "Invalid Date";
     Some "12,345"; Some "many"].
Proof. by vm_compute. Qed.

(** A keypress of Enter on the form is cancelled, one of another key is
    not. *)
Example sample_keypress :
  let loaded := snd (blogpostSetup samplePage) in
  let pressed k :=
    fst (dispatchEvent (ElementAt [0; 0; 2; 8]%nat) "keypress"
           {| key := k; defaultPrevented := false |} loaded) in
  pressed "Enter" = Return {| key := "Enter"; defaultPrevented := true |}
  /\ pressed "a" = Return {| key := "a"; defaultPrevented := false |}
  /\ pressed "enter" = Return {| key := "enter"; defaultPrevented := false |}.
Proof. by vm_compute. Qed.

(** The sample list is not as a generator writes it (its first item holds
    two lists); without the second list it is. *)
Example sample_shapes :
  tocShaped sampleList = false
  /\ tocShaped
       (elem "UL" [] []
          [ elem "LI" [] []
              [ elem "A" [] [("href", "#intro")] [Text "Intro"];
                elem "UL" [] [] [ elem "LI" [] [] [Text "Why"] ] ];
            elem "LI" [] [] [Text "Outro"] ]) = true.
Proof. by vm_compute. Qed.

(** ** What the table of contents leaves alone *)

Lemma propsAt_app q p n : propsAt (q ++ p) n = nodeAt q n ≫= propsAt p.
Proof. unfold propsAt. rewrite nodeAt_app. by destruct (nodeAt q n). Qed.

Lemma propsAt_cons i p e kids :
  propsAt (i :: p) (Element e kids) = kids !! i ≫= propsAt p.
Proof. unfold propsAt. simpl. by destruct (kids !! i). Qed.

(** A mutation does not change the properties of an element that is not
    at or below the place of the mutation. *)
Lemma propsAt_alterAt_outside f q r n :
  ¬ q `prefix_of` r -> propsAt r (alterAt f n q) = propsAt r n.
Proof.
  revert r n. induction q as [|i q IH]; intros r n Hpre.
  { destruct Hpre. apply prefix_nil. }
  destruct n as [e kids|s]; [|done]. rewrite alterAt_cons.
  destruct r as [|j r]; [done|]. rewrite !propsAt_cons.
  destruct (decide (i = j)) as [->|Hij].
  - rewrite list_lookup_alter_eq. destruct (kids !! j) as [k|]; [|done]. simpl.
    apply IH. intros Hp. apply Hpre. by apply prefix_cons.
  - by rewrite list_lookup_alter_ne.
Qed.

Lemma stripPrefix_None q p : stripPrefix q p = None -> ¬ q `prefix_of` p.
Proof.
  revert p. induction q as [|i q IH]; intros [|j p] Hs; simplify_eq/=.
  - apply prefix_nil_not.
  - destruct (Nat.eqb_spec i j) as [->|Hne].
    + intros Hp. eapply IH; [done|]. by eapply prefix_cons_inv_2.
    + intros Hp. apply Hne. by eapply prefix_cons_inv_1.
Qed.

Lemma tagItem_li level e kids :
  hasTag "li" (Element e kids) = true ->
  tagItem level (Element e kids)
  = match querySelector (hasTag "ul") (Element e kids) with
    | Some q =>
        alterAt (addTocLevelClass (S level))
          (Element (withClassList (classListAdd ("toclevel-" +:+ pretty level)) e) kids) q
    | None => Element (withClassList (classListAdd ("toclevel-" +:+ pretty level)) e) kids
    end.
Proof.
  intros Hli. unfold tagItem. change (String.eqb (toLowerCase (tagName e)) "li")
    with (hasTag "li" (Element e kids)). rewrite Hli.
  destruct (querySelector (hasTag "ul") (Element e kids)) as [q|] eqn:Hq; [|done].
  destruct (querySelector_Some _ _ _ Hq) as [Hne _].
  by destruct q.
Qed.

Lemma tagItem_other level item :
  hasTag "li" item = false -> tagItem level item = item.
Proof.
  destruct item as [e kids|s]; [|done]. unfold tagItem.
  change (String.eqb (toLowerCase (tagName e)) "li") with (hasTag "li" (Element e kids)).
  by intros ->.
Qed.

(** An element the walk does not reach keeps its properties. *)
Lemma addTocLevelClass_not_reached fuel level ul p :
  (length p <= fuel)%nat ->
  inFirstListsWithin fuel ul p = false ->
  propsAt p (addTocLevelClass level ul) = propsAt p ul.
Proof.
  revert level ul p. induction fuel as [|fuel IH]; intros level ul p Hlen Hout.
  { destruct p; [by destruct ul|simpl in Hlen; lia]. }
  destruct p as [|i rest]; [by destruct ul|].
  destruct ul as [u items|s]; [|done].
  rewrite addTocLevelClass_element, !propsAt_cons, list_lookup_fmap.
  cbn [inFirstListsWithin] in Hout.
  destruct (items !! i) as [item|] eqn:Hi; [|done]. cbn [fmap option_fmap option_map mbind option_bind].
  destruct (hasTag "li" item) eqn:Hli; [|by rewrite tagItem_other].
  destruct item as [e kids|s]; [|done].
  rewrite tagItem_li by done. cbn [andb] in Hout.
  destruct rest as [|j rest]; [done|].
  destruct (querySelector (hasTag "ul") (Element e kids)) as [q|] eqn:Hq; [|done].
  destruct (stripPrefix q (j :: rest)) as [p'|] eqn:Hp'.
  2:{ rewrite propsAt_alterAt_outside by (by apply stripPrefix_None). done. }
  apply stripPrefix_Some in Hp'. rewrite Hp', !propsAt_app, nodeAt_alterAt.
  destruct (querySelector_Some _ _ _ Hq) as [Hne (nested&Hnested&_)].
  assert (nodeAt q (Element (withClassList (classListAdd ("toclevel-" +:+ pretty level)) e) kids)
          = nodeAt q (Element e kids)) as -> by (by destruct q).
  rewrite Hnested in Hout |- *. cbn [fmap option_fmap option_map mbind option_bind].
  apply IH; [|done].
  assert (length (j :: rest) = length (q ++ p')) as Hl by (by rewrite Hp').
  rewrite length_app in Hl. simpl in Hl, Hlen. destruct q; [done|]. simpl in Hl. lia.
Qed.

(** An element the walk reaches gets the class of its depth and keeps the
    rest of its properties. *)
Lemma addTocLevelClass_reached fuel level ul p e :
  hasTag "ul" ul = true ->
  inFirstListsWithin fuel ul p = true ->
  propsAt p ul = Some e ->
  exists d,
    itemDepth ul p = Some (S d)
    /\ propsAt p (addTocLevelClass level ul)
       = Some (withClassList (classListAdd ("toclevel-" +:+ pretty (level + d)%nat)) e).
Proof.
  revert level ul p e. induction fuel as [|fuel IH]; intros level ul p e0 Hul Hin He; [done|].
  destruct p as [|i rest]; [done|]. destruct ul as [u items|s]; [|done].
  cbn [inFirstListsWithin] in Hin.
  rewrite addTocLevelClass_element, propsAt_cons, list_lookup_fmap.
  rewrite propsAt_cons in He.
  destruct (items !! i) as [item|] eqn:Hi; [|done].
  cbn [fmap option_fmap option_map mbind option_bind] in He |- *.
  apply andb_true_iff in Hin as [Hli Hrest].
  destruct item as [e kids|s]; [|done].
  rewrite tagItem_li by done.
  destruct rest as [|j rest'].
  { exists 0%nat. split.
    - rewrite itemDepth_single, Hi. cbn [mbind option_bind]. by rewrite Hul, Hli.
    - injection He as <-. rewrite Nat.add_0_r.
      by destruct (querySelector (hasTag "ul") (Element e kids)) as [[|? ?]|]. }
  destruct (querySelector (hasTag "ul") (Element e kids)) as [q|] eqn:Hq; [|done].
  destruct (stripPrefix q (j :: rest')) as [p'|] eqn:Hp'; [|done].
  destruct (nodeAt q (Element e kids)) as [nested|] eqn:Hnested; [|done].
  apply stripPrefix_Some in Hp'.
  destruct (querySelector_Some _ _ _ Hq) as [Hqne (x&Hx&Hxul)].
  rewrite Hnested in Hx. injection Hx as <-.
  rewrite Hp', propsAt_app, Hnested in He. cbn [mbind option_bind] in He.
  destruct (IH (S level) nested p' e0 Hxul Hrest He) as (d&Hd&Hprops).
  exists (S d). split.
  - rewrite itemDepth_step, Hi, Hul. cbn [mbind option_bind]. rewrite Hp'.
    rewrite (itemDepth_through q (Element e kids) nested p'); [by rewrite Hd|..|done|].
    + by eapply inFirstListsWithin_nonempty.
    + intros q1 q2 y -> Hq2 Hy. destruct q1 as [|i1 q1].
      * injection Hy as <-. by apply hasTag_li_not_ul.
      * by eapply (querySelector_first _ _ _ (i1 :: q1) q2).
  - rewrite Hp', propsAt_app, nodeAt_alterAt.
    assert (nodeAt q (Element (withClassList (classListAdd ("toclevel-" +:+ pretty level)) e) kids)
            = nodeAt q (Element e kids)) as -> by (by destruct q).
    rewrite Hnested. cbn [fmap option_fmap option_map mbind option_bind].
    rewrite Hprops. by replace (level + S d)%nat with (S level + d)%nat by lia.
Qed.

Lemma inFirstLists_within fuel ul p :
  (length p <= fuel)%nat -> inFirstListsWithin fuel ul p = inFirstLists ul p.
Proof.
  intros Hlen. destruct (inFirstLists ul p) eqn:Hin.
  - unfold inFirstLists in Hin. by eapply inFirstListsWithin_more.
  - destruct (inFirstListsWithin fuel ul p) eqn:Hw; [|done].
    apply inFirstLists_enough in Hw. congruence.
Qed.

(** X1. [addTocLevelClass] called with level 1 on a list changes the class
    lists of the items of the first nested lists and nothing else of any
    element: such an item gets the class of its depth added, every other
    element keeps its properties. *)
Theorem addTocLevelClass_exact ul p e :
  hasTag "ul" ul = true ->
  propsAt p ul = Some e ->
  (inFirstLists ul p = true ->
   exists d, itemDepth ul p = Some d
             /\ propsAt p (addTocLevelClass 1 ul)
                = Some (withClassList (classListAdd ("toclevel-" +:+ pretty d)) e))
  /\ (inFirstLists ul p = false -> propsAt p (addTocLevelClass 1 ul) = Some e).
Proof.
  intros Hul He. split; intros Hin.
  - destruct (addTocLevelClass_reached _ 1 ul p e Hul Hin He) as (d&Hd&Hp).
    by exists (S d).
  - rewrite <- He. by apply (addTocLevelClass_not_reached (length p)).
Qed.

Lemma addTocLevelClass_exact_witness :
  classList <$> propsAt [0; 1; 0]%nat (addTocLevelClass 1 sampleList)
  = Some ["toclevel-2"]
  /\ propsAt [0; 2; 0]%nat (addTocLevelClass 1 sampleList)
     = propsAt [0; 2; 0]%nat sampleList.
Proof.
  destruct (propsAt [0; 1; 0]%nat sampleList) as [e1|] eqn:He1;
    [|by vm_compute in He1].
  destruct (propsAt [0; 2; 0]%nat sampleList) as [e2|] eqn:He2;
    [|by vm_compute in He2].
  destruct (addTocLevelClass_exact sampleList _ e1 eq_refl He1) as [Hin _].
  destruct (addTocLevelClass_exact sampleList _ e2 eq_refl He2) as [_ Hout].
  destruct (Hin eq_refl) as (d&Hd&->). rewrite (Hout eq_refl).
  split; [|done].
  assert (d = 2%nat) as -> by (vm_compute in Hd; congruence).
  vm_compute in He1. injection He1 as <-. reflexivity.
Defined.

Lemma withoutClasses_alterAt f n q :
  (forall x, nodeAt q n = Some x -> withoutClasses (f x) = withoutClasses x) ->
  withoutClasses (alterAt f n q) = withoutClasses n.
Proof.
  revert n. induction q as [|i q IH]; intros n Hf.
  { rewrite alterAt_nil. by apply Hf. }
  destruct n as [e kids|s]; [|done]. rewrite alterAt_cons. cbn [withoutClasses].
  f_equal. apply list_eq. intros j. rewrite !list_lookup_fmap.
  destruct (decide (i = j)) as [->|Hij]; [|by rewrite list_lookup_alter_ne].
  rewrite list_lookup_alter_eq. destruct (kids !! j) as [k|] eqn:Hk; [|done]. simpl.
  f_equal. apply IH. intros x Hx. apply Hf. simpl. by rewrite Hk.
Qed.

Lemma withoutClasses_addTocLevelClass_below n :
  forall q x level, nodeAt q n = Some x ->
    withoutClasses (addTocLevelClass level x) = withoutClasses x.
Proof.
  induction n as [s|u items IH] using node_forall_ind; intros q x level Hx.
  { destruct q; simplify_eq/=. done. }
  destruct q as [|i q].
  2:{ simpl in Hx. destruct (items !! i) as [k|] eqn:Hk; [|done].
      rewrite Forall_lookup in IH. by eapply IH. }
  injection Hx as <-. rewrite addTocLevelClass_element. cbn [withoutClasses].
  f_equal. apply list_eq. intros i. rewrite !list_lookup_fmap.
  destruct (items !! i) as [item|] eqn:Hi; [|done]. simpl. f_equal.
  destruct (hasTag "li" item) eqn:Hli; [|by rewrite tagItem_other].
  destruct item as [e kids|s]; [|done]. rewrite tagItem_li by done.
  destruct (querySelector (hasTag "ul") (Element e kids)) as [q|] eqn:Hq; [|done].
  rewrite withoutClasses_alterAt.
  - done.
  - intros y Hy. rewrite Forall_lookup in IH. apply (IH i _ Hi q).
    destruct (querySelector_Some _ _ _ Hq) as [Hne _]. by destruct q.
Qed.

(** X2. [addTocLevelClass] changes class lists only: the tree, the tags,
    the attributes, the values, the styles and the texts of the list are
    the same after it, at every level it is called with. *)
Theorem addTocLevelClass_classes_only level ul :
  withoutClasses (addTocLevelClass level ul) = withoutClasses ul.
Proof. by apply (withoutClasses_addTocLevelClass_below ul []). Qed.

(** X3. [setupTableOfContents] changes the container of class [toc] and
    nothing else: the console, the requests, the timers and the listeners
    are the same, an element that is not the container nor inside it keeps
    its properties, and a node beside the container is the same. *)
Theorem setupTableOfContents_elsewhere pg toc q :
  querySelector (hasClass "toc") (document pg) = Some toc ->
  ¬ toc `prefix_of` q ->
  let pg' := snd (setupTableOfContents pg) in
  sameButDocument pg pg'
  /\ propsAt q (document pg') = propsAt q (document pg)
  /\ (¬ q `prefix_of` toc -> nodeAt q (document pg') = nodeAt q (document pg)).
Proof.
  intros Htoc Hq pg'. split; [apply setupTableOfContents_sameButDocument|].
  subst pg'. rewrite (setupTableOfContents_run _ _ Htoc). simpl.
  split; [by apply propsAt_alterAt_outside|].
  intros Hq'. by apply nodeAt_alterAt_apart.
Qed.

Lemma setupTableOfContents_elsewhere_witness :
  let pg' := snd (setupTableOfContents samplePage) in
  sameButDocument samplePage pg'
  /\ propsAt [0; 0; 2]%nat (document pg') = propsAt [0; 0; 2]%nat (document samplePage)
  /\ nodeAt [0; 0; 2; 8]%nat (document pg') = nodeAt [0; 0; 2; 8]%nat (document samplePage).
Proof.
  assert (Hout : forall q, q = [0; 0; 2]%nat \/ q = [0; 0; 2; 8]%nat ->
                           ¬ [0; 0; 2; 5]%nat `prefix_of` q).
  { intros q [->| ->] [k Hk]; discriminate Hk. }
  destruct (setupTableOfContents_elsewhere samplePage [0; 0; 2; 5]%nat [0; 0; 2]%nat
              eq_refl (Hout _ (or_introl eq_refl))) as (Hsame&Hprops&_).
  destruct (setupTableOfContents_elsewhere samplePage [0; 0; 2; 5]%nat [0; 0; 2; 8]%nat
              eq_refl (Hout _ (or_intror eq_refl))) as (_&_&Hnode).
  split; [exact Hsame|]. split; [exact Hprops|].
  apply Hnode. intros [k Hk]. discriminate Hk.
Defined.

(** X4. Class lists apart, [setupTableOfContents] leaves the container as it
    was, or with the heading put before its child nodes when it shows the
    table of contents: it removes no node and changes no text, tag,
    attribute, value or style. *)
Theorem setupTableOfContents_container pg toc e kids :
  querySelector (hasClass "toc") (document pg) = Some toc ->
  nodeAt toc (document pg) = Some (Element e kids) ->
  exists container',
    nodeAt toc (document (snd (setupTableOfContents pg))) = Some container'
    /\ withoutClasses container'
       = withoutClasses
           (Element e (if hasItems (Element e kids) then tocHeading :: kids else kids)).
Proof.
  intros Htoc Hc. rewrite (setupTableOfContents_run _ _ Htoc). simpl.
  rewrite nodeAt_alterAt, Hc. eexists. split; [reflexivity|].
  unfold hasItems, topLevelList, builtToc.
  destruct (querySelector (hasTag "ul") (Element e kids)) as [q|] eqn:Hq; [|done].
  simpl. destruct (nodeAt q (Element e kids)) as [ul|] eqn:Hul; simpl; [|done].
  destruct (0 <? length (children ul))%nat; [|done].
  destruct (querySelector_Some _ _ _ Hq) as [Hne _].
  pose proof (withoutClasses_alterAt (addTocLevelClass 1) (Element e kids) q) as Hw.
  destruct q as [|i q]; [done|]. rewrite alterAt_cons in Hw.
  cbn [withoutClasses map] in Hw |- *. f_equal. f_equal.
  assert (Hw' := Hw (fun x _ => withoutClasses_addTocLevelClass_below x [] x 1 eq_refl)).
  by injection Hw'.
Qed.

Lemma setupTableOfContents_container_witness :
  exists container',
    nodeAt [0; 0; 2; 5]%nat (document (snd (setupTableOfContents samplePage)))
    = Some container'
    /\ withoutClasses container'
       = withoutClasses (elem "DIV" ["toc"] [] [tocHeading; sampleList]).
Proof.
  destruct (setupTableOfContents_container samplePage [0; 0; 2; 5]%nat _ _
              eq_refl eq_refl) as (container'&Hc&Hw).
  exists container'. split; [exact Hc|]. rewrite Hw. reflexivity.
Defined.

(** ** Loading the blog-post page, step by step *)

Lemma forEach_fetchReplacementImage_run pics pg :
  forEach pics fetchReplacementImage pg
  = (Return tt, withRequests (fun l => l ++ map (srcAt (document pg)) pics) pg).
Proof.
  revert pg. induction pics as [|p pics IH]; intros pg.
  { destruct pg as [d c r t l]. unfold withRequests. simpl. by rewrite app_nil_r. }
  simpl. unfold andThen at 1. unfold fetchReplacementImage at 1.
  unfold andThen, gets, fetch, modify. rewrite IH.
  destruct pg as [d c r t l]. unfold withRequests, srcAt, propsAt. simpl. f_equal. f_equal.
  rewrite <- app_assoc. simpl. do 2 f_equal.
  by destruct (nodeAt p d) as [[e kids|s]|].
Qed.

Lemma querySelector_onProps sel g p d :
  propsOnly sel ->
  (forall e kids, sel (Element (g e) kids) = sel (Element e kids)) ->
  querySelector sel (alterAt (onProps g) d p) = querySelector sel d.
Proof. intros Hs Hg. unfold querySelector. by rewrite querySelectorAll_onProps. Qed.

Lemma getElementById_onProps i g p d :
  (forall e, attributes (g e) = attributes e) ->
  getElementById i (alterAt (onProps g) d p) = getElementById i d.
Proof.
  intros Hg. apply querySelector_onProps; [apply hasId_propsOnly|].
  intros e kids. unfold hasId, getAttribute. by rewrite Hg.
Qed.

Lemma querySelector_hasClass_onProps c g p d :
  (forall e, classList (g e) = classList e) ->
  querySelector (hasClass c) (alterAt (onProps g) d p) = querySelector (hasClass c) d.
Proof.
  intros Hg. apply querySelector_onProps; [apply hasClass_propsOnly|].
  intros e kids. unfold hasClass. by rewrite Hg.
Qed.

Lemma querySelector_toc_hidden d p :
  querySelector (hasClass "toc")
    (alterAt (onProps (withClassList (classListAdd "d-none"))) d p)
  = querySelector (hasClass "toc") d.
Proof.
  apply querySelector_onProps; [apply hasClass_propsOnly|].
  intros e kids. by rewrite hasClass_classListAdd, orb_false_r.
Qed.

(** The listener of blogpost.js, with its lookups read in the document it
    starts from: the steps run in order and the first element that is absent
    ends the run with what was done before. *)
Lemma blogpostDOMContentLoaded_cases pg :
  blogpostDOMContentLoaded pg
  = match getElementById "post-uid" (document pg) with
    | None => (Raise (TypeError "Cannot read properties of null"), afterPictures pg)
    | Some holder =>
        match getElementById "comment" (document pg) with
        | None => (Raise (TypeError "Cannot read properties of null"), afterTimer pg holder)
        | Some area =>
            match getElementById "comment-form" (document pg) with
            | None => (Raise (TypeError "Cannot read properties of null"),
                       afterTextarea pg holder area)
            | Some form =>
                setupTableOfContents
                  (snd (addEventListener (ElementAt form) "keypress" PreventFormEnter
                          (afterTextarea pg holder area)))
            end
        end
    end.
Proof.
  unfold blogpostDOMContentLoaded.
  unfold andThen at 1. unfold gets at 1. unfold andThen at 1.
  rewrite forEach_fetchReplacementImage_run. fold (afterPictures pg).
  unfold andThen at 1. unfold gets at 1.
  change (document (afterPictures pg)) with (document pg).
  destruct (getElementById "post-uid" (document pg)) as [holder|]; [|done].
  unfold andThen at 1, deref at 1, ret at 1.
  unfold andThen at 1, gets at 1.
  unfold andThen at 1, setTimeout at 1, modify at 1.
  change (document (afterPictures pg)) with (document pg).
  assert (match nodeAt holder (document pg) with
          | Some (Element e _) => getAttribute "data-post-uid" e
          | _ => None
          end = propsAt holder (document pg) ≫= getAttribute "data-post-uid") as ->.
  { unfold propsAt. by destruct (nodeAt holder (document pg)) as [[e kids|s]|]. }
  fold (readCountTimer pg holder). fold (afterTimer pg holder).
  unfold andThen at 1, gets at 1.
  change (document (afterTimer pg holder)) with (document pg).
  destruct (getElementById "comment" (document pg)) as [area|]; [|done].
  unfold andThen at 1, deref at 1, ret at 1.
  unfold andThen at 1, mutate at 1, modify at 1.
  fold (afterTextarea pg holder area).
  unfold andThen at 1, gets at 1.
  change (document (afterTextarea pg holder area))
    with (alterAt (onProps (withValue "")) (document pg) area).
  rewrite getElementById_onProps by done.
  destruct (getElementById "comment-form" (document pg)) as [form|]; [|done].
  unfold andThen at 1, deref at 1, ret at 1.
  unfold andThen at 1.
  by unfold addEventListener at 1, modify at 1.
Qed.

Lemma document_afterListener form pg holder area :
  document (snd (addEventListener (ElementAt form) "keypress" PreventFormEnter
                   (afterTextarea pg holder area)))
  = alterAt (onProps (withValue "")) (document pg) area.
Proof. done. Qed.

(** X5. The listener of blogpost.js asks for the [src] of every element of
    class [ajax-profile-pic], in document order and before anything else
    (["null"] for an element without the attribute), and it sends no other
    request; when the post-uid holder is there it arms one timer, of 30000
    ms, for the read-count request, and none otherwise; it logs nothing.
    All this holds whether the listener completes or not.  The timer's
    task, when it fires, sends the one request for the read-count URL of
    the post. *)
Theorem blogpostDOMContentLoaded_effects pg :
  let pg' := snd (blogpostDOMContentLoaded pg) in
  requests pg'
  = requests pg ++ map (srcAt (document pg))
                     (querySelectorAll (hasClass "ajax-profile-pic") (document pg))
  /\ timers pg'
     = timers pg ++ match getElementById "post-uid" (document pg) with
                    | Some holder => [readCountTimer pg holder]
                    | None => []
                    end
  /\ console pg' = console pg
  /\ forall postUid pg0,
       runTask (SendReadCountRequest postUid) pg0
       = (Return tt,
          withRequests
            (fun l => l ++ ["/readcount-increment?content=post&post_uid="
                              +:+ default "undefined" postUid]) pg0).
Proof.
  simpl. rewrite blogpostDOMContentLoaded_cases.
  destruct (getElementById "post-uid" (document pg)) as [holder|];
    [|by rewrite app_nil_r].
  destruct (getElementById "comment" (document pg)) as [area|]; [|done].
  destruct (getElementById "comment-form" (document pg)) as [form|]; [|done].
  match goal with |- context [setupTableOfContents ?p] =>
    destruct (setupTableOfContents_sameButDocument p) as (Hc&Hr&Ht&_) end.
  by rewrite Hc, Hr, Ht.
Qed.

Lemma blogpostScript_run pg :
  blogpostScript pg
  = match querySelector (hasClass "toc") (document pg) with
    | Some toc =>
        (Return tt,
         withDocument
           (fun d => alterAt (onProps (withClassList (classListAdd "d-none"))) d toc) pg)
    | None => (Raise (TypeError "Cannot read properties of null"), pg)
    end.
Proof.
  unfold blogpostScript, andThen, gets, deref, mutate, modify, ret, throw.
  by destruct (querySelector (hasClass "toc") (document pg)).
Qed.

(** X6. Loading the blog-post page (the script's own statements, then its
    listener) completes exactly when the document has an element of class
    [toc] and elements with the ids [post-uid], [comment] and
    [comment-form]; otherwise it ends in a TypeError. *)
Theorem blogpostSetup_completes_iff pg :
  completes (blogpostSetup pg) = true
  <-> is_Some (querySelector (hasClass "toc") (document pg))
      /\ is_Some (getElementById "post-uid" (document pg))
      /\ is_Some (getElementById "comment" (document pg))
      /\ is_Some (getElementById "comment-form" (document pg)).
Proof.
  unfold blogpostSetup. unfold andThen at 1. rewrite blogpostScript_run.
  destruct (querySelector (hasClass "toc") (document pg)) as [toc|] eqn:Htoc.
  2:{ split; [done|]. by intros [[? ?] _]. }
  rewrite blogpostDOMContentLoaded_cases. cbn [document withDocument].
  rewrite !getElementById_onProps by done.
  destruct (getElementById "post-uid" (document pg)) as [holder|].
  2:{ split; [done|]. by intros (_&[? ?]&_). }
  destruct (getElementById "comment" (document pg)) as [area|].
  2:{ split; [done|]. by intros (_&_&[? ?]&_). }
  destruct (getElementById "comment-form" (document pg)) as [form|].
  2:{ split; [done|]. by intros (_&_&_&[? ?]). }
  rewrite (setupTableOfContents_run _ toc).
  - split; [|done]. intros _. by eauto.
  - rewrite document_afterListener. cbn [document withDocument].
    rewrite querySelector_hasClass_onProps by done.
    by rewrite querySelector_toc_hidden.
Qed.

Lemma blogpostSetup_completes_iff_witness :
  completes (blogpostSetup samplePage) = true
  /\ completes (blogpostSetup pageWithoutTextarea) = false.
Proof.
  split.
  - apply (proj2 (blogpostSetup_completes_iff samplePage)).
    repeat split; by eexists.
  - destruct (completes (blogpostSetup pageWithoutTextarea)) eqn:Hrun; [|done].
    apply (proj1 (blogpostSetup_completes_iff pageWithoutTextarea)) in Hrun.
    destruct Hrun as (_&_&[area Harea]&_). discriminate Harea.
Defined.

(** X7. When one of the elements with the ids [post-uid], [comment] and
    [comment-form] is absent, the listener of blogpost.js ends in a
    TypeError before it registers the key handler and before it sets up the
    table of contents: no listener is added, so Enter still submits the
    form, and the document is as it was, but for the comment textarea when
    that was found and cleared. *)
Theorem blogpostDOMContentLoaded_aborted pg :
  getElementById "post-uid" (document pg) = None
  \/ getElementById "comment" (document pg) = None
  \/ getElementById "comment-form" (document pg) = None ->
  let pg' := snd (blogpostDOMContentLoaded pg) in
  completes (blogpostDOMContentLoaded pg) = false
  /\ listeners pg' = listeners pg
  /\ (document pg' = document pg
      \/ exists area,
           getElementById "comment" (document pg) = Some area
           /\ document pg' = alterAt (onProps (withValue "")) (document pg) area).
Proof.
  simpl. rewrite blogpostDOMContentLoaded_cases.
  destruct (getElementById "post-uid" (document pg)) as [holder|]; [|by eauto].
  destruct (getElementById "comment" (document pg)) as [area|]; [|by eauto].
  destruct (getElementById "comment-form" (document pg)) as [form|].
  - by intros [|[|]].
  - intros _. split_and!; [done..|]. right. by exists area.
Qed.

Lemma blogpostDOMContentLoaded_aborted_witness :
  completes (blogpostDOMContentLoaded pageWithoutTextarea) = false
  /\ listeners (snd (blogpostDOMContentLoaded pageWithoutTextarea)) = []
  /\ timers (snd (blogpostDOMContentLoaded pageWithoutTextarea))
     = [(SendReadCountRequest None, 30000%Z)].
Proof.
  destruct (blogpostDOMContentLoaded_aborted pageWithoutTextarea
              (or_intror (or_introl eq_refl))) as (Hfail&Hl&_).
  split; [exact Hfail|]. split; [exact Hl|]. reflexivity.
Defined.

(** X8. After the blog-post page is loaded, the comment textarea is empty
    and the rest of its properties is as it was, when the textarea is not
    the [toc] container nor inside it. *)
Theorem comment_textarea_cleared pg pg' toc area :
  blogpostSetup pg = (Return tt, pg') ->
  querySelector (hasClass "toc") (document pg) = Some toc ->
  getElementById "comment" (document pg) = Some area ->
  ¬ toc `prefix_of` area ->
  exists e, propsAt area (document pg) = Some e
            /\ propsAt area (document pg') = Some (withValue "" e).
Proof.
  intros Hrun Htoc Harea Hout.
  destruct (querySelector_element _ _ _ (fun _ => eq_refl) Harea) as [e He].
  exists e. split; [done|]. revert Hrun.
  unfold blogpostSetup. unfold andThen at 1. rewrite blogpostScript_run, Htoc.
  rewrite blogpostDOMContentLoaded_cases. cbn [document withDocument].
  rewrite !getElementById_onProps by done. rewrite Harea.
  destruct (getElementById "post-uid" (document pg)) as [holder|]; [|done].
  destruct (getElementById "comment-form" (document pg)) as [form|]; [|done].
  rewrite (setupTableOfContents_run _ toc).
  2:{ rewrite document_afterListener. cbn [document withDocument].
      rewrite querySelector_hasClass_onProps by done.
      by rewrite querySelector_toc_hidden. }
  intros [= <-]. cbn [document withDocument].
  rewrite propsAt_alterAt_outside by done.
  change (document (withListeners _ ?p)) with (document p).
  change (document (afterTextarea ?p _ area))
    with (alterAt (onProps (withValue "")) (document p) area).
  cbn [document withDocument].
  rewrite propsAt_alterAt_onProps, propsAt_alterAt_outside by done.
  by rewrite He.
Qed.

Lemma comment_textarea_cleared_witness :
  exists e, propsAt [0; 0; 2; 8; 0]%nat (document samplePage) = Some e
            /\ propsAt [0; 0; 2; 8; 0]%nat (document (snd (blogpostSetup samplePage)))
               = Some (withValue "" e).
Proof.
  apply (comment_textarea_cleared samplePage _ [0; 0; 2; 5]%nat);
    [reflexivity..|].
  intros [k Hk]. discriminate Hk.
Defined.



(** ** What the loops of the site-wide script leave alone *)

(** Whatever elements are nested, a loop over elements runs its body on
    some of them and completes. *)
Lemma forEachElement_some f body l gone pg :
  (forall element pg, exists b,
      body element pg = (Return b, withDocument (fun d => alterAt f d element) pg)) ->
  exists l',
    (forall element, element ∈ l' -> element ∈ l)
    /\ forEachElement l gone body pg = (Return tt, withDocument (afterEach f l') pg).
Proof.
  intros Hbody. revert gone pg. induction l as [|element rest IH]; intros gone pg.
  { exists []. split; [done|]. by destruct pg. }
  simpl. destruct (existsb _ gone).
  - destruct (IH gone pg) as (l'&Hl'&->). exists l'. split; [|done].
    intros q Hq. by apply list_elem_of_further, Hl'.
  - unfold andThen. destruct (Hbody element pg) as [b ->].
    match goal with |- context [forEachElement rest ?g body ?p] =>
      destruct (IH g p) as (l'&Hl'&->) end.
    exists (element :: l'). split; [|by destruct pg].
    intros q [->|Hq]%elem_of_cons; [apply list_elem_of_here|].
    by apply list_elem_of_further, Hl'.
Qed.

(** A body that keeps the properties of the element it is given changes
    the properties of no element but those strictly inside it. *)
Lemma propsAt_alterAt_keeps f p q n :
  (forall x, propsAt [] (f x) = propsAt [] x) ->
  isStrictPrefix p q = false ->
  propsAt q (alterAt f n p) = propsAt q n.
Proof.
  intros Hf Hpq. destruct (decide (p `prefix_of` q)) as [Hpre|Hpre].
  2:{ by apply propsAt_alterAt_outside. }
  assert (p = q) as <-.
  { destruct (decide (p = q)) as [|Hne]; [done|].
    assert (isStrictPrefix p q = true) by (by apply isStrictPrefix_spec). congruence. }
  unfold propsAt. rewrite nodeAt_alterAt.
  destruct (nodeAt p n) as [x|]; [|done]. apply (Hf x).
Qed.

Lemma afterEach_keeps f l q doc :
  (forall x, propsAt [] (f x) = propsAt [] x) ->
  (forall element, element ∈ l -> isStrictPrefix element q = false) ->
  propsAt q (afterEach f l doc) = propsAt q doc.
Proof.
  intros Hf. revert doc. induction l as [|p rest IH]; intros doc Hl; [done|].
  unfold afterEach. simpl. fold (afterEach f rest (alterAt f doc p)).
  rewrite IH by (intros r Hr; by apply Hl, list_elem_of_further).
  apply propsAt_alterAt_keeps; [done|]. apply Hl, list_elem_of_here.
Qed.

Lemma rewritesText_props f x : rewritesText f -> propsAt [] (f x) = propsAt [] x.
Proof.
  intros Hf. specialize (Hf x). destruct x as [e kids|s].
  - by destruct Hf as (kids'&->&_).
  - by destruct (f (Text s)).
Qed.

Lemma localizeElement_rewritesText H tz c : rewritesText (localizeElement H tz c).
Proof.
  intros [e kids|s].
  - destruct (localizeElement_props H tz c e kids) as (kids'&Hf&Hk).
    exists kids'. split; [done|]. by right.
  - unfold localizeElement. by destruct (String.eqb c "utc-to-local-long").
Qed.

Lemma formatCount_props H x :
  propsAt [] (fst (formatCount H x)) = propsAt [] x.
Proof.
  destruct x as [e kids|s]; [|done]. unfold formatCount.
  by destruct (negb _).
Qed.

Lemma formatCount_rewritesText H :
  printsText H -> rewritesText (fun n => fst (formatCount H n)).
Proof.
  intros HH [e kids|s]; [|done]. unfold formatCount.
  destruct (negb _); simpl.
  - eexists. split; [done|]. right. apply HH.
  - eexists. split; [done|]. by left.
Qed.

(** The matches of a selector after a body that rewrites text were
    matches before: such a body makes no new match. *)
Lemma querySelectorAll_rewritesText sel f p n r :
  propsOnly sel -> (forall s, sel (Text s) = false) -> rewritesText f ->
  r ∈ querySelectorAll sel (alterAt f n p) -> r ∈ querySelectorAll sel n.
Proof.
  intros Hsel Htext Hf. rewrite !elem_of_querySelectorAll.
  intros [Hne (y&Hy&Hs)]. split; [done|].
  destruct y as [e kids|s]; [|by rewrite Htext in Hs].
  destruct (decide (p `prefix_of` r)) as [[s ->]|Hpre].
  2:{ pose proof (propsAt_alterAt_outside f p r n Hpre) as Hp.
      unfold propsAt in Hp. rewrite Hy in Hp. simpl in Hp.
      destruct (nodeAt r n) as [[e0 kids0|s0]|]; simpl in Hp; [|done..].
      assert (e0 = e) as -> by congruence.
      exists (Element e kids0). split; [done|]. by rewrite (Hsel e kids0 kids). }
  rewrite nodeAt_app, nodeAt_alterAt in Hy. rewrite nodeAt_app.
  destruct (nodeAt p n) as [x|]; [|done]. simpl in Hy |- *.
  pose proof (Hf x) as Hx. destruct x as [e0 kids0|s0].
  - destruct Hx as (kids'&Hfx&[->|Hk]).
    + rewrite Hfx in Hy. by exists (Element e kids).
    + rewrite Hfx in Hy. destruct s as [|j s].
      * injection Hy as -> ->. exists (Element e kids0).
        split; [done|]. by rewrite (Hsel e kids0 kids).
      * simpl in Hy. destruct (kids' !! j) as [k|] eqn:Hj; [|done].
        unfold textOnly in Hk. rewrite Forall_lookup in Hk. specialize (Hk j k Hj).
        destruct k; [done|]. by destruct s.
  - destruct (f (Text s0)) as [|s1]; [done|]. by destruct s.
Qed.

Lemma querySelectorAll_afterEach sel f l doc r :
  propsOnly sel -> (forall s, sel (Text s) = false) -> rewritesText f ->
  r ∈ querySelectorAll sel (afterEach f l doc) -> r ∈ querySelectorAll sel doc.
Proof.
  intros Hsel Htext Hf. revert doc. induction l as [|p rest IH]; intros doc; [done|].
  unfold afterEach. simpl. fold (afterEach f rest (alterAt f doc p)).
  intros Hr%IH. by eapply querySelectorAll_rewritesText.
Qed.

Lemma formatCounts_some H pg :
  exists l',
    (forall element, element ∈ l' ->
       element ∈ querySelectorAll (hasClass "count") (document pg))
    /\ formatCounts H pg
       = (Return tt, withDocument (afterEach (fun n => fst (formatCount H n)) l') pg).
Proof.
  unfold formatCounts, andThen at 1, gets.
  apply forEachElement_some. intros element pg'. by eexists.
Qed.

Lemma formatCounts_frame H pg :
  fst (formatCounts H pg) = Return tt
  /\ sameButDocument pg (snd (formatCounts H pg))
  /\ forall q,
       (forall element, element ∈ querySelectorAll (hasClass "count") (document pg) ->
                        isStrictPrefix element q = false) ->
       propsAt q (document (snd (formatCounts H pg))) = propsAt q (document pg).
Proof.
  destruct (formatCounts_some H pg) as (l'&Hl'&->).
  split; [done|]. split; [done|]. intros q Hq. simpl.
  apply afterEach_keeps; [apply formatCount_props|].
  intros element Hel. by apply Hq, Hl'.
Qed.

(** X10. [formatCounts] completes on every page, whatever its count
    elements hold and however they are nested; it changes the document
    only, and there only what is inside an element of class [count]: an
    element that is not strictly inside one keeps its properties. *)
Theorem formatCounts_elsewhere H pg :
  fst (formatCounts H pg) = Return tt
  /\ sameButDocument pg (snd (formatCounts H pg))
  /\ forall q,
       (forall element, element ∈ querySelectorAll (hasClass "count") (document pg) ->
                        isStrictPrefix element q = false) ->
       propsAt q (document (snd (formatCounts H pg))) = propsAt q (document pg).
Proof. apply formatCounts_frame. Qed.

Lemma formatCounts_elsewhere_witness :
  fst (formatCounts sampleHost samplePage) = Return tt
  /\ propsAt [0; 0; 2; 3]%nat (document (snd (formatCounts sampleHost samplePage)))
     = propsAt [0; 0; 2; 3]%nat (document samplePage).
Proof.
  destruct (formatCounts_elsewhere sampleHost samplePage) as (Hrun&_&Hq).
  split; [exact Hrun|]. apply Hq.
  intros element Hel. vm_compute in Hel.
  repeat (apply elem_of_cons in Hel as [->|Hel]); [done..|].
  by apply elem_of_nil in Hel.
Defined.

Lemma timePass_some H c pg :
  exists l',
    (forall element, element ∈ l' ->
       element ∈ querySelectorAll (hasClass c) (document pg))
    /\ timePass H c pg
       = (Return tt,
          withDocument (afterEach (localizeElement H (resolvedTimeZone H) c) l') pg).
Proof.
  unfold timePass, andThen at 1, gets.
  apply forEachElement_some. intros element pg'. by exists true.
Qed.

(** A round of the time localizer: it completes, it changes the document
    only, what is not strictly inside a time element keeps its properties,
    and the time elements after it were time elements before. *)
Lemma timePass_elsewhere H c pg :
  c ∈ timeClassNames ->
  fst (timePass H c pg) = Return tt
  /\ sameButDocument pg (snd (timePass H c pg))
  /\ (forall r, r ∈ querySelectorAll isTimeElement (document (snd (timePass H c pg))) ->
                r ∈ querySelectorAll isTimeElement (document pg))
  /\ forall q,
       (forall element, element ∈ querySelectorAll isTimeElement (document pg) ->
                        isStrictPrefix element q = false) ->
       propsAt q (document (snd (timePass H c pg))) = propsAt q (document pg).
Proof.
  intros Hc. destruct (timePass_some H c pg) as (l'&Hl'&->).
  split; [done|]. split; [done|]. simpl. split.
  - intros r. apply querySelectorAll_afterEach;
      [apply isTimeElement_propsOnly|apply isTimeElement_text
      |apply localizeElement_rewritesText].
  - intros q Hq. apply afterEach_keeps.
    + intros x. apply rewritesText_props, localizeElement_rewritesText.
    + intros element Hel. by apply Hq, (class_elements_time c Hc), Hl'.
Qed.

Lemma convertUTCToLocal_frame H pg :
  fst (convertUTCToLocal H pg) = Return tt
  /\ sameButDocument pg (snd (convertUTCToLocal H pg))
  /\ (forall r, r ∈ querySelectorAll isTimeElement
                     (document (snd (convertUTCToLocal H pg))) ->
                r ∈ querySelectorAll isTimeElement (document pg))
  /\ forall q,
       (forall element, element ∈ querySelectorAll isTimeElement (document pg) ->
                        isStrictPrefix element q = false) ->
       propsAt q (document (snd (convertUTCToLocal H pg))) = propsAt q (document pg).
Proof.
  assert (Hlong : "utc-to-local-long" ∈ timeClassNames) by apply list_elem_of_here.
  assert (Hmedium : "utc-to-local-medium" ∈ timeClassNames)
    by (apply list_elem_of_further, list_elem_of_here).
  assert (Hshort : "utc-to-local-short" ∈ timeClassNames)
    by (do 2 apply list_elem_of_further; apply list_elem_of_here).
  rewrite convertUTCToLocal_passes. unfold andThen.
  destruct (timePass_elsewhere H _ pg Hlong) as (Hr1&Hs1&Ht1&Hq1).
  destruct (timePass H "utc-to-local-long" pg) as [r1 pg1].
  cbn [fst snd] in Hr1, Hs1, Ht1, Hq1. subst r1.
  destruct (timePass_elsewhere H _ pg1 Hmedium) as (Hr2&Hs2&Ht2&Hq2).
  destruct (timePass H "utc-to-local-medium" pg1) as [r2 pg2].
  cbn [fst snd] in Hr2, Hs2, Ht2, Hq2. subst r2.
  destruct (timePass_elsewhere H _ pg2 Hshort) as (Hr3&Hs3&Ht3&Hq3).
  destruct (timePass H "utc-to-local-short" pg2) as [r3 pg3].
  cbn [fst snd] in Hr3, Hs3, Ht3, Hq3. subst r3. cbn [fst snd ret].
  split; [done|]. split_and!.
  - destruct Hs1 as (?&?&?&?), Hs2 as (?&?&?&?), Hs3 as (?&?&?&?).
    repeat split; congruence.
  - intros r Hr. by apply Ht1, Ht2, Ht3.
  - intros q Hq. rewrite Hq3, Hq2, Hq1; [done|done|..].
    + intros element Hel. by apply Hq, Ht1.
    + intros element Hel. by apply Hq, Ht1, Ht2.
Qed.

(** X11. [convertUTCToLocal] completes on every page, whatever its time
    elements hold and however they are nested; it changes the document
    only, and there only what is inside an element with a time class: an
    element that is not strictly inside one keeps its properties, and no
    new time element appears. *)
Theorem convertUTCToLocal_elsewhere H pg :
  fst (convertUTCToLocal H pg) = Return tt
  /\ sameButDocument pg (snd (convertUTCToLocal H pg))
  /\ (forall r, r ∈ querySelectorAll isTimeElement
                     (document (snd (convertUTCToLocal H pg))) ->
                r ∈ querySelectorAll isTimeElement (document pg))
  /\ forall q,
       (forall element, element ∈ querySelectorAll isTimeElement (document pg) ->
                        isStrictPrefix element q = false) ->
       propsAt q (document (snd (convertUTCToLocal H pg))) = propsAt q (document pg).
Proof. apply convertUTCToLocal_frame. Qed.

Lemma convertUTCToLocal_elsewhere_witness :
  fst (convertUTCToLocal sampleHost samplePage) = Return tt
  /\ propsAt [0; 0; 2; 0]%nat (document (snd (convertUTCToLocal sampleHost samplePage)))
     = propsAt [0; 0; 2; 0]%nat (document samplePage).
Proof.
  destruct (convertUTCToLocal_elsewhere sampleHost samplePage) as (Hrun&_&_&Hq).
  split; [exact Hrun|]. apply Hq.
  intros element Hel. vm_compute in Hel.
  repeat (apply elem_of_cons in Hel as [->|Hel]); [done..|].
  by apply elem_of_nil in Hel.
Defined.

Lemma isTimeElement_rewritten H c x :
  isTimeElement (if hasClass c x then localizeElement H (resolvedTimeZone H) c x else x)
  = isTimeElement x.
Proof.
  destruct x as [e kids|s]; [|done]. destruct (hasClass c _); [|done].
  destruct (localizeElement_props H (resolvedTimeZone H) c e kids) as (kids'&->&_).
  apply isTimeElement_propsOnly.
Qed.

(** X12. With no time element inside another, [convertUTCToLocal] leaves a
    time element as its three rounds make it one after the other, in the
    order long, medium, short: an element with several time classes is
    rewritten once for each, every round reading the text the round before
    wrote. *)
Theorem convertUTCToLocal_in_turn H pg p x :
  noneNested (querySelectorAll isTimeElement (document pg)) = true ->
  p <> [] ->
  nodeAt p (document pg) = Some x ->
  isTimeElement x = true ->
  nodeAt p (document (snd (convertUTCToLocal H pg))) = Some (localizedInTurn H x).
Proof.
  intros Hno Hne Hx Ht.
  assert (Hlong : "utc-to-local-long" ∈ timeClassNames) by apply list_elem_of_here.
  assert (Hmedium : "utc-to-local-medium" ∈ timeClassNames)
    by (apply list_elem_of_further, list_elem_of_here).
  assert (Hshort : "utc-to-local-short" ∈ timeClassNames)
    by (do 2 apply list_elem_of_further; apply list_elem_of_here).
  rewrite convertUTCToLocal_passes. unfold andThen.
  pose proof (timePass_completes H _ pg Hlong Hno) as Hr1.
  pose proof (timePass_at H _ Hlong pg p _ Hno Hne Hx Ht) as Hx1.
  pose proof (timePass_time_elements H _ Hlong pg Hno) as Ht1.
  destruct (timePass H "utc-to-local-long" pg) as [r1 pg1].
  cbn [fst snd] in Hr1, Hx1, Ht1. subst r1. rewrite <- Ht1 in Hno.
  rewrite <- (isTimeElement_rewritten H "utc-to-local-long") in Ht.
  pose proof (timePass_completes H _ pg1 Hmedium Hno) as Hr2.
  pose proof (timePass_at H _ Hmedium pg1 p _ Hno Hne Hx1 Ht) as Hx2.
  pose proof (timePass_time_elements H _ Hmedium pg1 Hno) as Ht2.
  destruct (timePass H "utc-to-local-medium" pg1) as [r2 pg2].
  cbn [fst snd] in Hr2, Hx2, Ht2. subst r2. rewrite <- Ht2 in Hno.
  rewrite <- (isTimeElement_rewritten H "utc-to-local-medium") in Ht.
  pose proof (timePass_completes H _ pg2 Hshort Hno) as Hr3.
  pose proof (timePass_at H _ Hshort pg2 p _ Hno Hne Hx2 Ht) as Hx3.
  destruct (timePass H "utc-to-local-short" pg2) as [r3 pg3].
  cbn [fst snd] in Hr3, Hx3. subst r3. cbn [fst snd ret]. exact Hx3.
Qed.

Lemma convertUTCToLocal_in_turn_witness :
  let x := elem "SPAN" ["utc-to-local-long"; "utc-to-local-short"] []
             [Text "2024-01-02T03:04:05Z"] in
  let pg := pageOf (elem "#document" [] [] [x]) in
  nodeAt [0]%nat (document (snd (convertUTCToLocal sampleHost pg)))
  = Some (elem "SPAN" ["utc-to-local-long"; "utc-to-local-short"] []
            [Text "Invalid Date"]).
Proof.
  intros x pg.
  rewrite (convertUTCToLocal_in_turn sampleHost pg [0]%nat x);
    [reflexivity|by vm_compute|done|reflexivity|reflexivity].
Defined.

(** ** Replacing the content of an element *)

Lemma filter_none {A} (P : A -> Prop) `{!forall x, Decision (P x)} (l : list A) :
  (forall x, x ∈ l -> ¬ P x) -> filter P l = [].
Proof.
  induction l as [|x l IH]; intros Hl; [done|].
  rewrite filter_cons_False by (apply Hl, list_elem_of_here).
  apply IH. intros y Hy. by apply Hl, list_elem_of_further.
Qed.

Lemma filter_all {A} (P : A -> Prop) `{!forall x, Decision (P x)} (l : list A) :
  (forall x, x ∈ l -> P x) -> filter P l = l.
Proof.
  induction l as [|x l IH]; intros Hl; [done|].
  rewrite filter_cons_True by (apply Hl, list_elem_of_here).
  f_equal. apply IH. intros y Hy. by apply Hl, list_elem_of_further.
Qed.

Lemma filter_map_cons (P P' : path -> Prop) `{!forall x, Decision (P x)}
    `{!forall x, Decision (P' x)} (b : nat) (l : list path) :
  (forall r, P (b :: r) <-> P' r) ->
  filter P (map (cons b) l) = map (cons b) (filter P' l).
Proof.
  intros HP. induction l as [|r l IH]; [done|].
  change (map (cons b) (r :: l)) with ((b :: r) :: map (cons b) l).
  destruct (decide (P' r)) as [Hr|Hr].
  - rewrite filter_cons_True by (by apply HP).
    rewrite (filter_cons_True P') by done. cbn [map]. f_equal. exact IH.
  - rewrite filter_cons_False by (by rewrite HP).
    rewrite (filter_cons_False P') by done. exact IH.
Qed.

Lemma isStrictPrefix_nil_r p : isStrictPrefix p [] = false.
Proof. by destruct p. Qed.

Lemma selectBelow_heads sel l c r :
  r ∈ selectBelow sel l c -> exists j r', r = j :: r' /\ (c <= j)%nat.
Proof.
  revert c. induction l as [|k l IH]; intros c; [by intros ?%elem_of_nil|].
  rewrite selectBelow_cons, !elem_of_app. intros [Hr|[Hr|Hr]].
  - destruct (sel k); [|by apply elem_of_nil in Hr].
    apply list_elem_of_singleton in Hr as ->. by exists c, [].
  - apply list_elem_of_fmap in Hr as (r'&->&_). by exists c, r'.
  - destruct (IH _ Hr) as (j&r'&->&Hj). exists j, r'. split; [done|lia].
Qed.

Lemma selectBelow_alter_filter sel h p' kids i b :
  (forall k, kids !! i = Some k ->
     sel (h k) = sel k
     /\ querySelectorAll sel (h k)
        = filter (fun r => isStrictPrefix p' r = false) (querySelectorAll sel k)) ->
  selectBelow sel (alter h i kids) b
  = filter (fun r => isStrictPrefix ((b + i)%nat :: p') r = false) (selectBelow sel kids b).
Proof.
  revert i b. induction kids as [|k l IH]; intros i b Hk; [done|].
  destruct i as [|i].
  - change (alter h 0%nat (k :: l)) with (h k :: l).
    rewrite !selectBelow_cons, !filter_app. destruct (Hk k eq_refl) as [-> ->].
    rewrite Nat.add_0_r. f_equal; [|f_equal].
    + destruct (sel k); [|done]. rewrite filter_cons_True; [done|].
      simpl. by rewrite Nat.eqb_refl, isStrictPrefix_nil_r.
    + symmetry. apply filter_map_cons. intros r. simpl. by rewrite Nat.eqb_refl.
    + symmetry. apply filter_all. intros r Hr.
      destruct (selectBelow_heads _ _ _ _ Hr) as (j&r'&->&Hj). simpl.
      destruct (Nat.eqb_spec b j); [lia|done].
  - change (alter h (S i) (k :: l)) with (k :: alter h i l).
    rewrite !selectBelow_cons, !filter_app. f_equal; [|f_equal].
    + symmetry. apply filter_all. intros r Hr.
      destruct (sel k); [|by apply elem_of_nil in Hr].
      apply list_elem_of_singleton in Hr as ->. simpl.
      destruct (Nat.eqb_spec (b + S i) b); [lia|done].
    + symmetry. apply filter_all. intros r Hr.
      apply list_elem_of_fmap in Hr as (r'&->&_). simpl.
      destruct (Nat.eqb_spec (b + S i) b); [lia|done].
    + rewrite IH by (intros k' Hk'; by apply Hk).
      by replace (S b + i)%nat with (b + S i)%nat by lia.
Qed.

(** When the children of the element at [p] are replaced by nodes that are
    no elements, the matches of a selector are those that were not inside
    that element, in the same order. *)
Lemma querySelectorAll_alterAt_filter sel f p n :
  propsOnly sel -> (forall s, sel (Text s) = false) ->
  (forall x, nodeAt p n = Some x ->
     exists e kids kids', x = Element e kids /\ f x = Element e kids' /\ textOnly kids') ->
  sel (alterAt f n p) = sel n
  /\ querySelectorAll sel (alterAt f n p)
     = filter (fun r => isStrictPrefix p r = false) (querySelectorAll sel n).
Proof.
  intros Hsel Htext. revert n. induction p as [|i p IH]; intros n Hx.
  { rewrite alterAt_nil. destruct (Hx n eq_refl) as (e&kids&kids'&->&->&Hk).
    split; [apply Hsel|].
    rewrite (querySelectorAll_no_elements _ _ _ Htext Hk). symmetry.
    apply filter_none. intros r Hr.
    apply elem_of_querySelectorAll in Hr as [Hne _]. by destruct r. }
  destruct n as [e kids|s]; [|done].
  rewrite alterAt_cons. split; [apply Hsel|].
  rewrite !querySelectorAll_element.
  rewrite (selectBelow_alter_filter sel _ p kids i 0); [done|].
  intros k Hk. apply IH. intros x Hxk. apply Hx. simpl. by rewrite Hk.
Qed.

(** The first match stays the first match when it is not inside the element
    whose children are replaced. *)
Lemma querySelector_alterAt_text sel f p q n :
  propsOnly sel -> (forall s, sel (Text s) = false) ->
  (forall x, nodeAt p n = Some x ->
     exists e kids kids', x = Element e kids /\ f x = Element e kids' /\ textOnly kids') ->
  querySelector sel n = Some q ->
  isStrictPrefix p q = false ->
  querySelector sel (alterAt f n p) = Some q.
Proof.
  intros Hsel Htext Hf Hq Hpq. unfold querySelector in *.
  destruct (querySelectorAll_alterAt_filter sel f p n Hsel Htext Hf) as [_ ->].
  destruct (querySelectorAll sel n) as [|q' l]; simplify_eq/=.
  by rewrite filter_cons_True.
Qed.

(** ** The year tags *)

Lemma updateCurrentYear_run H pg :
  updateCurrentYear H pg
  = (Return tt,
     withDocument (fun d =>
       let d1 := match getElementById "yearTag" d with
                 | Some p => alterAt (withChildren (yearNodes H)) d p
                 | None => d
                 end in
       match getElementById "yearTagMobile" d1 with
       | Some q => alterAt (withChildren (yearNodes H)) d1 q
       | None => d1
       end) pg).
Proof.
  unfold updateCurrentYear, andThen, gets, mutate, modify, ret.
  destruct pg as [d c r t l]. unfold withDocument. simpl.
  destruct (getElementById "yearTag" d) as [p|]; simpl.
  - fold (withChildren (yearNodes H)).
    by destruct (getElementById "yearTagMobile" _).
  - fold (withChildren (yearNodes H)).
    by destruct (getElementById "yearTagMobile" d).
Qed.

Lemma withChildren_text kids' sel p n :
  (forall s, sel (Text s) = false) -> textOnly kids' ->
  querySelector sel n = Some p ->
  forall x, nodeAt p n = Some x ->
    exists e kids k', x = Element e kids /\ withChildren kids' x = Element e k'
                      /\ textOnly k'.
Proof.
  intros Htext Hk [_ (y&Hy&Hs)]%querySelector_Some x Hx.
  rewrite Hx in Hy. injection Hy as <-.
  destruct x as [e kids|s]; [|by rewrite Htext in Hs]. by exists e, kids, kids'.
Qed.

(** X15. When the year prints as text and the two year tags stand apart,
    [updateCurrentYear] gives both the same content, the current year, and
    leaves their properties as they are. *)
Theorem updateCurrentYear_tags H pg p q :
  textOnly (yearNodes H) ->
  getElementById "yearTag" (document pg) = Some p ->
  getElementById "yearTagMobile" (document pg) = Some q ->
  ¬ p `prefix_of` q -> ¬ q `prefix_of` p ->
  exists e1 e2,
    propsAt p (document pg) = Some e1
    /\ propsAt q (document pg) = Some e2
    /\ nodeAt p (document (snd (updateCurrentYear H pg)))
       = Some (Element e1 (yearNodes H))
    /\ nodeAt q (document (snd (updateCurrentYear H pg)))
       = Some (Element e2 (yearNodes H)).
Proof.
  intros Hyear Hp Hq Hpq Hqp.
  destruct (querySelector_element _ _ _ (fun _ => eq_refl) Hp) as [e1 He1].
  destruct (querySelector_element _ _ _ (fun _ => eq_refl) Hq) as [e2 He2].
  exists e1, e2. split; [done|]. split; [done|].
  rewrite updateCurrentYear_run. cbn [snd document withDocument]. rewrite Hp.
  cbv zeta.
  assert (getElementById "yearTagMobile"
            (alterAt (withChildren (yearNodes H)) (document pg) p) = Some q) as ->.
  { apply querySelector_alterAt_text;
      [apply hasId_propsOnly|done| |done|].
    - by apply (withChildren_text _ (hasId "yearTag")).
    - destruct (isStrictPrefix p q) eqn:E; [|done].
      apply isStrictPrefix_spec in E as [? _]. done. }
  unfold propsAt in He1, He2. split.
  - rewrite nodeAt_alterAt_apart by done. rewrite nodeAt_alterAt.
    by destruct (nodeAt p (document pg)) as [[e kids|s]|]; simplify_eq/=.
  - rewrite nodeAt_alterAt, nodeAt_alterAt_apart by done.
    by destruct (nodeAt q (document pg)) as [[e kids|s]|]; simplify_eq/=.
Qed.

Lemma updateCurrentYear_tags_witness :
  let pg := pageOf (elem "FOOTER" [] []
                      [elem "SPAN" [] [("id", "yearTag")] [];
                       elem "SPAN" [] [("id", "yearTagMobile")] [Text "2020"]]) in
  nodeAt [0]%nat (document (snd (updateCurrentYear sampleHost pg)))
  = Some (elem "SPAN" [] [("id", "yearTag")] [Text "2024"])
  /\ nodeAt [1]%nat (document (snd (updateCurrentYear sampleHost pg)))
     = Some (elem "SPAN" [] [("id", "yearTagMobile")] [Text "2024"]).
Proof.
  intros pg.
  destruct (updateCurrentYear_tags sampleHost pg [0]%nat [1]%nat) as (e1&e2&He1&He2&H1&H2).
  - apply Forall_cons. split; [reflexivity|apply Forall_nil; exact I].
  - reflexivity.
  - reflexivity.
  - intros [k Hk]. discriminate Hk.
  - intros [k Hk]. discriminate Hk.
  - vm_compute in He1, He2. injection He1 as <-. injection He2 as <-.
    split; [exact H1|exact H2].
Defined.

(** ** The content sizer *)

Lemma propsAt_alterAt_onProps_at g p q n :
  propsAt q (alterAt (onProps g) n p)
  = (if decide (p = q) then g else id) <$> propsAt q n.
Proof.
  destruct (decide (p = q)) as [->|Hne].
  - apply propsAt_alterAt_onProps.
  - rewrite propsAt_alterAt_onProps_ne by done. by destruct (propsAt q n).
Qed.

Lemma heightOf_propsAt c doc :
  heightOf c doc
  = from_option offsetHeight 0%Z
      (querySelector (hasClass c) doc ≫= fun p => propsAt p doc).
Proof.
  unfold heightOf, propsAt.
  destruct (querySelector (hasClass c) doc) as [p|]; [|done]. simpl.
  by destruct (nodeAt p doc) as [[e kids|s]|].
Qed.

Lemma heightOf_setStyle c name v p doc :
  heightOf c (alterAt (onProps (setStyle name v)) doc p) = heightOf c doc.
Proof.
  rewrite !heightOf_propsAt, querySelector_hasClass_onProps by done.
  destruct (querySelector (hasClass c) doc) as [q|]; [|done]. simpl.
  rewrite propsAt_alterAt_onProps_at.
  destruct (propsAt q doc) as [e|]; [|done]. simpl. by destruct (decide (p = q)).
Qed.

Lemma chromeHeight_setStyle name v p doc :
  chromeHeight (alterAt (onProps (setStyle name v)) doc p) = chromeHeight doc.
Proof. unfold chromeHeight. by rewrite !heightOf_setStyle. Qed.

Lemma setContentMinHeight_at pg content e :
  querySelector (hasClass "content") (document pg) = Some content ->
  propsAt content (document pg) = Some e ->
  setContentMinHeight pg
  = (Return tt,
     withDocument (fun doc =>
       alterAt (onProps (setStyle "minHeight"
                  (CalcVhMinusPx 102 (chromeHeight (document pg))))) doc content) pg)
  /\ contentRule (snd (setContentMinHeight pg)).
Proof.
  intros Hq He. rewrite setContentMinHeight_run, Hq. fold (chromeHeight (document pg)).
  split; [done|]. cbn [snd]. exists content. eexists. cbn [document withDocument].
  rewrite querySelector_hasClass_onProps by done.
  rewrite propsAt_alterAt_onProps, He, chromeHeight_setStyle.
  split; [done|]. split; [done|]. apply assocGet_assocSet.
Qed.

Lemma setContentMinHeight_contentRule pg :
  querySelector (hasClass "content") (document pg) <> None ->
  fst (setContentMinHeight pg) = Return tt /\ contentRule (snd (setContentMinHeight pg)).
Proof.
  intros Hc.
  destruct (querySelector (hasClass "content") (document pg)) as [content|] eqn:Hq;
    [|done].
  destruct (querySelector_element _ _ _ (fun _ => eq_refl) Hq) as [e He].
  destruct (setContentMinHeight_at pg content e Hq He) as [-> Hr]. done.
Qed.

Lemma setCoverHeight_run pg :
  setCoverHeight pg
  = match querySelector (hasClass "cover") (document pg) with
    | Some cover =>
        (Return tt,
         withDocument (fun doc =>
           alterAt (onProps (setStyle "height"
                      (Px ((9 / 21)
                           * from_option (fun e => numberOfLong (offsetWidth e)) 0
                               (propsAt cover (document pg)))%float))) doc cover) pg)
    | None => (Raise (TypeError "Cannot read properties of null"), pg)
    end.
Proof.
  unfold setCoverHeight, andThen, gets, deref, mutate, modify, ret, throw.
  destruct (querySelector (hasClass "cover") (document pg)) as [cover|]; [|done].
  unfold propsAt. by destruct (nodeAt cover (document pg)) as [[e kids|s]|].
Qed.

Lemma setCoverHeight_contentRule pg :
  contentRule pg -> contentRule (snd (setCoverHeight pg)).
Proof.
  intros (content&e&Hq&He&Hh). rewrite setCoverHeight_run.
  destruct (querySelector (hasClass "cover") (document pg)) as [cover|];
    [|by exists content, e].
  exists content. eexists. cbn [snd document withDocument].
  rewrite querySelector_hasClass_onProps by done.
  rewrite propsAt_alterAt_onProps_at, He, chromeHeight_setStyle.
  split; [done|]. split; [done|].
  destruct (decide (cover = content)); [|done].
  cbn [style setStyle withStyle]. by rewrite assocGet_assocSet_ne.
Qed.

Lemma reported_contentRule cb ev pg :
  contentRule pg -> contentRule (snd (reported cb ev pg)).
Proof.
  intros Hr. unfold reported, runCallback. destruct cb; [done| |]; unfold andThen, ret.
  - pose proof (setCoverHeight_contentRule pg Hr) as Hr'.
    by destruct (setCoverHeight pg) as [[[]|err] pg'].
  - destruct Hr as (content&e&Hq&_).
    destruct (setContentMinHeight_contentRule pg) as [Hok Hr']; [by rewrite Hq|].
    by destruct (setContentMinHeight pg) as [[[]|err] pg'].
Qed.

Lemma runListeners_contentRule ls tg type ev pg :
  contentRule pg -> contentRule (snd (runListeners ls tg type ev pg)).
Proof.
  revert ev pg. induction ls as [|l ls IH]; intros ev pg Hr; [done|].
  simpl. destruct (_ && _); [|by apply IH].
  unfold andThen. pose proof (reported_contentRule (handler l) ev pg Hr) as Hr'.
  destruct (reported_event (handler l) ev pg) as [pg1 Heq]. rewrite Heq in Hr' |- *.
  by apply IH.
Qed.

Lemma reported_keeps_content cb ev pg :
  querySelector (hasClass "content") (document (snd (reported cb ev pg)))
  = querySelector (hasClass "content") (document pg).
Proof.
  unfold reported, runCallback. destruct cb; [done| |]; unfold andThen, ret.
  - rewrite setCoverHeight_run.
    destruct (querySelector (hasClass "cover") (document pg)) as [cover|]; [|done].
    cbn [snd document withDocument]. by rewrite querySelector_hasClass_onProps.
  - rewrite setContentMinHeight_run.
    destruct (querySelector (hasClass "content") (document pg)) as [content|] eqn:Hq;
      [|exact Hq].
    cbn [snd document withDocument]. by rewrite querySelector_hasClass_onProps.
Qed.

(** Across a resize: once a [resize] event went through listeners among
    which the content sizer is, the content has its minimum height. *)
Lemma runListeners_resize_contentRule ls ev pg :
  querySelector (hasClass "content") (document pg) <> None ->
  existsb isContentSizer ls = true ->
  contentRule (snd (runListeners ls Window "resize" ev pg)).
Proof.
  revert ev pg. induction ls as [|l ls IH]; intros ev pg Hcontent Hls; [done|].
  simpl in Hls. simpl runListeners. fold (listensFor Window "resize" l).
  destruct (isContentSizer l) eqn:Hl.
  - apply andb_true_iff in Hl as [Hfor Hcb]. rewrite Hfor.
    destruct (handler l) eqn:Hh; try done.
    unfold andThen.
    destruct (reported_event SetContentMinHeight ev pg) as [pg1 Heq]. rewrite Heq.
    apply runListeners_contentRule.
    assert (pg1 = snd (reported SetContentMinHeight ev pg)) as -> by (by rewrite Heq).
    unfold reported, runCallback, andThen, ret.
    destruct (setContentMinHeight_contentRule pg Hcontent) as [Hok Hr].
    by destruct (setContentMinHeight pg) as [[[]|err] pg'].
  - simpl in Hls. destruct (listensFor Window "resize" l); [|by apply IH].
    unfold andThen.
    pose proof (reported_keeps_content (handler l) ev pg) as Hkeep.
    destruct (reported_event (handler l) ev pg) as [pg1 Heq]. rewrite Heq in Hkeep |- *.
    apply IH; [|done]. simpl in Hkeep. by rewrite Hkeep.
Qed.

(** X16. When there is a content container, [setContentMinHeight]
    completes and sets the container's [minHeight] to 102vh less the
    heights of the navbar, the cover, the bottom nav and the footer, each
    counted 0 when it is missing; it changes nothing else of any element.
    Once the sizer listens for [resize], the rule holds again after a
    [resize] event, whatever the other listeners did. *)
Theorem setContentMinHeight_rule pg content e :
  querySelector (hasClass "content") (document pg) = Some content ->
  propsAt content (document pg) = Some e ->
  let pg' := snd (setContentMinHeight pg) in
  fst (setContentMinHeight pg) = Return tt
  /\ propsAt content (document pg')
     = Some (setStyle "minHeight" (CalcVhMinusPx 102 (chromeHeight (document pg))) e)
  /\ (forall q, q <> content -> propsAt q (document pg') = propsAt q (document pg))
  /\ (forall c, querySelector (hasClass c) (document pg) = None ->
                heightOf c (document pg) = 0%Z)
  /\ contentRule pg'
  /\ (forall ev, existsb isContentSizer (listeners pg) = true ->
                 contentRule (snd (dispatchEvent Window "resize" ev pg))).
Proof.
  intros Hq He. destruct (setContentMinHeight_at pg content e Hq He) as [Hrun Hr].
  cbv zeta. split_and!.
  - by rewrite Hrun.
  - rewrite Hrun. cbn [snd document withDocument].
    by rewrite propsAt_alterAt_onProps, He.
  - intros q Hne. rewrite Hrun. cbn [snd document withDocument].
    by apply propsAt_alterAt_onProps_ne.
  - intros c Hc. unfold heightOf. by rewrite Hc.
  - done.
  - intros ev Hls. unfold dispatchEvent, andThen, gets.
    apply runListeners_resize_contentRule; [by rewrite Hq|done].
Qed.

Lemma setContentMinHeight_rule_witness :
  exists e,
    propsAt [0; 0; 2]%nat (document (snd (setContentMinHeight samplePage))) = Some e
    /\ assocGet "minHeight" (style e) = Some (CalcVhMinusPx 102 996).
Proof.
  destruct (propsAt [0; 0; 2]%nat (document samplePage)) as [e|] eqn:He;
    [|by vm_compute in He].
  destruct (setContentMinHeight_rule samplePage [0; 0; 2]%nat e eq_refl He)
    as (_&Hp&_).
  eexists. split; [exact Hp|].
  vm_compute in He. injection He as <-. reflexivity.
Defined.

(** ** Loading a page with the site-wide script *)

Lemma rewriting_andThen sel (s1 s2 : script unit) :
  rewriting sel s1 -> rewriting sel s2 -> rewriting sel (s1 ;; s2).
Proof.
  intros H1 H2 pg. unfold andThen.
  destruct (H1 pg) as (Hr1&(Hc1&Hq1&Ht1&Hl1)&Hm1).
  destruct (s1 pg) as [r1 pg1]. cbn [fst snd] in *. subst r1.
  destruct (H2 pg1) as (Hr2&(Hc2&Hq2&Ht2&Hl2)&Hm2).
  split; [done|]. split; [repeat split; congruence|].
  intros r Hr. by apply Hm1, Hm2.
Qed.

Lemma rewriting_timePass sel H c :
  propsOnly sel -> (forall s, sel (Text s) = false) -> rewriting sel (timePass H c).
Proof.
  intros Hsel Htext pg. destruct (timePass_some H c pg) as (l'&_&->).
  split; [done|]. split; [done|]. intros r. cbn [snd document withDocument].
  apply querySelectorAll_afterEach; [done..|apply localizeElement_rewritesText].
Qed.

Lemma rewriting_convertUTCToLocal sel H :
  propsOnly sel -> (forall s, sel (Text s) = false) ->
  rewriting sel (convertUTCToLocal H).
Proof.
  intros Hsel Htext pg. rewrite convertUTCToLocal_passes.
  revert pg. repeat (apply rewriting_andThen; [by apply rewriting_timePass|]).
  intros pg. by split.
Qed.

Lemma rewriting_formatCounts sel H :
  printsText H -> propsOnly sel -> (forall s, sel (Text s) = false) ->
  rewriting sel (formatCounts H).
Proof.
  intros HH Hsel Htext pg. destruct (formatCounts_some H pg) as (l'&_&->).
  split; [done|]. split; [done|]. intros r. cbn [snd document withDocument].
  apply querySelectorAll_afterEach; [done..|by apply formatCount_rewritesText].
Qed.

Lemma withChildren_rewritesText kids : textOnly kids -> rewritesText (withChildren kids).
Proof. intros Hk [e kids0|s]; [|done]. exists kids. split; [done|]. by right. Qed.

Lemma rewriting_updateCurrentYear sel H :
  printsText H -> propsOnly sel -> (forall s, sel (Text s) = false) ->
  rewriting sel (updateCurrentYear H).
Proof.
  intros HH Hsel Htext pg. rewrite updateCurrentYear_run.
  split; [done|]. split; [done|]. intros r. cbn [snd document withDocument]. cbv zeta.
  assert (Hf : rewritesText (withChildren (yearNodes H)))
    by (apply withChildren_rewritesText, HH).
  destruct (getElementById "yearTagMobile" _) as [q|];
    [intros Hr%(querySelectorAll_rewritesText sel _ _ _ _ Hsel Htext Hf)|intros Hr];
    (destruct (getElementById "yearTag" (document pg)) as [p|]; [|done]);
    by apply (querySelectorAll_rewritesText sel _ _ _ _ Hsel Htext Hf) in Hr.
Qed.

Lemma querySelector_None_after sel doc doc' :
  (forall r, r ∈ querySelectorAll sel doc' -> r ∈ querySelectorAll sel doc) ->
  querySelector sel doc = None -> querySelector sel doc' = None.
Proof.
  unfold querySelector. intros Hm Hq.
  destruct (querySelectorAll sel doc') as [|r l]; [done|].
  specialize (Hm r (list_elem_of_here _ _)).
  destruct (querySelectorAll sel doc); [by apply elem_of_nil in Hm|done].
Qed.

(** The listener of the site-wide script up to the sizers. *)
Lemma siteDOMContentLoaded_rewriting sel H :
  printsText H -> propsOnly sel -> (forall s, sel (Text s) = false) ->
  rewriting sel (updateCurrentYear H;; convertUTCToLocal H;; formatCounts H).
Proof.
  intros HH Hsel Htext.
  apply rewriting_andThen; [by apply rewriting_updateCurrentYear|].
  apply rewriting_andThen; [by apply rewriting_convertUTCToLocal|].
  by apply rewriting_formatCounts.
Qed.

Lemma siteDOMContentLoaded_steps H pg :
  siteDOMContentLoaded H pg
  = ((updateCurrentYear H;; convertUTCToLocal H;; formatCounts H);;
     setCoverHeight;; setContentMinHeight;;
     addEventListener Window "resize" SetCoverHeight;;
     addEventListener Window "resize" SetContentMinHeight)
      (withTimers (fun l => l ++ [(FadeNotification, 3000%Z)]) pg).
Proof.
  unfold siteDOMContentLoaded, handleNotification.
  unfold andThen at 1, setTimeout at 1, modify at 1.
  set (pg0 := withTimers _ pg). clearbody pg0. unfold andThen.
  destruct (updateCurrentYear H pg0) as [[[]|e1] pg1]; [|done].
  destruct (convertUTCToLocal H pg1) as [[[]|e2] pg2]; [|done].
  by destruct (formatCounts H pg2) as [[[]|e3] pg3].
Qed.

(** X13. On a host whose number strings parse as text, the listener of
    the site-wide script ends in a TypeError when the page has no element
    of class [cover] or none of class [content]: the rewriting steps before
    the sizers make no such element.  The notification timer is armed by
    then, but no [resize] listener is registered. *)
Theorem siteDOMContentLoaded_missing H pg :
  printsText H ->
  querySelector (hasClass "cover") (document pg) = None
  \/ querySelector (hasClass "content") (document pg) = None ->
  let pg' := snd (siteDOMContentLoaded H pg) in
  completes (siteDOMContentLoaded H pg) = false
  /\ listeners pg' = listeners pg
  /\ timers pg' = timers pg ++ [(FadeNotification, 3000%Z)].
Proof.
  intros HH Hmissing. cbv zeta. rewrite siteDOMContentLoaded_steps.
  set (pg0 := withTimers _ pg).
  set (s := updateCurrentYear H;; convertUTCToLocal H;; formatCounts H).
  match goal with |- context [completes (?c pg0)] =>
    assert (exists e pg', c pg0 = (Raise e, pg')
                          /\ listeners pg' = listeners pg
                          /\ timers pg' = timers pg ++ [(FadeNotification, 3000%Z)])
      as (e&pg'&->&Hl'&Ht'); [|done] end.
  unfold andThen at 1.
  destruct (siteDOMContentLoaded_rewriting (hasClass "cover") H HH
              (hasClass_propsOnly _) (fun _ => eq_refl) pg0) as (Hr&Hs&Hcover).
  destruct (siteDOMContentLoaded_rewriting (hasClass "content") H HH
              (hasClass_propsOnly _) (fun _ => eq_refl) pg0) as (_&_&Hcontent).
  fold s in Hr, Hs, Hcover, Hcontent.
  destruct (s pg0) as [r3 pg3]. cbn [fst snd] in Hr, Hs, Hcover, Hcontent. subst r3.
  destruct Hs as (_&_&Ht&Hl).
  change (timers pg0) with (timers pg ++ [(FadeNotification, 3000%Z)]) in Ht.
  change (listeners pg0) with (listeners pg) in Hl.
  change (document pg0) with (document pg) in Hcover, Hcontent.
  unfold andThen at 1. rewrite setCoverHeight_run.
  destruct (querySelector (hasClass "cover") (document pg3)) as [cover|] eqn:Hq;
    [|by eauto].
  unfold andThen at 1. rewrite setContentMinHeight_run.
  cbn [document withDocument]. rewrite querySelector_hasClass_onProps by done.
  destruct Hmissing as [Hnone|Hnone].
  - apply (querySelector_None_after _ _ _ Hcover) in Hnone. congruence.
  - apply (querySelector_None_after _ _ _ Hcontent) in Hnone. rewrite Hnone.
    by eauto.
Qed.

Lemma siteDOMContentLoaded_missing_witness :
  completes (siteDOMContentLoaded sampleHost pageWithoutChrome) = false
  /\ listeners (snd (siteDOMContentLoaded sampleHost pageWithoutChrome)) = []
  /\ timers (snd (siteDOMContentLoaded sampleHost pageWithoutChrome))
     = [(FadeNotification, 3000%Z)].
Proof.
  apply (siteDOMContentLoaded_missing sampleHost pageWithoutChrome).
  - intros x. split; (apply Forall_cons; split; [reflexivity|apply Forall_nil; exact I]).
  - left. reflexivity.
Defined.

Lemma sameListener_contentSizer l :
  sameListener {| target := Window; eventType := "resize";
                  handler := SetContentMinHeight |} l = true ->
  isContentSizer l = true.
Proof.
  unfold sameListener, isContentSizer, listensFor. cbn [target eventType handler].
  intros [[Ht Hty]%andb_true_iff Hcb]%andb_true_iff.
  apply String.eqb_eq in Hty as <-. rewrite String.eqb_refl.
  destruct (target l); [|done]. by destruct (handler l).
Qed.

Lemma rewriteSteps_sameButDocument H pg :
  let s := updateCurrentYear H;; convertUTCToLocal H;; formatCounts H in
  fst (s pg) = Return tt /\ sameButDocument pg (snd (s pg)).
Proof.
  cbv zeta. unfold andThen. rewrite updateCurrentYear_run.
  set (pg1 := withDocument _ pg).
  destruct (rewriting_convertUTCToLocal (hasClass "") H (hasClass_propsOnly _)
              (fun _ => eq_refl) pg1) as (Hr2&Hs2&_).
  destruct (convertUTCToLocal H pg1) as [r2 pg2]. cbn [fst snd] in Hr2, Hs2. subst r2.
  destruct (formatCounts_some H pg2) as (l'&_&->). split; [done|].
  destruct Hs2 as (?&?&?&?). by repeat split.
Qed.

(** X17. When the listener of the site-wide script completes, the page has
    the cover at its ratio and the content at its minimum height, the
    notification timer of 3000 ms is armed, nothing is logged or requested,
    and both sizers listen for [resize] on the window: a [resize] event on
    any later page with these listeners, a cover and a content container
    leaves both rules in force again. *)
Theorem siteDOMContentLoaded_loaded H pg pg' :
  siteDOMContentLoaded H pg = (Return tt, pg') ->
  coverRatio pg' /\ contentRule pg'
  /\ timers pg' = timers pg ++ [(FadeNotification, 3000%Z)]
  /\ console pg' = console pg /\ requests pg' = requests pg
  /\ existsb isCoverSizer (listeners pg') = true
  /\ existsb isContentSizer (listeners pg') = true
  /\ forall later ev,
       listeners later = listeners pg' ->
       querySelector (hasClass "cover") (document later) <> None ->
       querySelector (hasClass "content") (document later) <> None ->
       coverRatio (snd (dispatchEvent Window "resize" ev later))
       /\ contentRule (snd (dispatchEvent Window "resize" ev later)).
Proof.
  rewrite siteDOMContentLoaded_steps. set (pg0 := withTimers _ pg).
  unfold andThen at 1.
  destruct (rewriteSteps_sameButDocument H pg0) as [Hr Hs]. cbv zeta in Hr, Hs.
  destruct ((updateCurrentYear H;; convertUTCToLocal H;; formatCounts H) pg0)
    as [r3 pg3]. cbn [fst snd] in Hr, Hs. subst r3.
  destruct Hs as (Hc3&Hq3&Ht3&_).
  unfold andThen at 1.
  destruct (querySelector (hasClass "cover") (document pg3)) as [cover|] eqn:Hcover.
  2:{ by rewrite setCoverHeight_run, Hcover. }
  destruct (setCoverHeight_coverRatio pg3) as [Hr4 Hratio]; [by rewrite Hcover|].
  pose proof (setCoverHeight_run pg3) as Hrun4. rewrite Hcover in Hrun4.
  destruct (setCoverHeight pg3) as [r4 pg4]. cbn [fst snd] in Hr4, Hratio. subst r4.
  unfold andThen at 1.
  destruct (querySelector (hasClass "content") (document pg4)) as [content|] eqn:Hcontent.
  2:{ by rewrite setContentMinHeight_run, Hcontent. }
  destruct (setContentMinHeight_contentRule pg4) as [Hr5 Hrule]; [by rewrite Hcontent|].
  pose proof (setContentMinHeight_coverRatio pg4 Hratio) as Hratio5.
  pose proof (setContentMinHeight_run pg4) as Hrun5. rewrite Hcontent in Hrun5.
  destruct (setContentMinHeight pg4) as [r5 pg5].
  cbn [fst snd] in Hr5, Hrule, Hratio5. subst r5.
  unfold andThen at 1.
  pose proof (addEventListener_registered Window "resize" SetCoverHeight pg5) as Hreg.
  unfold addEventListener at 1, modify at 1.
  unfold addEventListener at 1, modify at 1 in Hreg. cbn [snd] in Hreg.
  set (pg6 := withListeners _ pg5) in *.
  pose proof (addEventListener_registered Window "resize" SetContentMinHeight pg6) as Hreg'.
  pose proof (addEventListener_keeps Window "resize" SetContentMinHeight pg6 isCoverSizer)
    as Hkeep.
  intros Hadd.
  assert (pg' = snd (addEventListener Window "resize" SetContentMinHeight pg6)) as ->
    by (by rewrite Hadd).
  clear Hadd.
  assert (Hcs : existsb isCoverSizer (listeners pg6) = true).
  { apply existsb_exists in Hreg as (l&Hin&Hsame).
    apply existsb_exists. exists l. split; [done|]. by apply sameListener_coverSizer. }
  assert (Hns : existsb isContentSizer
                  (listeners (snd (addEventListener Window "resize"
                                     SetContentMinHeight pg6))) = true).
  { apply existsb_exists in Hreg' as (l&Hin&Hsame).
    apply existsb_exists. exists l. split; [done|]. by apply sameListener_contentSizer. }
  injection Hrun4 as ->. injection Hrun5 as ->.
  split_and!; [done|done|..|by apply Hkeep|done|].
  - cbn. by rewrite Ht3.
  - cbn. by rewrite Hc3.
  - cbn. by rewrite Hq3.
  - intros later ev Hls Hcov Hcon. unfold dispatchEvent, andThen, gets. split.
    + apply runListeners_resize_coverRatio; [done|]. rewrite Hls. by apply Hkeep.
    + apply runListeners_resize_contentRule; [done|]. by rewrite Hls.
Qed.

Lemma siteDOMContentLoaded_loaded_witness :
  let pg' := snd (siteDOMContentLoaded sampleHost samplePage) in
  coverRatio pg' /\ contentRule pg'
  /\ length (filter (fun l => isCoverSizer l = true) (listeners pg')) = 1%nat.
Proof.
  intros pg'.
  destruct (siteDOMContentLoaded_loaded sampleHost samplePage pg')
    as (Hratio&Hrule&_); [reflexivity|].
  split; [exact Hratio|]. split; [exact Hrule|]. reflexivity.
Defined.

(** ** The notification *)

(** X14. The notification fades and then goes: [handleNotification] arms
    one timer of 3000 ms; when that fires and the notification is there,
    its opacity becomes 0 and a timer of 300 ms is armed for the same
    element; when that fires, its display becomes none, the opacity stays
    0, and no other element has changed.  Without a notification the
    first timer does nothing. *)
Theorem notification_fades pg :
  handleNotification pg
  = (Return tt, withTimers (fun l => l ++ [(FadeNotification, 3000%Z)]) pg)
  /\ (getElementById "notification" (document pg) = None ->
      runTask FadeNotification pg = (Return tt, pg))
  /\ forall notification e,
       getElementById "notification" (document pg) = Some notification ->
       propsAt notification (document pg) = Some e ->
       let faded := snd (runTask FadeNotification pg) in
       let hidden := snd (runTask (HideNotification notification) faded) in
       timers faded = timers pg ++ [(HideNotification notification, 300%Z)]
       /\ propsAt notification (document faded)
          = Some (setStyle "opacity" (Keyword "0") e)
       /\ (exists e', propsAt notification (document hidden) = Some e'
                      /\ assocGet "opacity" (style e') = Some (Keyword "0")
                      /\ assocGet "display" (style e') = Some (Keyword "none")
                      /\ withStyle (fun _ => []) e' = withStyle (fun _ => []) e)
       /\ (forall q, q <> notification ->
             propsAt q (document hidden) = propsAt q (document pg))
       /\ timers hidden = timers faded.
Proof.
  split; [done|]. split.
  { intros Hnone. unfold runTask, andThen, gets. by rewrite Hnone. }
  intros notification e Hn He. cbv zeta.
  unfold runTask, andThen, gets, mutate, setTimeout, modify. rewrite Hn.
  cbn [fst snd document timers withDocument withTimers].
  split; [done|]. split; [by rewrite propsAt_alterAt_onProps, He|]. split.
  { exists (setStyle "display" (Keyword "none") (setStyle "opacity" (Keyword "0") e)).
    split; [by rewrite !propsAt_alterAt_onProps, He|].
    cbn [style setStyle withStyle]. split; [|split; [apply assocGet_assocSet|done]].
    rewrite assocGet_assocSet_ne by done. apply assocGet_assocSet. }
  split; [|done]. intros q Hq. by rewrite !propsAt_alterAt_onProps_ne.
Qed.

Lemma notification_fades_witness :
  let pg := pageOf (elem "BODY" [] []
                      [elem "DIV" ["toast"] [("id", "notification")] [Text "Saved"]]) in
  let faded := snd (runTask FadeNotification pg) in
  let hidden := snd (runTask (HideNotification [0]%nat) faded) in
  timers faded = [(HideNotification [0]%nat, 300%Z)]
  /\ (style <$> propsAt [0]%nat (document hidden))
     = Some [("opacity", Keyword "0"); ("display", Keyword "none")].
Proof.
  intros pg faded hidden.
  destruct (notification_fades pg) as (_&_&Hn).
  destruct (propsAt [0]%nat (document pg)) as [e|] eqn:He; [|by vm_compute in He].
  destruct (Hn [0]%nat e eq_refl He) as (Ht&_).
  split; [exact Ht|]. reflexivity.
Defined.

(** ** When the site-wide listener completes *)

Lemma querySelector_elem_of sel n p :
  querySelector sel n = Some p -> p ∈ querySelectorAll sel n.
Proof.
  unfold querySelector. destruct (querySelectorAll sel n); [done|].
  intros [= ->]. apply list_elem_of_here.
Qed.

Lemma updateCurrentYear_keeps H pg q :
  printsText H ->
  (forall element, element ∈ querySelectorAll (hasId "yearTag") (document pg) ->
                   isStrictPrefix element q = false) ->
  (forall element, element ∈ querySelectorAll (hasId "yearTagMobile") (document pg) ->
                   isStrictPrefix element q = false) ->
  propsAt q (document (snd (updateCurrentYear H pg))) = propsAt q (document pg).
Proof.
  intros HH Hy Hm. rewrite updateCurrentYear_run. cbn [snd document withDocument].
  cbv zeta.
  assert (Hf : rewritesText (withChildren (yearNodes H)))
    by (apply withChildren_rewritesText, HH).
  assert (Hkeep : forall p d, isStrictPrefix p q = false ->
            propsAt q (alterAt (withChildren (yearNodes H)) d p) = propsAt q d).
  { intros p d Hp. apply propsAt_alterAt_keeps; [|done].
    intros x. by apply rewritesText_props. }
  destruct (getElementById "yearTag" (document pg)) as [p|] eqn:Hp.
  - destruct (getElementById "yearTagMobile" _) as [m|] eqn:Hm'.
    + rewrite !Hkeep; [done|by apply Hy, querySelector_elem_of|].
      apply Hm. apply querySelector_elem_of in Hm'.
      by apply (querySelectorAll_rewritesText _ _ _ _ _ (hasId_propsOnly _)
                  (fun _ => eq_refl) Hf) in Hm'.
    + rewrite Hkeep; [done|by apply Hy, querySelector_elem_of].
  - destruct (getElementById "yearTagMobile" _) as [m|] eqn:Hm'; [|done].
    rewrite Hkeep; [done|by apply Hm, querySelector_elem_of].
Qed.

(** A match stays a match where its properties stay. *)
Lemma match_kept sel q doc doc' :
  propsOnly sel -> (forall s, sel (Text s) = false) ->
  q ∈ querySelectorAll sel doc ->
  propsAt q doc' = propsAt q doc ->
  q ∈ querySelectorAll sel doc'.
Proof.
  intros Hsel Htext [Hne (x&Hx&Hs)]%elem_of_querySelectorAll Hp.
  apply elem_of_querySelectorAll. split; [done|].
  destruct x as [e kids|s]; [|by rewrite Htext in Hs].
  unfold propsAt in Hp. rewrite Hx in Hp. simpl in Hp.
  destruct (nodeAt q doc') as [[e' kids'|s']|]; simplify_eq/=.
  eexists. split; [done|]. by rewrite (Hsel _ kids' kids).
Qed.

(** The rewriting steps keep the properties of what is not inside a
    rewritten element. *)
Lemma rewriteSteps_keeps H pg q :
  printsText H ->
  (forall element, element ∈ rewrittenElements (document pg) ->
                   isStrictPrefix element q = false) ->
  let s := updateCurrentYear H;; convertUTCToLocal H;; formatCounts H in
  propsAt q (document (snd (s pg))) = propsAt q (document pg).
Proof.
  intros HH Hq. cbv zeta. unfold rewrittenElements in Hq.
  assert (Hq1 : forall el, el ∈ querySelectorAll (hasId "yearTag") (document pg) ->
                  isStrictPrefix el q = false).
  { intros el Hel. apply Hq. rewrite !elem_of_app. tauto. }
  assert (Hq2 : forall el, el ∈ querySelectorAll (hasId "yearTagMobile") (document pg) ->
                  isStrictPrefix el q = false).
  { intros el Hel. apply Hq. rewrite !elem_of_app. tauto. }
  assert (Hq3 : forall el, el ∈ querySelectorAll isTimeElement (document pg) ->
                  isStrictPrefix el q = false).
  { intros el Hel. apply Hq. rewrite !elem_of_app. tauto. }
  assert (Hq4 : forall el, el ∈ querySelectorAll (hasClass "count") (document pg) ->
                  isStrictPrefix el q = false).
  { intros el Hel. apply Hq. rewrite !elem_of_app. tauto. }
  clear Hq. unfold andThen.
  pose proof (updateCurrentYear_keeps H pg q HH Hq1 Hq2) as Hk1.
  destruct (rewriting_updateCurrentYear isTimeElement H HH isTimeElement_propsOnly
              isTimeElement_text pg) as (Hr1&_&Ht1).
  destruct (rewriting_updateCurrentYear (hasClass "count") H HH (hasClass_propsOnly _)
              (fun _ => eq_refl) pg) as (_&_&Hc1).
  destruct (updateCurrentYear H pg) as [r1 pg1]. cbn [fst snd] in *. subst r1.
  destruct (convertUTCToLocal_frame H pg1) as (Hr2&_&_&Hk2).
  destruct (rewriting_convertUTCToLocal (hasClass "count") H (hasClass_propsOnly _)
              (fun _ => eq_refl) pg1) as (_&_&Hc2).
  destruct (convertUTCToLocal H pg1) as [r2 pg2]. cbn [fst snd] in *. subst r2.
  destruct (formatCounts_frame H pg2) as (Hr3&_&Hk3).
  destruct (formatCounts H pg2) as [r3 pg3]. cbn [fst snd] in *. subst r3.
  rewrite Hk3, Hk2, Hk1; [done|..].
  - intros el Hel. by apply Hq3, Ht1.
  - intros el Hel. by apply Hq4, Hc1, Hc2.
Qed.

(** X18. On a host whose number strings parse as text, the listener of
    the site-wide script completes when the page has an element of class
    [cover] and one of class [content] that are not inside a year tag, a
    time element or a count element, whatever else the page holds. *)
Theorem siteDOMContentLoaded_completes H pg cover content :
  printsText H ->
  cover ∈ querySelectorAll (hasClass "cover") (document pg) ->
  content ∈ querySelectorAll (hasClass "content") (document pg) ->
  (forall element, element ∈ rewrittenElements (document pg) ->
     isStrictPrefix element cover = false /\ isStrictPrefix element content = false) ->
  completes (siteDOMContentLoaded H pg) = true.
Proof.
  intros HH Hcover Hcontent Hout. rewrite siteDOMContentLoaded_steps.
  set (pg0 := withTimers _ pg). unfold andThen at 1.
  pose proof (rewriteSteps_keeps H pg0 cover HH (fun el Hel => proj1 (Hout el Hel)))
    as Hk1.
  pose proof (rewriteSteps_keeps H pg0 content HH (fun el Hel => proj2 (Hout el Hel)))
    as Hk2.
  destruct (rewriteSteps_sameButDocument H pg0) as [Hr _].
  cbv zeta in Hk1, Hk2, Hr.
  destruct ((updateCurrentYear H;; convertUTCToLocal H;; formatCounts H) pg0)
    as [r3 pg3]. cbn [fst snd] in Hk1, Hk2, Hr. subst r3.
  change (document pg0) with (document pg) in Hk1, Hk2.
  apply (match_kept _ _ _ (document pg3) (hasClass_propsOnly _) (fun _ => eq_refl))
    in Hcover; [|done].
  apply (match_kept _ _ _ (document pg3) (hasClass_propsOnly _) (fun _ => eq_refl))
    in Hcontent; [|done].
  unfold andThen at 1. rewrite setCoverHeight_run. unfold querySelector at 1.
  destruct (querySelectorAll (hasClass "cover") (document pg3)) as [|c l];
    [by apply elem_of_nil in Hcover|]. cbn [head].
  unfold andThen at 1. rewrite setContentMinHeight_run.
  cbn [document withDocument]. rewrite querySelector_hasClass_onProps by done.
  unfold querySelector at 1.
  destruct (querySelectorAll (hasClass "content") (document pg3)) as [|c' l'];
    [by apply elem_of_nil in Hcontent|]. cbn [head].
  done.
Qed.

Lemma siteDOMContentLoaded_completes_witness :
  completes (siteDOMContentLoaded sampleHost samplePage) = true.
Proof.
  apply (siteDOMContentLoaded_completes sampleHost samplePage [0; 0; 1]%nat [0; 0; 2]%nat).
  - intros x. split; (apply Forall_cons; split; [reflexivity|apply Forall_nil; exact I]).
  - by vm_compute; left.
  - by vm_compute; left.
  - intros element Hel. vm_compute in Hel.
    repeat (apply elem_of_cons in Hel as [->|Hel]); [done..|].
    by apply elem_of_nil in Hel.
Defined.

(** ** The cover sizer *)

(** X19. [setCoverHeight] changes the [height] of the cover's style and
    nothing else: the cover keeps its other style properties and the rest
    of its properties, every other element keeps its properties, and the
    console, the requests, the timers and the listeners are as they were.
    Without a cover it ends in a TypeError and leaves the page as it is. *)
Theorem setCoverHeight_only_height pg :
  (querySelector (hasClass "cover") (document pg) = None ->
   exists msg, setCoverHeight pg = (Raise (TypeError msg), pg))
  /\ forall cover e,
       querySelector (hasClass "cover") (document pg) = Some cover ->
       propsAt cover (document pg) = Some e ->
       let pg' := snd (setCoverHeight pg) in
       sameButDocument pg pg'
       /\ propsAt cover (document pg')
          = Some (setStyle "height" (Px ((9 / 21) * numberOfLong (offsetWidth e))%float) e)
       /\ (forall name e', propsAt cover (document pg') = Some e' -> name <> "height" ->
             assocGet name (style e') = assocGet name (style e))
       /\ forall q, q <> cover -> propsAt q (document pg') = propsAt q (document pg).
Proof.
  rewrite setCoverHeight_run. split.
  { intros ->. by eexists. }
  intros cover e -> He. cbv zeta. cbn [snd document withDocument]. rewrite He.
  cbn [from_option]. rewrite propsAt_alterAt_onProps, He. split_and!; [done..| |].
  - intros name e' [= <-] Hne. cbn [style setStyle withStyle].
    by apply assocGet_assocSet_ne.
  - intros q Hq. by apply propsAt_alterAt_onProps_ne.
Qed.

Lemma setCoverHeight_only_height_witness :
  (exists msg, setCoverHeight pageWithoutChrome = (Raise (TypeError msg), pageWithoutChrome))
  /\ propsAt [0; 0; 2]%nat (document (snd (setCoverHeight samplePage)))
     = propsAt [0; 0; 2]%nat (document samplePage).
Proof.
  destruct (setCoverHeight_only_height pageWithoutChrome) as [Hnone _].
  destruct (setCoverHeight_only_height samplePage) as [_ Hsome].
  destruct (propsAt [0; 0; 1]%nat (document samplePage)) as [e|] eqn:He;
    [|by vm_compute in He].
  destruct (Hsome [0; 0; 1]%nat e eq_refl He) as (_&_&_&Hq).
  split; [exact (Hnone eq_refl)|]. by apply Hq.
Defined.
